(* ===== verification/_CoqProject ===== *)
-Q . S2P
Prelude.v
JsNum.v
Catalog.v
Geometry.v
Scene.v
Openness.v
PadDims.v
PadRegex.v
Checklist.v
Fruit.v
FruitModel.v
Loader.v
LoaderInv.v
LoaderLive.v
LoaderRefine.v
Picking.v
Label.v
Startup.v
