(* ===== verification/Prelude.v ===== *)
(** * A verification development of the FruitTouch gripper viewer

    The program is [src/static/js/gripper-viewer.js]: a browser module
    that shows a parametrised gripper in a three.js scene.  The module
    keeps global state and reacts to UI events and to completions of
    asynchronous fetches.  This development models that state and every
    handler that changes it.  The theorems say what the viewer guarantees
    and where it does not.

    ** Parts of the program and where they are modelled

    - [Prelude] (this file): shared notation ([viewer_scope]), the JS
      value helpers the model needs (JS truthiness of a [Map.get] result,
      [Math.round], array indexing with [undefined] out of range), the
      [viewer] hint database and generic lemmas on lists, options, Z and Q.
    - [Catalog]: the static tables [SIZES], [PARTS], [COMPONENT_GROUPS],
      [LEFT_FINGER_PARTS], [RIGHT_FINGER_PARTS], [FRUIT_CONFIG],
      [TACTILE_STEPS], the mesh URL convention of [loadPart], and
      [prefetchAdjacentSizes] / [prefetchSizeAssets].
    - [JsNum]: JS numbers as the fallback colouring uses them: finite
      values as rationals, [Infinity], [-Infinity] and [NaN], with
      [Math.max], [Math.min], [+], [-], multiplication by a constant,
      [>] (false on NaN) and integer division ([0/0] is NaN); a setoid
      equality and [Proper] instances for rewriting under them.
    - [Geometry]: the three.js primitives the handlers call ([Vector3]
      with [copy]/[addScaledVector]/[sub], [Box3] with [expandByObject],
      [getSize], [getCenter]).  Coordinates are rationals [Q] and
      equality of vectors is the setoid [≡] (componentwise [Qeq]).
    - [Openness]: [applyOpenness], [updateTactileImage] and the
      openness label, as functions on a store of scene objects.
    - [PadDims]: [parsePadDimensions] (the regular expression, run on
      ASCII strings), JS [Number] coercion of the captures,
      [Number.prototype.toFixed(1)], and the two readouts that
      [updatePadDimensions] writes.
    - [PadRegex]: a declarative semantics of the pad pattern
      ([nmatch]) against which the backtracking matcher and the search
      of [PadDims] are proved.
    - [Checklist]: [componentVisibility], [setPartVisibility],
      [buildComponentList] (its checkbox states) and the part, group and
      expand handlers.
    - [Fruit]: [fruitUserOverride], [loadFruits], [updateFruitVisibility],
      [updateFruitCheckboxes], [positionFruits] and the two fruit
      checkbox handlers.
    - [FruitModel]: [loadFruitModel] (the OBJ and texture loads as
      their outcomes) and [applyFallbackColors], per mesh: the global
      bounds, the strawberry leaf threshold and vertex count, the apple
      stem test.  A mesh is its [isMesh] flag and the y coordinates of
      its position attribute.
    - [Loader]: the whole viewer as a world (global state, object store,
      pool of pending asynchronous continuations) with one step per event:
      UI input, part-load completion, [Promise.all] join,
      pad-dimension fetch completion, the tail of [loadSize], and the
      completion of [loadFruits].  [loadSize] and the load token live
      here.  The browser's freedom to settle fetches in any order is the
      event's choice of which pending task completes ([exec], [step]).
    - [LoaderInv]: the invariant of the token guard and what it buys.
    - [LoaderRefine]: an abstract specification of what the group shows
      (a requested size of [SIZES] and a list of distinct part files,
      with two steps: request a size, add a part) and the simulation
      that the event loop refines it.
    - [LoaderLive]: progress of the event loop: a schedule that settles
      every pending continuation, with a weight that bounds its length.
    - [Picking]: [findLabelForObject] (a [while] loop over parent links,
      with fuel) and the [pointerdown] listener, over a scene graph of
      labels and parent links; the ray cast is the listener's input.
    - [Label]: the label element (its [visible] class, [aria-hidden],
      text and pixel transform) with [updateLabelPosition], the
      [animate] frame, [resetLabel], the listener at the level of the
      element and the click's normalised coordinates; [resizeRenderer].
      The camera's projection of each frame is an input.
    - [Startup]: the eleven [document.getElementById] lookups and the
      guard that throws when one element is missing.

    ** How the parts interact

    The object store [Scene.Store] is shared: [Loader] adds objects to
    it, [Openness] moves them, [Checklist] hides and shows them, each
    through ids held in [group.children], [componentObjects],
    [leftFinger] and [rightFinger], as the JS code shares the three.js
    objects through these collections.  [Loader.exec] calls the
    component operations the way the listeners and [loadSize] call the
    JS functions.

    ** What the theorems show

    - The load token (LoaderInv): in every world reachable from start-up,
      under every interleaving, the group shows only meshes of the size
      the slider selects ([group_shows_requested_size]); a stale part
      load, join or pad fetch changes nothing visible
      ([stale_completion_keeps_scene]).  The tail of [loadSize] after
      [await updatePadDimensions] is not guarded: any pending tail,
      stale or not, puts the fruit logic at its own size
      ([stale_tail_overrides_fruits]), and a reachable world has a
      stale tail pending.
    - Fingers (Loader): at a join the two optical shells move with the
      finger opposite to their labels
      ([optical_shells_move_with_opposite_finger]).
    - Refinement (LoaderRefine): every reachable world, read through
      [abs_of], is reachable in the abstract specification; each
      concrete event is an abstract step or a stutter
      ([viewer_refines_spec]), so the group never shows a part twice
      ([group_parts_distinct]).
    - Progress (LoaderLive): from any world the pool of pending
      continuations drains whatever the outcome of each fetch
      ([pending_pool_drains]); no join waits forever.
    - Picking: on a scene graph whose parent links lower a rank, the
      label search ends within rank + 1 steps and finds the first
      labelled ancestor; the listener resets, shows or keeps the label
      accordingly.
    - Label: the element listener resets, keeps or shows and places the
      label and agrees with [Picking.onPointerDown]
      ([onPointerDownEl_spec]); clicks, frames and resets keep the
      element consistent ([label_consistent]); frames never show the
      label again once hidden ([frames_never_reshow], a divergence from
      the specification); the label lands on the click when the hit
      point projects there ([label_at_click]).
    - Start-up: the module throws exactly when an element it looks up
      is missing ([startUp_spec]).
    - Openness: the position of every object after [applyOpenness] on
      every branch, independence from earlier calls, the 0 / 0.5 / 1
      positions, the label thresholds, and the tactile index bounds and
      closed form.
    - Fruits: auto visibility by size, the exclusion the checkbox
      handlers enforce, an invariant ([at_most_one_fruit_visible]) when
      no checkbox is used before [loadFruits] completes, and, without
      that restriction, both fruits shown after both boxes are checked
      early ([both_fruits_visible_when_toggled_early]).
    - Pad dimensions: a print/parse round trip for integer dimensions,
      the placeholder paths, and the malformed fields that yield NaN
      ([padReadouts_malformed_number]); parsing ignores the case of
      letters ([parsePadDimensions_case_insensitive]), the [Z] capture is
      a whole run of digits and dots ([parsePadDimensions_z_maximal]),
      and [parsePadDimensions] returns the captures of the leftmost
      match of the declarative semantics of the pattern
      ([parsePadDimensions_spec]).
    - Fruit meshes: [loadFruitModel] fails only when the OBJ fails and
      otherwise labels and colours every mesh; the strawberry colouring
      is invariant under any increasing affine change of heights, the
      apple's stem test is not invariant under translation, and an empty
      mesh is coloured as apple stem.
    - Checklist: the tri-state group box, the group handler's effect,
      and that the drawn list always equals a fresh rebuild.
    - Catalog: prefetching after a load touches exactly the two
      neighbouring sizes, in order.

    ** Bounds and recursion

    The only fuel is that of [Picking.findLabelForObject], one unit per
    object visited; rank + 1 units suffice on a ranked graph, and a
    three.js scene is ranked by depth.  [LoaderLive.drain] takes the
    pool's weight as its bound, which the progress lemma shows is
    enough.  Everything else is structurally recursive: the greedy
    repetition of the matcher ([PadDims.rep_loop]) counts down from the
    run length, the search recurses on the text, and [run] on the event
    list.  [animate] never ends (each frame requests the next); its
    model [Label.animateFrames] runs a finite list of frames, and the
    theorems about it hold for every finite prefix of the loop.  Integer theorems on pad dimensions are
    stated below [2^53], where JS numbers are exact, so the rational
    model and the double arithmetic agree.

    ** Plan and status

    Modelled and proved: every component listed above.  Planned next:
    the [pointerdown] listener as an event of [Loader.exec] (the scene
    graph built from the store, and the label element of [Label] as
    part of the world), and [loadFruits] composed with
    [loadFruitModel] in that event loop.

    ** What is not modelled

    WebGL rendering (renderer, scene, camera and light construction,
    [renderer.render]), the orbit controls (their effect is the camera
    projection each frame of [Label] takes as input), the unused
    [MTLLoader], and the console warning text.  These change no state that other handlers read.
    The ray cast of three.js is an input of the [pointerdown] model.
    [Loader] starts from a complete page, the case [Startup] shows to
    be the one where the module does not throw.
    JS numbers are IEEE doubles; the model uses exact rationals, with
    the infinities and NaN where the code reaches them ([JsNum]).  Vertex
    heights are doubles in the code; the fruit theorems hold for the
    exact values, and rounding is not modelled.  [toFixed(1)] is modelled on
    exact rationals below [10^21]: at or above it, where JS prints
    exponent notation, the model of [updatePadDimensions] and
    [frameObject] leaves the readout as it was, and on non-integers the
    rounding of the exact value can differ from that of the double
    (0.35); the theorems on the readouts concern integers below [2^53].  For the
    inputs the UI produces (slider values [0..100] divided by [100]) the
    comparisons the code makes ([>= 0.95], [<= 0.05], [Math.round] of
    [9 * v / 100]) give the same answers on doubles and on rationals,
    since no such value lies within rounding error of a threshold other
    than exactly.
*)

From stdpp Require Export base gmap strings list sets.
From Stdlib Require Export QArith Qround Lqa.
From Stdlib Require Export DecimalString DecimalNat DecimalZ.

Declare Scope viewer_scope.
Delimit Scope viewer_scope with viewer.
Open Scope viewer_scope.

(** ** JS values *)

(** [m.get(k) !== false] for a [Map] of booleans: a missing key counts
    as true. *)
Definition not_false (o : option bool) : bool :=
  match o with Some false => false | _ => true end.

Notation "m '!!≠false' k" := (not_false (m !! k))
  (at level 20, no associativity) : viewer_scope.

(** Array indexing [a[i]] with [undefined] (here [None]) out of range. *)
Definition js_index {A} (l : list A) (i : Z) : option A :=
  if (i <? 0)%Z then None else l !! Z.to_nat i.

(** [Array.prototype.indexOf] with strict equality on strings. *)
Fixpoint indexOf (l : list string) (x : string) : Z :=
  match l with
  | [] => (-1)%Z
  | y :: l' => if String.eqb y x then 0%Z
               else let i := indexOf l' x in if (i <? 0)%Z then i else (i + 1)%Z
  end.

(** [Math.min(Math.max(i, lo), hi)]. *)
Definition clamp (lo hi i : Z) : Z := Z.min (Z.max i lo) hi.

(** [Math.round]: nearest integer, halves rounded up. *)
Definition js_round (q : Q) : Z := Qfloor (q + (1 # 2)).

(** Decimal printing of an integer, as JS template literals do. *)
Definition string_of_Z (z : Z) : string :=
  NilEmpty.string_of_int (Z.to_int z).

(** ** Automation *)

Create HintDb viewer.
Create Rewrite HintDb viewer_rw.

Ltac invc H := inversion H; subst; clear H.

(** Split every [if]/[match] on a boolean test in the goal. *)
Ltac case_ifs :=
  repeat match goal with
  | |- context [if ?b then _ else _] => destruct b eqn:?
  end.

(** ** Generic lemmas *)

Section generic.
Context {A : Type}.

Lemma js_index_Some (l : list A) i x :
  js_index l i = Some x <-> (0 <= i)%Z /\ l !! Z.to_nat i = Some x.
Proof.
  unfold js_index. destruct (Z.ltb_spec i 0); split.
  - discriminate.
  - intros [? _]. lia.
  - intros Hl. split; [lia | exact Hl].
  - intros [_ Hl]. exact Hl.
Qed.

Lemma js_index_None (l : list A) i :
  js_index l i = None <-> (i < 0 \/ Z.of_nat (length l) <= i)%Z.
Proof.
  unfold js_index. destruct (Z.ltb_spec i 0); [split; auto; lia|].
  rewrite lookup_ge_None. lia.
Qed.

Lemma length_filter_le (P : A -> Prop) `{!∀ x, Decision (P x)} (l : list A) :
  (length (filter P l) <= length l)%nat.
Proof.
  induction l as [|x l IH]; [done|]. rewrite filter_cons. case_decide; simpl; lia.
Qed.

End generic.

Lemma clamp_bounds lo hi i : (lo <= hi)%Z -> (lo <= clamp lo hi i <= hi)%Z.
Proof. unfold clamp. lia. Qed.

Lemma clamp_id lo hi i : (lo <= i <= hi)%Z -> clamp lo hi i = i.
Proof. unfold clamp. lia. Qed.

Lemma indexOf_bounds l x : (-1 <= indexOf l x < Z.of_nat (length l))%Z.
Proof.
  induction l as [|y l IH]; simpl; [lia|].
  destruct (String.eqb y x); [lia|]. destruct (Z.ltb_spec (indexOf l x) 0); lia.
Qed.

Lemma indexOf_lookup l x :
  (0 <= indexOf l x)%Z -> l !! Z.to_nat (indexOf l x) = Some x.
Proof.
  induction l as [|y l IH]; simpl; [lia|].
  destruct (String.eqb_spec y x) as [->|]; [done|].
  destruct (Z.ltb_spec (indexOf l x) 0); [lia|].
  intros _. rewrite Z2Nat.inj_add by lia. rewrite Nat.add_comm. simpl. auto.
Qed.

Lemma indexOf_missing l x : x ∉ l -> indexOf l x = (-1)%Z.
Proof.
  induction l as [|y l IH]; simpl; [done|]. intros Hx.
  destruct (String.eqb_spec y x) as [->|]; [set_solver|].
  rewrite IH by set_solver. done.
Qed.

Lemma js_round_spec q : (inject_Z (js_round q) <= q + (1 # 2) < inject_Z (js_round q) + 1)%Q.
Proof.
  unfold js_round. pose proof (Qfloor_le (q + (1 # 2))).
  pose proof (Qlt_floor (q + (1 # 2))). rewrite inject_Z_plus in *. split; auto.
Qed.

Lemma js_round_int (z : Z) : js_round (inject_Z z) = z.
Proof.
  unfold js_round, Qfloor, Qplus, inject_Z; simpl.
  symmetry. apply (Z.div_unique _ _ _ 1); lia.
Qed.

#[export] Hint Resolve clamp_bounds clamp_id indexOf_bounds : viewer.

(** Folding an idempotent [alter] over a list of keys: a key in the list
    is updated once, the others are untouched.  This is the shape of the
    [forEach] loops that mutate objects of the scene. *)
Lemma fold_alter_lookup `{Countable K} {V} (f : V -> V) (ids : list K) (m : gmap K V) j :
  (forall x, f (f x) = f x) ->
  fold_left (fun s id => alter f id s) ids m !! j =
    if bool_decide (j ∈ ids) then f <$> m !! j else m !! j.
Proof.
  intros Hf. revert m. induction ids as [|i ids IH]; intros m; simpl; [done|].
  rewrite IH. destruct (decide (i = j)) as [->|Hne].
  - rewrite lookup_alter_eq. destruct (m !! j); simpl;
      repeat case_bool_decide; try set_solver; simpl; by rewrite ?Hf.
  - rewrite lookup_alter_ne by done. repeat case_bool_decide; set_solver.
Qed.

#[export] Instance js_round_proper : Proper (Qeq ==> eq) js_round.
Proof. intros x y Hxy. unfold js_round. by rewrite Hxy. Qed.

(** [Math.round(z / d)] for a positive integer [d], in closed form. *)
Lemma js_round_frac (z d : Z) : (0 < d)%Z ->
  js_round (inject_Z z / inject_Z d) = ((2 * z + d) / (2 * d))%Z.
Proof.
  intros Hd. unfold js_round.
  assert (inject_Z z / inject_Z d + (1 # 2) == (2 * z + d) # Z.to_pos (2 * d))%Q as ->.
  { unfold Qeq, Qdiv, Qmult, Qplus, Qinv, inject_Z; simpl.
    destruct d as [|p|p]; try lia. simpl. nia. }
  unfold Qfloor. simpl. rewrite Z2Pos.id by lia. done.
Qed.

Lemma string_app_assoc (a b c : string) :
  String.append (String.append a b) c = String.append a (String.append b c).
Proof. induction a as [|ch a IH]; [done|]. exact (f_equal (String.String ch) IH). Qed.

Lemma forallb_false_exists {A} (p : A -> bool) (l : list A) :
  forallb p l = false -> exists x, x ∈ l /\ p x = false.
Proof.
  induction l as [|x l IH]; simpl; [discriminate|].
  destruct (p x) eqn:Hx; simpl; intros H.
  - destruct (IH H) as (y & ? & ?). exists y. split; [by right|done].
  - exists x. split; [left|done].
Qed.

Lemma map_lookup {A B} (f : A -> B) (l : list A) (i : nat) : map f l !! i = f <$> l !! i.
Proof. revert i. induction l as [|x l IH]; intros [|i]; simpl; auto. Qed.
