(* ===== verification/JsNum.v ===== *)
(** * JsNum: JS numbers with infinities and NaN

    Exact rationals stand for finite doubles, as elsewhere in the
    development; this file adds the values [Infinity], [-Infinity] and
    [NaN] that the code reaches when it folds [Math.max] / [Math.min]
    from [-Infinity] / [Infinity] over an empty set of vertices, or
    divides [0 / 0].  The operations follow IEEE 754: [NaN] absorbs,
    [Infinity - Infinity] is [NaN], every comparison with [NaN] is
    false.  Equality of finite values is [Qeq], so [jeq] is the
    setoid equality of the type. *)

From S2P Require Import Prelude.
From Stdlib Require Import Qminmax.

Inductive jsnum := JFin (q : Q) | JPInf | JMInf | JNaN.

Definition jeq (a b : jsnum) : Prop :=
  match a, b with
  | JFin x, JFin y => (x == y)%Q
  | JPInf, JPInf | JMInf, JMInf | JNaN, JNaN => True
  | _, _ => False
  end.

(** [Math.max(a, b)] *)
Definition jmax (a b : jsnum) : jsnum :=
  match a, b with
  | JNaN, _ | _, JNaN => JNaN
  | JPInf, _ | _, JPInf => JPInf
  | JMInf, x | x, JMInf => x
  | JFin x, JFin y => JFin (Qmax x y)
  end.

(** [Math.min(a, b)] *)
Definition jmin (a b : jsnum) : jsnum :=
  match a, b with
  | JNaN, _ | _, JNaN => JNaN
  | JMInf, _ | _, JMInf => JMInf
  | JPInf, x | x, JPInf => x
  | JFin x, JFin y => JFin (Qmin x y)
  end.

(** [a + b] *)
Definition jadd (a b : jsnum) : jsnum :=
  match a, b with
  | JNaN, _ | _, JNaN => JNaN
  | JPInf, JMInf | JMInf, JPInf => JNaN
  | JPInf, _ | _, JPInf => JPInf
  | JMInf, _ | _, JMInf => JMInf
  | JFin x, JFin y => JFin (x + y)
  end.

Definition jneg (a : jsnum) : jsnum :=
  match a with JFin x => JFin (- x) | JPInf => JMInf | JMInf => JPInf | JNaN => JNaN end.

(** [a - b] *)
Definition jsub (a b : jsnum) : jsnum := jadd a (jneg b).

(** [a * c] for a finite constant [c]: an infinity times [0] is [NaN]. *)
Definition jmulc (a : jsnum) (c : Q) : jsnum :=
  match a with
  | JFin x => JFin (x * c)
  | JNaN => JNaN
  | JPInf => match Qcompare c 0 with Gt => JPInf | Lt => JMInf | Eq => JNaN end
  | JMInf => match Qcompare c 0 with Gt => JMInf | Lt => JPInf | Eq => JNaN end
  end.

(** [a > b] *)
Definition jgt (a b : jsnum) : bool :=
  match a, b with
  | JNaN, _ | _, JNaN => false
  | JPInf, JPInf | JMInf, _ => false
  | JPInf, _ => true
  | JFin _, JMInf => true
  | JFin _, JPInf => false
  | JFin x, JFin y => negb (Qle_bool x y)
  end.

(** [k / n] for counts, as doubles divide: [0 / 0] is [NaN]. *)
Definition jdiv_nat (k n : nat) : jsnum :=
  match n with
  | O => if Nat.eqb k 0 then JNaN else JPInf
  | _ => JFin (inject_Z (Z.of_nat k) / inject_Z (Z.of_nat n))
  end.

(** The affine map [x ↦ k * x + t], extended to infinities (for
    [k > 0]). *)
Definition jaff (k t : Q) (a : jsnum) : jsnum :=
  match a with JFin x => JFin (k * x + t) | _ => a end.

(** ** Lemmas *)

#[export] Instance jeq_equiv : Equivalence jeq.
Proof.
  split.
  - intros []; simpl; auto; reflexivity.
  - intros [] []; simpl; auto; intros; symmetry; auto.
  - intros [] [] []; simpl; try tauto; intros; etransitivity; eauto.
Qed.

#[export] Instance jmax_proper : Proper (jeq ==> jeq ==> jeq) jmax.
Proof.
  intros [x| | |] [x'| | |] Hx [y| | |] [y'| | |] Hy; simpl in *; try tauto.
  rewrite Hx, Hy. reflexivity.
Qed.

#[export] Instance jmin_proper : Proper (jeq ==> jeq ==> jeq) jmin.
Proof.
  intros [x| | |] [x'| | |] Hx [y| | |] [y'| | |] Hy; simpl in *; try tauto.
  rewrite Hx, Hy. reflexivity.
Qed.

#[export] Instance jgt_proper : Proper (jeq ==> jeq ==> eq) jgt.
Proof.
  intros [x| | |] [x'| | |] Hx [y| | |] [y'| | |] Hy; simpl in *; try tauto.
  f_equal. apply Bool.eq_iff_eq_true. rewrite !Qle_bool_iff, Hx, Hy. reflexivity.
Qed.

#[export] Instance jmulc_proper : Proper (jeq ==> eq ==> jeq) jmulc.
Proof.
  intros [x| | |] [x'| | |] Hx c ? <-; simpl in *; try tauto; try (destruct (Qcompare c 0); done).
  by rewrite Hx.
Qed.

Section affine.
Context (k t : Q) (Hk : (0 < k)%Q).

Lemma jmax_aff a b : jeq (jmax (jaff k t a) (jaff k t b)) (jaff k t (jmax a b)).
Proof.
  destruct a as [x| | |], b as [y| | |]; simpl; try done; try reflexivity.
  destruct (Qlt_le_dec x y).
  - rewrite !Q.max_r; [reflexivity| |]; [apply Qlt_le_weak|]; nra.
  - rewrite !Q.max_l; [reflexivity| |]; nra.
Qed.

Lemma jmin_aff a b : jeq (jmin (jaff k t a) (jaff k t b)) (jaff k t (jmin a b)).
Proof.
  destruct a as [x| | |], b as [y| | |]; simpl; try done; try reflexivity.
  destruct (Qlt_le_dec x y).
  - rewrite !Q.min_l; [reflexivity| |]; [apply Qlt_le_weak|]; nra.
  - rewrite !Q.min_r; [reflexivity| |]; nra.
Qed.

Lemma jgt_aff a b : jgt (jaff k t a) (jaff k t b) = jgt a b.
Proof.
  destruct a as [x| | |], b as [y| | |]; simpl; try done.
  f_equal. apply Bool.eq_iff_eq_true. rewrite !Qle_bool_iff. split; intros; nra.
Qed.

(** [min + c * (max - min)] commutes with an increasing affine map. *)
Lemma jthreshold_aff c mx mn :
  jeq (jadd (jaff k t mn) (jmulc (jsub (jaff k t mx) (jaff k t mn)) c))
      (jaff k t (jadd mn (jmulc (jsub mx mn) c))).
Proof.
  destruct mx as [x| | |], mn as [y| | |]; simpl; try done;
    try (destruct (Qcompare c 0); simpl; done).
  ring.
Qed.

End affine.

(** A scaling without translation commutes with a constant factor. *)
Lemma jmulc_scale k a c : jeq (jmulc (jaff k 0 a) c) (jaff k 0 (jmulc a c)).
Proof.
  destruct a as [x| | |]; simpl; [ring|..]; destruct (Qcompare c 0); done.
Qed.
