(* ===== verification/Catalog.v ===== *)
(** * Catalog: the static tables of [gripper-viewer.js]

    The size enumeration, the part table, the checklist groups, the finger
    membership sets, the fruit configuration, the tactile step sequence,
    the mesh URL convention and the adjacent-size prefetch.  The theorem
    here is that prefetching only touches the two neighbouring sizes;
    lemmas state facts of the tables the other files use. *)

From S2P Require Import Prelude.
Open Scope string_scope.

(** ** Tables *)

Definition SIZES : list string :=
  ["1.0"; "1.1"; "1.2"; "1.3"; "1.4"; "1.5"; "1.6"; "1.7"; "1.8"; "1.9"; "2.0"].

(** A part: [{ file, label, color }]. *)
Record Part := mkPart { file : string; label : string; color : string }.

Definition PARTS : list Part := [
  mkPart "Prints_base" "Base" "#cbd5e1";
  mkPart "Prints_motor_mount" "Motor mount" "#b6c1d1";
  mkPart "Prints_motor_link" "Motor link" "#a7b3c4";
  mkPart "Prints_fingerRack" "Finger rack (left)" "#97a4b8";
  mkPart "Prints_fingerRack.001" "Finger rack (right)" "#8795aa";
  mkPart "Prints_gear" "Gear" "#76869c";
  mkPart "Prints_camera_housing" "Camera housing" "#6b7c92";
  mkPart "Prints_led_cap" "LED cap (left)" "#5f7188";
  mkPart "Prints_led_cap.001" "LED cap (right)" "#55677f";
  mkPart "Optical_shell_locked" "Optical shell (left)" "#8fa2b9";
  mkPart "Optical_shell_locked.001" "Optical shell (right)" "#8094ac";
  mkPart "Optical_led" "Optical LED (left)" "#22d3ee";
  mkPart "Optical_led.001" "Optical LED (right)" "#0ea5e9";
  mkPart "Optical_pad" "Optical pad (left)" "#aebfd1";
  mkPart "Optical_pad.001" "Optical pad (right)" "#9fb1c4"
].

(** [COMPONENT_GROUPS]: an object literal; its non-numeric keys iterate
    in insertion order, so [Object.entries] yields this list. *)
Definition COMPONENT_GROUPS : list (string * list string) := [
  ("Left finger", ["Prints_fingerRack"; "Prints_led_cap"; "Optical_shell_locked.001";
                   "Optical_led"; "Optical_pad"]);
  ("Right finger", ["Prints_fingerRack.001"; "Prints_led_cap.001"; "Optical_shell_locked";
                    "Optical_led.001"; "Optical_pad.001"]);
  ("Base", ["Prints_base"; "Prints_motor_mount"; "Prints_motor_link"; "Prints_gear";
            "Prints_camera_housing"])
].

Definition LEFT_FINGER_PARTS : gset string :=
  {[ "Optical_led"; "Prints_led_cap"; "Optical_pad"; "Prints_fingerRack";
     "Optical_shell_locked.001" ]}.

Definition RIGHT_FINGER_PARTS : gset string :=
  {[ "Optical_led.001"; "Prints_led_cap.001"; "Optical_shell_locked";
     "Optical_pad.001"; "Prints_fingerRack.001" ]}.

(** The two reference fruits and their configuration. *)
Inductive Fruit := Strawberry | Apple.

#[export] Instance Fruit_eq_dec : EqDecision Fruit.
Proof. solve_decision. Defined.

Record FruitConfig := mkFruitConfig {
  objPath : string; mtlPath : string; texturePath : string;
  scale : Q; targetSize : string; fruitLabel : string; yOffset : Q;
  fallbackColor : Z }.

Definition FRUIT_CONFIG (f : Fruit) : FruitConfig :=
  match f with
  | Strawberry => mkFruitConfig "mesh_strawberry/Strawberry_ST3E1WL.obj"
      "mesh_strawberry/Strawberry_ST3E1WL.mtl"
      "mesh_strawberry/Strawberry_ST3E1WL/Strawberry_MatSG_baseColor.png"
      (5 # 1000) "1.0" "Strawberry (reference)" (25 # 1000) 15087942
  | Apple => mkFruitConfig "mesh_apple/apple_ST8R5TY.obj"
      "mesh_apple/apple_ST8R5TY.mtl"
      "mesh_apple/apple_ST8R5TY/red_apple_Mat_baseColor.png"
      (1 # 100) "2.0" "Apple (reference)" (4 # 100) 12653087
  end.

Definition TACTILE_RENDER_BASE : string := "tactile_render/output".

(** [Array.from({ length: 10 }, (_, index) => (index + 1) * 4)]. *)
Definition TACTILE_STEPS : list Z :=
  map (fun index => (Z.of_nat index + 1) * 4)%Z (seq 0 10).

(** ** Mesh URLs and prefetching *)

(** [`GripGen/output/${size}/objs/${part.file}.obj`] *)
Definition meshUrl (size partFile : string) : string :=
  "GripGen/output/" ++ size ++ "/objs/" ++ partFile ++ ".obj".

Definition partUrl (size : string) (p : Part) : string := meshUrl size (file p).

(** [prefetchSizeAssets]: one cache-filling fetch per part; the list of
    URLs fetched, in issue order (results are ignored). *)
Definition prefetchSizeAssets (size : string) : list string :=
  map (partUrl size) PARTS.

(** JS truthiness of a possibly [undefined] string. *)
Definition truthy (o : option string) : bool :=
  match o with Some s => negb (String.eqb s "") | None => false end.

(** [prefetchAdjacentSizes]: the URLs fetched for the neighbours. *)
Definition prefetchAdjacentSizes (size : string) : list string :=
  let index := indexOf SIZES size in
  if (index =? -1)%Z then []
  else
    let prev := js_index SIZES (index - 1) in
    let next := js_index SIZES (index + 1) in
    ((if truthy prev then prefetchSizeAssets (default "" prev) else []) ++
     (if truthy next then prefetchSizeAssets (default "" next) else []))%list.

(** Members of a checklist group, [COMPONENT_GROUPS[name]]. *)
Definition group_parts (name : string) : list string :=
  match list_find (fun g => g.1 = name) COMPONENT_GROUPS with
  | Some (_, g) => g.2
  | None => []
  end.

(** [PARTS.find((entry) => entry.file === file)] *)
Definition find_part (f : string) : option Part :=
  match list_find (fun p => file p = f) PARTS with
  | Some (_, p) => Some p
  | None => None
  end.

(** ** Consistency of the tables *)

Lemma part_files_NoDup : NoDup (map file PARTS).
Proof. apply (bool_decide_unpack _). vm_compute. reflexivity. Qed.

Lemma SIZES_NoDup : NoDup SIZES.
Proof. apply (bool_decide_unpack _). vm_compute. reflexivity. Qed.

Lemma fruit_targets_distinct :
  targetSize (FRUIT_CONFIG Strawberry) <> targetSize (FRUIT_CONFIG Apple).
Proof. discriminate. Qed.

Lemma TACTILE_STEPS_length : length TACTILE_STEPS = 10%nat.
Proof. reflexivity. Qed.

(** ** Prefetching *)

(** C30: Prefetching after a load of the [i]-th size fetches the meshes of
    the size before it (when [i > 0]) and of the size after it (when one
    exists), in that order, and nothing else. *)
Theorem prefetchAdjacentSizes_neighbours i s :
  SIZES !! i = Some s ->
  prefetchAdjacentSizes s =
    (match i with O => [] | S j => default [] (prefetchSizeAssets <$> SIZES !! j) end ++
     default [] (prefetchSizeAssets <$> SIZES !! S i))%list.
Proof.
  intros Hs. pose proof (lookup_lt_Some _ _ _ Hs) as Hi. simpl in Hi.
  do 11 (destruct i as [|i]; [injection Hs as <-; reflexivity|]). lia.
Qed.

(** A size outside the enumeration prefetches nothing. *)
Lemma prefetchAdjacentSizes_unknown s : s ∉ SIZES -> prefetchAdjacentSizes s = [].
Proof. intros Hs. unfold prefetchAdjacentSizes. by rewrite indexOf_missing. Qed.

Lemma prefetchAdjacentSizes_neighbours_witness :
  prefetchAdjacentSizes "1.5" =
    (prefetchSizeAssets "1.4" ++ prefetchSizeAssets "1.6")%list.
Proof. exact (prefetchAdjacentSizes_neighbours 5 "1.5" eq_refl). Defined.
