(* ===== verification/Geometry.v ===== *)
(** * Geometry: the three.js vector and box primitives the viewer calls

    [Vector3] ([copy], [addScaledVector], [sub]) and [Box3] ([union] /
    [expandByObject], [getSize], [getCenter], and the finiteness test of
    an empty box).  These are library code (three.js 0.160), modelled
    from its documented behaviour; coordinates are exact rationals.
    Vectors are compared with the setoid [≡] (componentwise [Qeq]);
    the operations are [Proper] for it so that rewriting works under them. *)

From S2P Require Import Prelude.
From Stdlib Require Import Qminmax.

Record vec3 := V3 { vx : Q; vy : Q; vz : Q }.

#[export] Instance vec3_equiv : Equiv vec3 := fun a b =>
  (vx a == vx b /\ vy a == vy b /\ vz a == vz b)%Q.

#[export] Instance vec3_equivalence : Equivalence (≡@{vec3}).
Proof.
  split.
  - intros a. repeat split; reflexivity.
  - intros a b (?&?&?). repeat split; symmetry; auto.
  - intros a b c (?&?&?) (?&?&?). repeat split; etransitivity; eauto.
Qed.

Definition vzero : vec3 := V3 0 0 0.

Definition vadd (a b : vec3) : vec3 := V3 (vx a + vx b) (vy a + vy b) (vz a + vz b).
Definition vsub (a b : vec3) : vec3 := V3 (vx a - vx b) (vy a - vy b) (vz a - vz b).
Definition vscale (s : Q) (a : vec3) : vec3 := V3 (s * vx a) (s * vy a) (s * vz a).

(** [v.addScaledVector(a, s)]: [v + s * a]. *)
Definition addScaledVector (v a : vec3) (s : Q) : vec3 := vadd v (vscale s a).

(** [openAxis = new THREE.Vector3(1, 0, 0)]. *)
Definition openAxis : vec3 := V3 1 0 0.

#[export] Instance vadd_proper : Proper ((≡) ==> (≡) ==> (≡)) vadd.
Proof. intros a a' (?&?&?) b b' (?&?&?). unfold vadd. repeat split; simpl; lra. Qed.

#[export] Instance vsub_proper : Proper ((≡) ==> (≡) ==> (≡)) vsub.
Proof. intros a a' (?&?&?) b b' (?&?&?). unfold vsub. repeat split; simpl; lra. Qed.

#[export] Instance vscale_proper : Proper (Qeq ==> (≡) ==> (≡)) vscale.
Proof.
  intros s s' Hs a a' (Hx&Hy&Hz). unfold vscale.
  repeat split; simpl; [rewrite Hs, Hx|rewrite Hs, Hy|rewrite Hs, Hz]; reflexivity.
Qed.

#[export] Instance addScaledVector_proper :
  Proper ((≡) ==> (≡) ==> Qeq ==> (≡)) addScaledVector.
Proof. intros v v' Hv a a' Ha s s' Hs. unfold addScaledVector. by rewrite Hv, Ha, Hs. Qed.

(** An axis-aligned box; [BoxEmpty] is three.js's empty box, whose
    [min] is [+Infinity] (so [Number.isFinite(box.min.x)] fails). *)
Inductive box3 := BoxEmpty | Box (lo hi : vec3).

Definition vmin (a b : vec3) : vec3 := V3 (Qmin (vx a) (vx b)) (Qmin (vy a) (vy b)) (Qmin (vz a) (vz b)).
Definition vmax (a b : vec3) : vec3 := V3 (Qmax (vx a) (vx b)) (Qmax (vy a) (vy b)) (Qmax (vz a) (vz b)).

Definition box_union (b1 b2 : box3) : box3 :=
  match b1, b2 with
  | BoxEmpty, b | b, BoxEmpty => b
  | Box l1 h1, Box l2 h2 => Box (vmin l1 l2) (vmax h1 h2)
  end.

Definition box_translate (t : vec3) (b : box3) : box3 :=
  match b with BoxEmpty => BoxEmpty | Box l h => Box (vadd l t) (vadd h t) end.

(** [box.getSize(v)]: zero for the empty box, [max - min] otherwise. *)
Definition box_size (b : box3) : vec3 :=
  match b with BoxEmpty => vzero | Box l h => vsub h l end.

(** [box.getCenter(v)]: zero for the empty box, the midpoint otherwise. *)
Definition box_center (b : box3) : vec3 :=
  match b with BoxEmpty => vzero | Box l h => vscale (1 # 2) (vadd l h) end.

(** [Number.isFinite(box.min.x) && Number.isFinite(box.max.x)]. *)
Definition box_finite (b : box3) : bool :=
  match b with BoxEmpty => false | Box _ _ => true end.

Lemma box_size_translate t b : box_size (box_translate t b) ≡ box_size b.
Proof. destruct b as [|l h]; [reflexivity|]. repeat split; simpl; lra. Qed.

Lemma box_center_translate t b :
  box_finite b = true -> box_center (box_translate t b) ≡ vadd (box_center b) t.
Proof. destruct b as [|l h]; [discriminate|]. intros _. repeat split; simpl; lra. Qed.

Lemma box_union_empty_l b : box_union BoxEmpty b = b.
Proof. reflexivity. Qed.

Lemma box_union_empty_r b : box_union b BoxEmpty = b.
Proof. by destruct b. Qed.

#[export] Hint Rewrite box_union_empty_l box_union_empty_r : viewer_rw.
