(* ===== verification/Scene.v ===== *)
(** * Scene: the object store shared by the viewer's handlers

    [loadPart] creates one three.js object per part; the same object is
    then reachable from [group.children], from [componentObjects] and from
    [leftFinger] / [rightFinger], and handlers mutate it through any of
    them ([setPartVisibility] writes [visible], [applyOpenness] writes
    [position]).  The model keeps the objects in a store [gmap nat SceneObj]
    addressed by object ids, so that this aliasing is explicit: the
    collections hold ids.  This file also holds the material [loadPart]
    builds and the bounding box of a set of objects, as
    [Box3.setFromObject] / [expandByObject] compute it. *)

From S2P Require Import Prelude Catalog Geometry.
Open Scope string_scope.

(** The [MeshStandardMaterial] parameters [loadPart] passes. *)
Record Material := mkMaterial {
  mat_color : string; roughness : Q; metalness : Q; transparent : bool; opacity : Q }.

Definition partMaterial (part : Part) : Material :=
  let isOpticalShell :=
    String.eqb (file part) "Optical_shell_locked" ||
    String.eqb (file part) "Optical_shell_locked.001" in
  let isOpticalPad :=
    String.eqb (file part) "Optical_pad" || String.eqb (file part) "Optical_pad.001" in
  mkMaterial (color part)
    (if isOpticalShell then 2 # 10 else if isOpticalPad then 25 # 100 else 45 # 100)
    (if isOpticalPad then 7 # 10 else 5 # 100)
    isOpticalShell
    (if isOpticalShell then 45 # 100 else 1).

(** A loaded part object: [userData.label], [userData.partFile], the URL
    its geometry came from, its material, [visible], [position],
    [userData.basePosition] (absent until captured) and the bounding box
    of its geometry in its own coordinates. *)
Record SceneObj := mkObj {
  o_label : string;
  o_partFile : string;
  o_url : string;
  o_material : Material;
  o_visible : bool;
  o_position : vec3;
  o_basePosition : option vec3;
  o_geom : box3 }.

Abbreviation Store := (gmap nat SceneObj).

Definition set_visible (v : bool) (o : SceneObj) : SceneObj :=
  mkObj (o_label o) (o_partFile o) (o_url o) (o_material o) v (o_position o)
        (o_basePosition o) (o_geom o).

Definition set_position (p : vec3) (o : SceneObj) : SceneObj :=
  mkObj (o_label o) (o_partFile o) (o_url o) (o_material o) (o_visible o) p
        (o_basePosition o) (o_geom o).

Definition set_base (b : option vec3) (o : SceneObj) : SceneObj :=
  mkObj (o_label o) (o_partFile o) (o_url o) (o_material o) (o_visible o)
        (o_position o) b (o_geom o).

(** The world box of a child of [group] (no rotation, unit scale). *)
Definition world_box (groupPos : vec3) (o : SceneObj) : box3 :=
  box_translate (vadd groupPos (o_position o)) (o_geom o).

(** [box.expandByObject(child)] for each id in turn, from [init]. *)
Definition expand_by_objects (groupPos : vec3) (st : Store) (init : box3) (ids : list nat) : box3 :=
  fold_left (fun b id =>
    match st !! id with Some o => box_union b (world_box groupPos o) | None => b end) ids init.

(** [st'] has the same objects as [st], each still loaded from the same
    URL for the same part: only visibility, position or base changed. *)
Definition keeps_identity (st st' : Store) : Prop :=
  forall id, o_url <$> st' !! id = o_url <$> st !! id /\
             o_partFile <$> st' !! id = o_partFile <$> st !! id.

Definition identity_preserving (f : SceneObj -> SceneObj) : Prop :=
  forall o, o_url (f o) = o_url o /\ o_partFile (f o) = o_partFile o.

Lemma set_position_visible p o : o_visible (set_position p o) = o_visible o.
Proof. reflexivity. Qed.

Lemma set_visible_position v o : o_position (set_visible v o) = o_position o.
Proof. reflexivity. Qed.

Lemma alter_dom (f : SceneObj -> SceneObj) (id : nat) (st : Store) :
  dom (alter f id st) = dom st.
Proof. apply dom_alter_L. Qed.

#[export] Hint Rewrite set_position_visible set_visible_position alter_dom : viewer_rw.

(** ** Updates that keep each object's identity *)

#[export] Instance keeps_identity_preorder : PreOrder keeps_identity.
Proof.
  split.
  - intros st id. done.
  - intros a b c Hab Hbc id. destruct (Hab id), (Hbc id). split; congruence.
Qed.

Lemma alter_keeps f id st : identity_preserving f -> keeps_identity st (alter f id st).
Proof.
  intros Hf j. destruct (decide (id = j)) as [->|Hne].
  - rewrite lookup_alter_eq. destruct (st !! j); simpl; [|done].
    by destruct (Hf s) as [-> ->].
  - by rewrite lookup_alter_ne.
Qed.

Lemma fold_alter_keeps {A} (g : A -> SceneObj -> SceneObj) (ids : list A) (key : A -> nat) st :
  (forall a, identity_preserving (g a)) ->
  keeps_identity st (fold_left (fun s a => alter (g a) (key a) s) ids st).
Proof.
  intros Hg. revert st. induction ids as [|a ids IH]; intros st; simpl; [reflexivity|].
  etransitivity; [apply (alter_keeps (g a) (key a)), Hg | apply IH].
Qed.

Lemma keeps_is_Some st st' id : keeps_identity st st' ->
  is_Some (st' !! id) <-> is_Some (st !! id).
Proof.
  intros H. destruct (H id) as [Hu _].
  rewrite <- (fmap_is_Some o_url (st' !! id)), Hu, fmap_is_Some. reflexivity.
Qed.

Lemma identity_preserving_set_visible b : identity_preserving (set_visible b).
Proof. by intros o. Qed.
Lemma identity_preserving_set_position p : identity_preserving (set_position p).
Proof. by intros o. Qed.
Lemma identity_preserving_set_base b : identity_preserving (set_base b).
Proof. by intros o. Qed.

#[export] Hint Resolve identity_preserving_set_visible identity_preserving_set_position
  identity_preserving_set_base : viewer.
