(* ===== verification/Openness.v ===== *)
(** * Openness: [applyOpenness] and [updateTactileImage]

    [applyOpenness(openness)] resets every child of [group] that has a
    captured base position to it, then moves the left-finger objects by
    [+perFingerOffset] and the right-finger objects by [-perFingerOffset]
    along [openAxis], writes the "Open"/"Closed"/"Partial" label and
    swaps the tactile image.  Here it is a function of the globals it
    reads ([fingerOpenDistance], [group.children], [leftFinger],
    [rightFinger]) on the object store.

    The theorems give each object's position after the call on every
    branch, show that the result depends only on the last openness
    (history independence), and bound the tactile step index. *)

From S2P Require Import Prelude Catalog Geometry Scene.
Open Scope string_scope.

(** [fingerOpenDistance * 0.5 * openness] *)
Definition perFingerOffset (fingerOpenDistance openness : Q) : Q :=
  (fingerOpenDistance * (1 # 2) * openness)%Q.

(** [if (!base) return; child.position.copy(base)] *)
Definition reset_to_base (o : SceneObj) : SceneObj :=
  match o_basePosition o with Some b => set_position b o | None => o end.

(** [if (!base) return; child.position.copy(base).addScaledVector(openAxis, d)] *)
Definition shift_from_base (d : Q) (o : SceneObj) : SceneObj :=
  match o_basePosition o with
  | Some b => set_position (addScaledVector b openAxis d) o
  | None => o
  end.

(** The three [forEach] loops of [applyOpenness], in order. *)
Definition applyOpenness_store (fingerOpenDistance openness : Q)
    (children leftFinger rightFinger : list nat) (st : Store) : Store :=
  let d := perFingerOffset fingerOpenDistance openness in
  let st1 := fold_left (fun s id => alter reset_to_base id s) children st in
  let st2 := fold_left (fun s id => alter (shift_from_base d) id s) leftFinger st1 in
  fold_left (fun s id => alter (shift_from_base (- d)) id s) rightFinger st2.

(** [openness >= 0.95 ? "Open" : openness <= 0.05 ? "Closed" : "Partial"] *)
Definition opennessLabel (openness : Q) : string :=
  if Qle_bool (95 # 100) openness then "Open"
  else if Qle_bool openness (5 # 100) then "Closed"
  else "Partial".

(** [updateTactileImage]: the clamped step index, then [src] and [alt]. *)
Definition tactileStepIndex (openness : Q) : Z :=
  let n := Z.of_nat (length TACTILE_STEPS) in
  let stepIndex := js_round (openness * inject_Z (n - 1)) in
  clamp 0 (n - 1) stepIndex.

Definition tactileSrc (openness : Q) : string :=
  let step := default 0%Z (js_index TACTILE_STEPS (tactileStepIndex openness)) in
  TACTILE_RENDER_BASE ++ "/render_" ++ string_of_Z step ++ ".png".

Definition tactileAlt (openness : Q) : string :=
  "Gripper internal view at " ++ string_of_Z (js_round (openness * 100)) ++ "% open".

(** The DOM state [applyOpenness] writes. *)
Record OpennessView := mkOpennessView {
  opennessValue : string; tactileImageSrc : string; tactileImageAlt : string }.

Definition opennessView (openness : Q) : OpennessView :=
  mkOpennessView (opennessLabel openness) (tactileSrc openness) (tactileAlt openness).

(** [Number(opennessSlider.value) / 100] *)
Definition sliderOpenness (v : Z) : Q := (inject_Z v / 100)%Q.

(** ** Object-level lemmas *)

Lemma reset_to_base_idem o : reset_to_base (reset_to_base o) = reset_to_base o.
Proof. by destruct o as [??????[b|]?]. Qed.

Lemma shift_from_base_idem d o : shift_from_base d (shift_from_base d o) = shift_from_base d o.
Proof. by destruct o as [??????[b|]?]. Qed.

(** Shifting reads only the base, so it forgets earlier writes. *)
Lemma shift_after_reset d o : shift_from_base d (reset_to_base o) = shift_from_base d o.
Proof. by destruct o as [??????[b|]?]. Qed.

Lemma shift_after_shift d d' o : shift_from_base d (shift_from_base d' o) = shift_from_base d o.
Proof. by destruct o as [??????[b|]?]. Qed.

Lemma reset_after_shift d o : reset_to_base (shift_from_base d o) = reset_to_base o.
Proof. by destruct o as [??????[b|]?]. Qed.

#[export] Hint Resolve reset_to_base_idem shift_from_base_idem : viewer.
#[export] Hint Rewrite shift_after_reset shift_after_shift reset_after_shift
  reset_to_base_idem : viewer_rw.

(** ** Positions after [applyOpenness] *)

(** Each object is touched by the last loop that lists it. *)
Lemma applyOpenness_lookup fod op ch L R st j :
  applyOpenness_store fod op ch L R st !! j =
    (if bool_decide (j ∈ R) then shift_from_base (- perFingerOffset fod op)
     else if bool_decide (j ∈ L) then shift_from_base (perFingerOffset fod op)
     else if bool_decide (j ∈ ch) then reset_to_base else id) <$> st !! j.
Proof.
  unfold applyOpenness_store.
  rewrite !fold_alter_lookup by eauto with viewer.
  destruct (st !! j) as [o|]; simpl; repeat case_bool_decide; simpl;
    autorewrite with viewer_rw; done.
Qed.

Lemma shift_position d o b :
  o_basePosition o = Some b -> o_position (shift_from_base d o) = addScaledVector b openAxis d.
Proof. intros Hb. unfold shift_from_base. by rewrite Hb. Qed.

(** C4: After [applyOpenness], an object with a captured base position
    [b] sits at [b - offset] along the opening axis if it is a right-finger
    object, at [b + offset] if it is a left-finger object, at [b] if it is
    another child of the group, and does not move otherwise; the offset is
    [fingerOpenDistance * 0.5 * openness]. *)
Theorem applyOpenness_position fod op ch L R st j o b :
  st !! j = Some o -> o_basePosition o = Some b ->
  o_position <$> applyOpenness_store fod op ch L R st !! j =
    Some (if bool_decide (j ∈ R) then addScaledVector b openAxis (- perFingerOffset fod op)
          else if bool_decide (j ∈ L) then addScaledVector b openAxis (perFingerOffset fod op)
          else if bool_decide (j ∈ ch) then b else o_position o).
Proof.
  intros Ho Hb. rewrite applyOpenness_lookup, Ho.
  destruct o; simpl in Hb; subst. repeat case_bool_decide; reflexivity.
Qed.

(** Objects without a base position are never moved. *)
Lemma applyOpenness_no_base fod op ch L R st j o :
  st !! j = Some o -> o_basePosition o = None ->
  applyOpenness_store fod op ch L R st !! j = Some o.
Proof.
  intros Ho Hb. rewrite applyOpenness_lookup, Ho.
  destruct o; simpl in Hb; subst. by repeat case_bool_decide.
Qed.

(** C15: The positions [applyOpenness] leaves depend only on its own
    arguments, not on any earlier call: applying openness [op] after
    any earlier openness [op'] (and any earlier finger distance) gives
    the same scene as applying [op] alone. *)
Theorem applyOpenness_history_independent fod fod' op op' ch L R st :
  applyOpenness_store fod op ch L R (applyOpenness_store fod' op' ch L R st) =
  applyOpenness_store fod op ch L R st.
Proof.
  apply map_eq. intros j. rewrite !applyOpenness_lookup.
  destruct (st !! j) as [o|]; simpl; [|done].
  repeat case_bool_decide; simpl; autorewrite with viewer_rw; done.
Qed.

(** C16: With the slider closed ([openness = 0]) a left-finger object
    sits at its base; fully open ([openness = 1]) it sits half the
    finger distance along the opening axis; at [0.5] it sits exactly at
    the midpoint of the two.  The right finger moves symmetrically, so
    the two fingers separate by [fingerOpenDistance * openness]. *)
Theorem applyOpenness_extremes fod ch L R st j k oj ok bj bk :
  st !! j = Some oj -> o_basePosition oj = Some bj -> j ∈ L -> j ∉ R ->
  st !! k = Some ok -> o_basePosition ok = Some bk -> k ∈ R ->
  let pos op i := default vzero (o_position <$> applyOpenness_store fod op ch L R st !! i) in
  pos 0%Q j ≡ bj /\
  pos 1%Q j ≡ V3 (vx bj + fod / 2) (vy bj) (vz bj) /\
  pos (1 # 2)%Q j ≡ vscale (1 # 2) (vadd (pos 0%Q j) (pos 1%Q j)) /\
  (forall op, (vx (pos op j) - vx bj) - (vx (pos op k) - vx bk) == fod * op)%Q.
Proof.
  intros Hj Hbj HjL HjR Hk Hbk HkR pos.
  assert (Hpj : forall op, pos op j = addScaledVector bj openAxis (perFingerOffset fod op)).
  { intros op. unfold pos. rewrite applyOpenness_lookup, Hj, bool_decide_false, bool_decide_true by done.
    simpl. by rewrite (shift_position _ _ bj). }
  assert (Hpk : forall op, pos op k = addScaledVector bk openAxis (- perFingerOffset fod op)).
  { intros op. unfold pos. rewrite applyOpenness_lookup, Hk, bool_decide_true by done.
    simpl. by rewrite (shift_position _ _ bk). }
  rewrite !Hpj. unfold perFingerOffset.
  split; [|split; [|split]].
  1-3: repeat split; simpl; field.
  intros op. rewrite Hpj, Hpk. unfold perFingerOffset. simpl. ring.
Qed.

(** ** The tactile image *)

Lemma tactileStepIndex_bounds op : (0 <= tactileStepIndex op <= 9)%Z.
Proof. unfold tactileStepIndex. simpl. apply clamp_bounds. lia. Qed.

Lemma TACTILE_STEPS_lookup (i : Z) : (0 <= i <= 9)%Z ->
  js_index TACTILE_STEPS i = Some (4 * (i + 1))%Z.
Proof.
  intros Hi. apply js_index_Some. split; [lia|].
  unfold TACTILE_STEPS. rewrite list_lookup_fmap, lookup_seq_lt by lia. simpl.
  f_equal. lia.
Qed.

(** C6: Whatever the openness (out of range included), the tactile step
    index is clamped into [0..9], so the image shown is always
    [render_N.png] with [N = 4 * (index + 1)], one of the ten rendered
    steps [4, 8, ..., 40]. *)
Theorem tactileSrc_in_range op :
  let i := tactileStepIndex op in
  (0 <= i <= 9)%Z /\
  tactileSrc op = TACTILE_RENDER_BASE ++ "/render_" ++ string_of_Z (4 * (i + 1)) ++ ".png" /\
  (4 * (i + 1))%Z ∈ TACTILE_STEPS.
Proof.
  intros i. pose proof (tactileStepIndex_bounds op) as Hb. fold i in Hb.
  split; [done|]. unfold tactileSrc. fold i. rewrite TACTILE_STEPS_lookup by done.
  split; [done|]. apply list_elem_of_lookup. exists (Z.to_nat i).
  apply (js_index_Some TACTILE_STEPS i). by apply TACTILE_STEPS_lookup.
Qed.

(** [Math.round(openness * 9)] for a slider position, in closed form. *)
Lemma tactileStepIndex_slider_div v :
  (0 <= v <= 100)%Z ->
  tactileStepIndex (sliderOpenness v) = ((9 * v + 50) / 100)%Z.
Proof.
  intros Hv. unfold tactileStepIndex. simpl.
  assert (sliderOpenness v * inject_Z 9 == inject_Z (9 * v) / inject_Z 100)%Q as ->.
  { unfold sliderOpenness. rewrite inject_Z_mult. field. }
  rewrite js_round_frac by lia.
  replace (2 * (9 * v) + 100)%Z with ((9 * v + 50) * 2)%Z by lia.
  replace (2 * 100)%Z with (100 * 2)%Z by lia.
  rewrite Z.div_mul_cancel_r by lia.
  apply clamp_id. split; [apply Z.div_pos; lia|].
  assert ((9 * v + 50) / 100 < 10)%Z by (apply Z.div_lt_upper_bound; lia). lia.
Qed.

Lemma tactileStepIndex_slider_mono v w :
  (0 <= v <= w)%Z -> (w <= 100)%Z ->
  (tactileStepIndex (sliderOpenness v) <= tactileStepIndex (sliderOpenness w))%Z.
Proof.
  intros Hv Hw. rewrite !tactileStepIndex_slider_div by lia.
  apply Z.div_le_mono; lia.
Qed.

(** C27: For every slider position [v] in [0..100] the step index is
    [round(9 * v / 100)] computed exactly as [(9v + 50) div 100] (so [0]
    when closed and [9] when fully open), and moving the slider up never
    lowers the step shown. *)
Theorem tactileStepIndex_slider v :
  (0 <= v <= 100)%Z ->
  (tactileStepIndex (sliderOpenness v) = (9 * v + 50) / 100)%Z /\
  (forall w, (v <= w <= 100)%Z ->
     (tactileStepIndex (sliderOpenness v) <= tactileStepIndex (sliderOpenness w))%Z).
Proof.
  intros Hv. split; [by apply tactileStepIndex_slider_div|].
  intros w Hw. apply tactileStepIndex_slider_mono; lia.
Qed.

Lemma sliderOpenness_ge v : Qle_bool (95 # 100) (sliderOpenness v) = (95 <=? v)%Z.
Proof.
  apply Bool.eq_iff_eq_true. rewrite Qle_bool_iff, Z.leb_le.
  unfold sliderOpenness, Qle, Qdiv, Qmult, Qinv, inject_Z; simpl. lia.
Qed.

Lemma sliderOpenness_le v : Qle_bool (sliderOpenness v) (5 # 100) = (v <=? 5)%Z.
Proof.
  apply Bool.eq_iff_eq_true. rewrite Qle_bool_iff, Z.leb_le.
  unfold sliderOpenness, Qle, Qdiv, Qmult, Qinv, inject_Z; simpl. lia.
Qed.

(** C28: The openness readout for slider position [v] is "Open" exactly
    when [v >= 95], "Closed" exactly when [v <= 5], and "Partial" in
    between. *)
Theorem opennessLabel_slider v :
  opennessLabel (sliderOpenness v) =
    if (95 <=? v)%Z then "Open" else if (v <=? 5)%Z then "Closed" else "Partial".
Proof.
  unfold opennessLabel. rewrite sliderOpenness_ge, sliderOpenness_le. done.
Qed.

Lemma applyOpenness_position_witness :
  let o := mkObj "Finger rack (left)" "Prints_fingerRack" "" (partMaterial (mkPart "" "" ""))
             true vzero (Some vzero) BoxEmpty in
  o_position <$> applyOpenness_store 2 1 [0%nat] [0%nat] [] {[0%nat := o]} !! 0%nat =
  Some (addScaledVector vzero openAxis (perFingerOffset 2 1)).
Proof.
  intros o. rewrite (applyOpenness_position 2 1 [0%nat] [0%nat] [] {[0%nat := o]} 0%nat o vzero);
    reflexivity.
Defined.

Lemma applyOpenness_extremes_witness :
  let o := mkObj "Finger rack (left)" "Prints_fingerRack" "" (partMaterial (mkPart "" "" ""))
             true vzero (Some vzero) BoxEmpty in
  let st := <[0%nat := o]> {[1%nat := o]} in
  default vzero (o_position <$> applyOpenness_store 2 1 [0%nat; 1%nat] [0%nat] [1%nat] st !! 0%nat)
    ≡ V3 1 0 0.
Proof.
  intros o st.
  destruct (applyOpenness_extremes 2 [0%nat; 1%nat] [0%nat] [1%nat] st 0%nat 1%nat o o vzero vzero)
    as (_ & H & _); try reflexivity; try (apply (bool_decide_unpack _); vm_compute; exact I).
  etransitivity; [exact H|]. vm_compute. repeat split.
Defined.

Lemma tactileStepIndex_slider_witness : tactileStepIndex (sliderOpenness 50) = 5%Z.
Proof. rewrite (proj1 (tactileStepIndex_slider 50 ltac:(lia))). reflexivity. Defined.
