(* ===== verification/PadDims.v ===== *)
(** * PadDims: parsing [pad_dimensions.txt] and the readouts it drives

    [parsePadDimensions] runs the regular expression
    [/X:\s*([0-9.]+)\s*[\r\n]+Y:\s*([0-9.]+)\s*[\r\n]+Z:\s*([0-9.]+)/i]
    with [String.prototype.match].  The model is a backtracking matcher
    for the fragment of JS regular expressions this pattern uses:
    literals compared case-insensitively ([/i]), and greedy [*] / [+]
    over a character class, optionally captured.  Greedy repetition
    tries the longest run first and gives characters back one at a time,
    as the ECMAScript semantics prescribes; the search tries every start
    position from the left.  Text is ASCII ([\s] is the six ASCII
    white-space characters).

    [updatePadDimensions] turns the captures into two readouts: the area
    [(y * z).toFixed(1) + " mm²"], where [y] and [z] are coerced to
    numbers by JS [Number], and the raw captures.  Numbers are exact
    rationals here; [toFixed] is modelled below [10^21], its exponent
    notation branch is not. *)

From S2P Require Import Prelude.
From Stdlib Require Import Ascii Qabs.
From Stdlib Require String.
Open Scope string_scope.

(** ** Character classes *)

Definition ascii_in (c : ascii) (codes : list nat) : bool :=
  bool_decide (nat_of_ascii c ∈ codes).

(** [\s] on ASCII: tab, line feed, vertical tab, form feed, carriage
    return, space. *)
Definition is_space (c : ascii) : bool := ascii_in c [9; 10; 11; 12; 13; 32]%nat.

(** [[\r\n]] *)
Definition is_crlf (c : ascii) : bool := ascii_in c [10; 13]%nat.

(** [[0-9.]] *)
Definition is_num (c : ascii) : bool :=
  ((48 <=? nat_of_ascii c) && (nat_of_ascii c <=? 57))%nat || Ascii.eqb c ".".

(** Case folding of the [/i] flag on ASCII: lower-case letters map to
    upper case. *)
Definition canon (c : ascii) : ascii :=
  let n := nat_of_ascii c in
  if ((97 <=? n) && (n <=? 122))%nat then ascii_of_nat (n - 32) else c.

(** ** The matcher *)

(** A node: a literal, or a greedy repetition of a class with at least
    [min] occurrences, captured or not. *)
Inductive rnode :=
  | RLit (c : ascii)
  | RRep (min : nat) (cls : ascii -> bool) (cap : bool).

Fixpoint run_length (cls : ascii -> bool) (s : list ascii) : nat :=
  match s with
  | c :: s' => if cls c then S (run_length cls s') else O
  | [] => O
  end.

(** The backtracking loop of a greedy repetition: try [k] occurrences,
    then [k - 1], ..., down to [min]; the first continuation that
    matches wins. *)
Fixpoint rep_loop {X} (min : nat) (attempt : nat -> option X) (k : nat) : option X :=
  if (k <? min)%nat then None
  else match attempt k with
       | Some r => Some r
       | None => match k with O => None | S k' => rep_loop min attempt k' end
       end.

(** [match_nodes ns s]: the captures of the first match of [ns] at the
    start of [s], in ECMAScript backtracking order. *)
Fixpoint match_nodes (ns : list rnode) (s : list ascii) : option (list (list ascii)) :=
  match ns with
  | [] => Some []
  | RLit c :: ns' =>
      match s with
      | x :: s' => if Ascii.eqb (canon c) (canon x) then match_nodes ns' s' else None
      | [] => None
      end
  | RRep min cls cap :: ns' =>
      rep_loop min (fun k =>
        match match_nodes ns' (drop k s) with
        | Some caps => Some (if cap then take k s :: caps else caps)
        | None => None
        end) (run_length cls s)
  end.

(** [RegExp.prototype.exec] without the [g] flag: try each start index
    from [0] to the length of the string. *)
Fixpoint search (ns : list rnode) (s : list ascii) : option (list (list ascii)) :=
  match match_nodes ns s with
  | Some caps => Some caps
  | None => match s with [] => None | _ :: s' => search ns s' end
  end.

Definition PAD_REGEX : list rnode :=
  [RLit "X"; RLit ":"; RRep 0 is_space false; RRep 1 is_num true;
   RRep 0 is_space false; RRep 1 is_crlf false;
   RLit "Y"; RLit ":"; RRep 0 is_space false; RRep 1 is_num true;
   RRep 0 is_space false; RRep 1 is_crlf false;
   RLit "Z"; RLit ":"; RRep 0 is_space false; RRep 1 is_num true].

(** [parsePadDimensions]: [{ x: match[1], y: match[2], z: match[3] }] or
    [null]. *)
Definition parsePadDimensions (text : string) : option (string * string * string) :=
  match search PAD_REGEX (String.list_ascii_of_string text) with
  | Some [x; y; z] =>
      Some (String.string_of_list_ascii x, String.string_of_list_ascii y, String.string_of_list_ascii z)
  | _ => None
  end.

(** ** JS numbers *)

(** The pieces of a string between the dots. *)
Fixpoint split_dots (l : list ascii) : list (list ascii) :=
  match l with
  | [] => [[]]
  | c :: l' =>
      if Ascii.eqb c "." then [] :: split_dots l'
      else match split_dots l' with
           | w :: ws => (c :: w) :: ws
           | [] => [[c]]
           end
  end.

(** [Number(s)] for a string over [[0-9.]]: digits, at most one dot,
    at least one digit; anything else is [NaN] ([None]). *)
Definition js_number (s : string) : option Q :=
  let digits u := NilEmpty.uint_of_string u in
  match map String.string_of_list_ascii (split_dots (String.list_ascii_of_string s)) with
  | [ip] =>
      match digits ip with
      | Some i => if String.eqb ip "" then None else Some (inject_Z (Z.of_uint i))
      | None => None
      end
  | [ip; fp] =>
      match digits ip, digits fp with
      | Some i, Some f =>
          if String.eqb ip "" && String.eqb fp "" then None
          else Some (inject_Z (Z.of_uint i) +
                     inject_Z (Z.of_uint f) / inject_Z (10 ^ Z.of_nat (String.length fp)))%Q
      | _, _ => None
      end
  | _ => None
  end.

(** [x.toFixed(1)] for [|x| < 10^21]: [n] is the integer with [n / 10]
    nearest to [x], the larger one on a tie; [None] above the modelled
    range. *)
Definition toFixed1 (x : Q) : option string :=
  let sign := if Qlt_le_dec x 0 then "-" else "" in
  let ax := Qabs x in
  if Qlt_le_dec ax (inject_Z (10 ^ 21)) then
    let n := Qfloor (ax * 10 + (1 # 2)) in
    Some (sign ++ string_of_Z (n / 10) ++ "." ++ string_of_Z (n mod 10))
  else None.

(** [(y * z).toFixed(1)] with JS string-to-number coercion: [NaN]
    prints as "NaN". *)
Definition areaText (y z : string) : option string :=
  match js_number y, js_number z with
  | Some qy, Some qz => toFixed1 (qy * qz)%Q
  | _, _ => Some "NaN"
  end.

(** ** Readouts *)

Definition PAD_SIZE_UNAVAILABLE : string := "Pad size unavailable".
Definition PAD_DIMS_UNAVAILABLE : string := "Y: -- mm, Z: -- mm".

(** The texts [updatePadDimensions] writes to [sizeReadout] and
    [padDimsReadout] once the token check has passed.  [resp] is the
    body of the fetch, [None] when the fetch rejects, the response is
    not ok, or reading the body fails: all three reach the [catch]
    branch. *)
Definition padReadouts (resp : option string) : option (string * string) :=
  match resp with
  | None => Some (PAD_SIZE_UNAVAILABLE, PAD_DIMS_UNAVAILABLE)
  | Some text =>
      match parsePadDimensions text with
      | Some (_, y, z) =>
          match areaText y z with
          | Some a => Some (a ++ " mm²", "Y: " ++ y ++ " mm, Z: " ++ z ++ " mm")
          | None => None
          end
      | None => Some (PAD_SIZE_UNAVAILABLE, PAD_DIMS_UNAVAILABLE)
      end
  end.

(** ** Lemmas on the matcher *)


Definition NL : string := String.String (ascii_of_nat 10) String.EmptyString.

(** The ten decimal digits. *)
Definition DIGITS : list ascii := ["0"; "1"; "2"; "3"; "4"; "5"; "6"; "7"; "8"; "9"]%char.

(** A text the pattern's [[0-9.]+] captures as a whole. *)
Definition num_field (s : string) : Prop :=
  String.list_ascii_of_string s <> [] /\ Forall (fun c => is_num c = true) (String.list_ascii_of_string s).

Lemma rep_loop_unfold {X} min (attempt : nat -> option X) k :
  rep_loop min attempt k =
    if (k <? min)%nat then None
    else match attempt k with
         | Some r => Some r
         | None => match k with O => None | S k' => rep_loop min attempt k' end
         end.
Proof. by destruct k. Qed.

Lemma run_length_app cls u v :
  Forall (fun c => cls c = true) u -> run_length cls (u ++ v)%list = (length u + run_length cls v)%nat.
Proof. induction 1 as [|c u Hc _ IH]; simpl; [done|]. by rewrite Hc, IH. Qed.

(** A greedy repetition whose maximal run is [u] and whose continuation
    matches what follows [u] takes all of [u]. *)
Lemma match_rep_greedy min cls cap ns u v caps :
  Forall (fun c => cls c = true) u -> run_length cls v = O -> (min <= length u)%nat ->
  match_nodes ns v = Some caps ->
  match_nodes (RRep min cls cap :: ns) (u ++ v)%list = Some (if cap then u :: caps else caps).
Proof.
  intros Hu Hv Hmin Hns. simpl. rewrite run_length_app, Hv, Nat.add_0_r by done.
  rewrite rep_loop_unfold. destruct (Nat.ltb_spec (length u) min); [lia|].
  rewrite drop_app_length, take_app_length, Hns. done.
Qed.

Lemma digit_classes c : c ∈ DIGITS ->
  is_num c = true /\ is_space c = false /\ is_crlf c = false /\ Ascii.eqb c "." = false.
Proof.
  intros Hc. repeat (apply elem_of_cons in Hc as [->|Hc]; [vm_compute; auto|]).
  by apply elem_of_nil in Hc.
Qed.

Lemma split_dots_no_dot l :
  Forall (fun c => Ascii.eqb c "." = false) l -> split_dots l = [l].
Proof. induction 1 as [|c l Hc _ IH]; simpl; [done|]. by rewrite Hc, IH. Qed.

Lemma string_of_uint_digits d :
  Forall (fun c => c ∈ DIGITS) (String.list_ascii_of_string (NilEmpty.string_of_uint d)).
Proof.
  induction d; simpl; constructor; auto; unfold DIGITS; set_solver.
Qed.

Lemma list_ascii_of_string_app s1 s2 :
  String.list_ascii_of_string (s1 ++ s2)%string =
  (String.list_ascii_of_string s1 ++ String.list_ascii_of_string s2)%list.
Proof. induction s1; simpl; [done|]. by rewrite IHs1. Qed.

(** The decimal text of a non-negative integer: a non-empty run of
    digits, which JS [Number] reads back as the integer. *)
Lemma string_of_Z_nonneg z : (0 <= z)%Z ->
  exists u, string_of_Z z = NilEmpty.string_of_uint u /\ Z.of_uint u = z /\ u <> Decimal.Nil.
Proof.
  intros Hz. unfold string_of_Z.
  destruct z as [|p|p]; [| |lia].
  - exists (Decimal.D0 Decimal.Nil). split_and!; done.
  - exists (Pos.to_uint p). split; [done|].
    assert (Z.of_uint (Pos.to_uint p) = Z.pos p) as E.
    { pose proof (DecimalZ.of_to (Z.pos p)) as H. exact H. }
    split; [exact E|]. intros Hn. rewrite Hn in E. discriminate.
Qed.

Lemma js_number_string_of_Z z : (0 <= z)%Z -> js_number (string_of_Z z) = Some (inject_Z z).
Proof.
  intros Hz. destruct (string_of_Z_nonneg z Hz) as (u & -> & Hu & Hnil).
  unfold js_number.
  rewrite split_dots_no_dot.
  2:{ eapply Forall_impl; [apply string_of_uint_digits|]. intros c Hc. apply digit_classes, Hc. }
  simpl. rewrite String.string_of_list_ascii_of_string, NilEmpty.usu.
  destruct (String.eqb_spec (NilEmpty.string_of_uint u) "") as [He|]; [|by rewrite Hu].
  destruct u; simpl in He; try discriminate. contradiction.
Qed.

Lemma num_not_space c : is_num c = true -> is_space c = false.
Proof. destruct c as [[] [] [] [] [] [] [] []]; by vm_compute. Qed.

(** The pattern's [\s*([0-9.]+)] on a space followed by a number. *)
Lemma match_space_number ns d rest caps :
  d <> [] -> Forall (fun c => is_num c = true) d -> run_length is_num rest = O ->
  match_nodes ns rest = Some caps ->
  match_nodes (RRep 0 is_space false :: RRep 1 is_num true :: ns) (" "%char :: d ++ rest)%list =
    Some (d :: caps).
Proof.
  intros Hd Hnum Hrest Hns.
  change (" "%char :: d ++ rest)%list with ([" "%char] ++ (d ++ rest))%list.
  apply (match_rep_greedy 0 is_space false _ [" "%char] (d ++ rest)%list (d :: caps));
    [by repeat constructor | | simpl; lia |].
  - destruct d as [|c d]; [done|]. inversion Hnum as [|? ? Hc _]; subst.
    simpl. by rewrite num_not_space.
  - apply (match_rep_greedy 1 is_num true ns d rest caps); auto.
    destruct d; simpl; [done | lia].
Qed.

(** The pattern's [\s*[\r\n]+Y:] (or [Z:]) on a line feed followed by
    the letter and a colon: the white-space repetition first takes the
    line feed, fails, and gives it back to [[\r\n]+]. *)
Lemma match_newline_tag ns (L : ascii) rest :
  L ∈ ["Y"; "Z"]%char ->
  match_nodes (RRep 0 is_space false :: RRep 1 is_crlf false :: RLit L :: RLit ":" :: ns)
              (ascii_of_nat 10 :: L :: ":" :: rest)%char = match_nodes ns rest.
Proof.
  intros HL. apply elem_of_cons in HL as [->|HL]; [|apply list_elem_of_singleton in HL as ->];
    simpl; by destruct (match_nodes ns rest).
Qed.

Lemma digits_of_Z z : (0 <= z)%Z ->
  String.list_ascii_of_string (string_of_Z z) <> [] /\
  Forall (fun c => c ∈ DIGITS) (String.list_ascii_of_string (string_of_Z z)).
Proof.
  intros Hz. destruct (string_of_Z_nonneg z Hz) as (u & -> & _ & Hnil).
  split; [|apply string_of_uint_digits]. by destruct u.
Qed.

(** The file format the viewer expects parses to its three fields. *)
Lemma parsePadDimensions_fields x y z :
  num_field x -> num_field y -> num_field z ->
  parsePadDimensions ("X: " ++ x ++ NL ++ "Y: " ++ y ++ NL ++ "Z: " ++ z) = Some (x, y, z).
Proof.
  intros [Hx1 Hx2] [Hy1 Hy2] [Hz1 Hz2].
  set (dx := String.list_ascii_of_string x) in *.
  set (dy := String.list_ascii_of_string y) in *.
  set (dz := String.list_ascii_of_string z) in *.
  assert (Hm3 : match_nodes [RRep 0 is_space false; RRep 1 is_num true] (" "%char :: dz) = Some [dz]).
  { rewrite <- (app_nil_r dz) at 1. by apply match_space_number. }
  assert (Hm2 : match_nodes (drop 8 PAD_REGEX)
                  (" " :: dy ++ ascii_of_nat 10 :: "Z" :: ":" :: " " :: dz)%char%list
                = Some [dy; dz]).
  { simpl drop. apply match_space_number; auto. rewrite match_newline_tag by set_solver. exact Hm3. }
  assert (Hm1 : match_nodes PAD_REGEX
     ("X" :: ":" :: " " :: dx ++ ascii_of_nat 10 :: "Y" :: ":" :: " " :: dy ++
      ascii_of_nat 10 :: "Z" :: ":" :: " " :: dz)%char%list = Some [dx; dy; dz]).
  { transitivity (match_nodes (drop 2 PAD_REGEX)
      (" " :: dx ++ ascii_of_nat 10 :: "Y" :: ":" :: " " :: dy ++
       ascii_of_nat 10 :: "Z" :: ":" :: " " :: dz)%char%list); [reflexivity|].
    simpl drop. apply match_space_number; auto. rewrite match_newline_tag by set_solver. exact Hm2. }
  unfold parsePadDimensions.
  rewrite !list_ascii_of_string_app. fold dx dy dz. simpl.
  unfold search. simpl in Hm1. rewrite Hm1.
  unfold dx, dy, dz. by rewrite !String.string_of_list_ascii_of_string.
Qed.

Lemma digits_num_field z : (0 <= z)%Z -> num_field (string_of_Z z).
Proof.
  intros Hz. destruct (digits_of_Z z Hz) as [H1 H2]. split; [done|].
  eapply Forall_impl; [exact H2|]. intros c Hc. apply digit_classes, Hc.
Qed.

(** [toFixed(1)] of a non-negative integer below [10^21] appends ".0". *)
Lemma toFixed1_int n : (0 <= n < 10 ^ 21)%Z ->
  toFixed1 (inject_Z n) = Some (string_of_Z n ++ ".0").
Proof.
  intros Hn. unfold toFixed1.
  destruct (Qlt_le_dec (inject_Z n) 0) as [Hlt|_].
  { exfalso. revert Hlt. unfold Qlt; simpl. lia. }
  change (Qabs (inject_Z n)) with (inject_Z (Z.abs n)). rewrite Z.abs_eq by lia.
  destruct (Qlt_le_dec (inject_Z n) (inject_Z (10 ^ 21))) as [_|Hge].
  2:{ exfalso. revert Hge. unfold Qle; simpl. lia. }
  assert (Qfloor (inject_Z n * 10 + (1 # 2)) = 10 * n)%Z as ->.
  { unfold Qfloor, Qmult, Qplus, inject_Z; simpl. symmetry. apply (Z.div_unique _ _ _ 1); lia. }
  rewrite Z.mul_comm, Z.div_mul, Z.mod_mul by lia. reflexivity.
Qed.

(** ** The repetition loop and the search *)

Section matcher_lemmas.
Local Open Scope nat_scope.

Lemma rep_loop_sound {X} min (attempt : nat -> option X) k r :
  rep_loop min attempt k = Some r ->
  exists j, (min <= j <= k)%nat /\ attempt j = Some r /\
            forall j', (j < j' <= k)%nat -> attempt j' = None.
Proof.
  induction k as [|k IH]; rewrite rep_loop_unfold;
    [destruct (Nat.ltb_spec 0 min)|destruct (Nat.ltb_spec (S k) min)]; try discriminate.
  - destruct (attempt 0) eqn:E; [|discriminate]. intros [= <-]. exists 0. split; [lia|]. split; [done|]. intros; lia.
  - destruct (attempt (S k)) eqn:E.
    + intros [= <-]. exists (S k). split; [lia|]. split; [done|]. intros; lia.
    + intros Hr. destruct (IH Hr) as (j & Hj & Ha & Hmax). exists j. split; [lia|]. split; [done|].
      intros j' Hj'. destruct (decide (j' = S k)) as [->|]; [done|]. apply Hmax. lia.
Qed.

Lemma rep_loop_complete {X} min (attempt : nat -> option X) k j :
  (min <= j <= k)%nat -> is_Some (attempt j) -> is_Some (rep_loop min attempt k).
Proof.
  induction k as [|k IH]; intros Hj Ha; rewrite rep_loop_unfold;
    [destruct (Nat.ltb_spec 0 min)|destruct (Nat.ltb_spec (S k) min)]; try lia.
  - replace j with 0 in Ha by lia. destruct (attempt 0); [by eexists|by destruct Ha].
  - destruct (attempt (S k)) eqn:E; [by eexists|].
    destruct (decide (j = S k)) as [->|]; [rewrite E in Ha; by destruct Ha|]. apply IH; [lia|done].
Qed.

(** Two attempt functions that agree up to [k] give the same loop. *)
Lemma rep_loop_ext {X} min (f g : nat -> option X) k :
  (forall j, j <= k -> f j = g j) -> rep_loop min f k = rep_loop min g k.
Proof.
  induction k as [|k IH]; intros Hfg.
  - rewrite (rep_loop_unfold min f 0), (rep_loop_unfold min g 0), Hfg by lia. done.
  - rewrite (rep_loop_unfold min f (S k)), (rep_loop_unfold min g (S k)), Hfg by lia.
    destruct (_ <? _); [done|]. destruct (g (S k)); [done|]. apply IH. intros; apply Hfg; lia.
Qed.

(** [run_length] is the longest run of the class. *)
Lemma run_length_spec cls s k :
  k <= run_length cls s <-> k <= length s /\ Forall (fun c => cls c = true) (take k s).
Proof.
  revert k. induction s as [|c s IH]; intros [|k]; simpl.
  - split; [intros; split; [lia|constructor]|lia].
  - split; [lia|intros [? _]; lia].
  - split; [intros; split; [lia|constructor]|lia].
  - rewrite Forall_cons. destruct (cls c) eqn:Hc.
    + split.
      * intros Hk. destruct (proj1 (IH k) ltac:(lia)). split_and!; [lia|done|done].
      * intros (Hl & _ & Hf). assert (k <= run_length cls s) by (apply IH; split; [lia|done]). lia.
    + split; [lia|]. intros (_ & Hf & _). discriminate.
Qed.

(** After the longest run comes a character outside the class, or the
    end of the text. *)
Lemma run_length_drop cls s : run_length cls (drop (run_length cls s) s) = 0.
Proof. induction s as [|c s IH]; simpl; [done|]. by destruct (cls c) eqn:E; [|simpl; rewrite E]. Qed.

Lemma search_spec ns s caps :
  search ns s = Some caps <->
  exists i, i <= length s /\ match_nodes ns (drop i s) = Some caps /\
            forall j, j < i -> match_nodes ns (drop j s) = None.
Proof.
  revert caps. induction s as [|x s IH]; intros caps; simpl.
  - destruct (match_nodes ns []) eqn:E; split.
    + intros [= <-]. exists 0. split_and!; [lia|done|lia].
    + intros (i & Hi & Hm & _). rewrite drop_nil in Hm. congruence.
    + discriminate.
    + intros (i & Hi & Hm & _). rewrite drop_nil in Hm. congruence.
  - destruct (match_nodes ns (x :: s)) eqn:E; split.
    + intros [= <-]. exists 0. split_and!; [lia|done|lia].
    + intros (i & Hi & Hm & Hmin). destruct i as [|i]; [simpl in Hm; congruence|].
      specialize (Hmin 0 ltac:(lia)). simpl in Hmin. congruence.
    + intros (i & Hi & Hm & Hmin)%IH. exists (S i). split_and!; [lia|done|].
      intros [|j] Hj; [done|]. apply Hmin. lia.
    + intros (i & Hi & Hm & Hmin). destruct i as [|i]; [simpl in Hm; congruence|].
      apply IH. exists i. split_and!; [simpl in Hi; lia|done|]. intros j Hj. apply (Hmin (S j)). lia.
Qed.

Lemma search_none ns s i : search ns s = None -> match_nodes ns (drop i s) = None.
Proof.
  revert i. induction s as [|x s IH]; intros i; simpl; destruct (match_nodes ns _) eqn:E; try discriminate.
  - by rewrite drop_nil.
  - intros H. destruct i as [|i]; [done|]. simpl. by apply IH.
Qed.

(** ** The last capture is a whole run of its class *)

(** A pattern that ends with a captured greedy repetition: its last
    capture is the whole run of the class at its position. *)
Lemma match_nodes_last_capture ns min cls s caps :
  match_nodes (ns ++ [RRep min cls true])%list s = Some caps ->
  exists i c caps0, caps = (caps0 ++ [c])%list /\ i + length c <= length s /\
    take (length c) (drop i s) = c /\ run_length cls (drop (i + length c) s) = 0.
Proof.
  revert s caps. induction ns as [|[l|m cls' cap'] ns IH]; intros s caps; simpl.
  - intros H. destruct (rep_loop_sound _ _ _ _ H) as (j & Hj & Ha & Hmax). injection Ha as <-.
    assert (j = run_length cls s) as ->.
    { destruct (decide (j < run_length cls s)) as [Hlt|]; [|lia].
      specialize (Hmax (run_length cls s) ltac:(lia)). discriminate. }
    destruct (proj1 (run_length_spec cls s (run_length cls s)) ltac:(lia)) as [Hl _].
    exists 0, (take (run_length cls s) s), []. rewrite length_take, Nat.min_l by done.
    split_and!; [done|lia|done|apply run_length_drop].
  - destruct s as [|x s]; [discriminate|]. destruct (Ascii.eqb _ _); [|discriminate].
    intros (i & c & caps0 & -> & Hl & Ht & Hr)%IH.
    exists (S i), c, caps0. simpl. split_and!; [done|lia|done|done].
  - intros H. destruct (rep_loop_sound _ _ _ _ H) as (j & Hj & Ha & _).
    destruct (match_nodes (ns ++ _)%list (drop j s)) as [caps'|] eqn:E; [|discriminate]. injection Ha as <-.
    destruct (IH _ _ E) as (i & c & caps0 & -> & Hl & Ht & Hr).
    destruct (proj1 (run_length_spec cls' s j) ltac:(lia)) as [Hjl _].
    rewrite length_drop in Hl. rewrite drop_drop in Ht, Hr.
    exists (j + i), c, (if cap' then take j s :: caps0 else caps0).
    split_and!; [by destruct cap'|lia|done|by rewrite <- Nat.add_assoc].
Qed.

(** ** Case-insensitive matching *)

Lemma canon_idem c : canon (canon c) = canon c.
Proof. destruct c as [[] [] [] [] [] [] [] []]; reflexivity. Qed.

Lemma is_num_canon c : is_num (canon c) = is_num c.
Proof. destruct c as [[] [] [] [] [] [] [] []]; reflexivity. Qed.

Lemma is_space_canon c : is_space (canon c) = is_space c.
Proof. destruct c as [[] [] [] [] [] [] [] []]; reflexivity. Qed.

Lemma is_crlf_canon c : is_crlf (canon c) = is_crlf c.
Proof. destruct c as [[] [] [] [] [] [] [] []]; reflexivity. Qed.

(** Digits and the dot have no other case. *)
Lemma is_num_canon_fixed c : is_num c = true -> canon c = c.
Proof. destruct c as [[] [] [] [] [] [] [] []]; by vm_compute. Qed.

Lemma cls_canon_eq (cls : ascii -> bool) c c' :
  (forall c, cls (canon c) = cls c) -> canon c = canon c' -> cls c = cls c'.
Proof. intros H E. by rewrite <- (H c), <- (H c'), E. Qed.

Lemma run_length_canon cls s s' :
  (forall c, cls (canon c) = cls c) -> map canon s = map canon s' ->
  run_length cls s = run_length cls s'.
Proof.
  intros Hinv. revert s'. induction s as [|c s IH]; intros [|c' s'] Hs; try discriminate; [done|].
  injection Hs as Hc Hs. simpl. rewrite (cls_canon_eq cls c c' Hinv Hc). by rewrite (IH s' Hs).
Qed.

Lemma take_canon cls s s' k :
  (forall c, cls (canon c) = cls c) -> (forall c, cls c = true -> canon c = c) ->
  map canon s = map canon s' -> k <= run_length cls s -> take k s = take k s'.
Proof.
  intros Hinv Hfix. revert s' k. induction s as [|c s IH]; intros [|c' s'] [|k] Hs Hk;
    try discriminate; try done; simpl in *.
  injection Hs as Hc Hs. destruct (cls c) eqn:E; [|lia].
  assert (cls c' = true) as E' by (by rewrite <- (cls_canon_eq cls c c' Hinv Hc)).
  rewrite <- (Hfix c E), <- (Hfix c' E'), Hc. f_equal. apply IH; [done|lia].
Qed.

(** The nodes whose classes do not depend on case and whose captured
    classes contain no letters. *)
Lemma match_nodes_canon ns s s' :
  Forall (fun n => match n with
                   | RLit _ => True
                   | RRep _ cls cap => (forall c, cls (canon c) = cls c) /\
                                       (cap = true -> forall c, cls c = true -> canon c = c)
                   end) ns ->
  map canon s = map canon s' -> match_nodes ns s = match_nodes ns s'.
Proof.
  intros HF. revert s s'. induction HF as [|[l|min cls cap] ns Hn _ IH]; intros s s' Hs; [done| |].
  - destruct s as [|x s], s' as [|x' s']; try discriminate; [done|].
    injection Hs as Hc Hs. simpl. rewrite Hc. destruct (Ascii.eqb _ _); [by apply IH|done].
  - destruct Hn as [Hinv Hcap]. simpl. rewrite (run_length_canon cls s s' Hinv Hs).
    apply rep_loop_ext. intros j Hj.
    rewrite (IH (drop j s) (drop j s')) by (by rewrite <- !skipn_map, Hs).
    destruct (match_nodes ns (drop j s')); [|done]. destruct cap; [|done].
    rewrite (take_canon cls s s' j Hinv (Hcap eq_refl) Hs); [done|].
    by rewrite (run_length_canon cls s s' Hinv Hs).
Qed.

Lemma search_canon ns s s' :
  Forall (fun n => match n with
                   | RLit _ => True
                   | RRep _ cls cap => (forall c, cls (canon c) = cls c) /\
                                       (cap = true -> forall c, cls c = true -> canon c = c)
                   end) ns ->
  map canon s = map canon s' -> search ns s = search ns s'.
Proof.
  intros HF. revert s'. induction s as [|x s IH]; intros [|x' s'] Hs; try discriminate; simpl.
  - done.
  - rewrite (match_nodes_canon ns (x :: s) (x' :: s') HF Hs). injection Hs as _ Hs.
    by rewrite (IH s' Hs).
Qed.

End matcher_lemmas.

(** C7: Round trip of the pad-dimension file: a file written as
    ["X: x\nY: y\nZ: z"] for non-negative integers (below [2^53], where
    JS numbers are exact, with [y * z] below [2^53] too) is parsed back to
    its three numbers; the area readout is [y * z] with one decimal
    (["837.0 mm²"] for [27 * 31]) and the dimensions readout repeats [y]
    and [z] verbatim. *)
Theorem padReadouts_roundtrip x y z :
  (0 <= x)%Z -> (0 <= y)%Z -> (0 <= z)%Z -> (y * z < 2 ^ 53)%Z ->
  padReadouts (Some ("X: " ++ string_of_Z x ++ NL ++ "Y: " ++ string_of_Z y ++ NL ++
                     "Z: " ++ string_of_Z z)) =
  Some (string_of_Z (y * z) ++ ".0" ++ " mm²",
        "Y: " ++ string_of_Z y ++ " mm, Z: " ++ string_of_Z z ++ " mm").
Proof.
  intros Hx Hy Hz Hyz. unfold padReadouts.
  rewrite parsePadDimensions_fields by (apply digits_num_field; done).
  unfold areaText. rewrite !js_number_string_of_Z by done.
  change (inject_Z y * inject_Z z)%Q with (inject_Z (y * z)).
  rewrite toFixed1_int by lia. by rewrite string_app_assoc.
Qed.

(** The example of the specification. *)
Example padReadouts_example :
  padReadouts (Some ("X: 10" ++ NL ++ "Y: 27" ++ NL ++ "Z: 31")) =
  Some ("837.0 mm²", "Y: 27 mm, Z: 31 mm").
Proof. vm_compute. reflexivity. Qed.

Lemma search_no_X s :
  Forall (fun c => canon c <> "X"%char) s -> search PAD_REGEX s = None.
Proof.
  induction s as [|c s IH]; intros Hs; [reflexivity|].
  inversion Hs as [|? ? Hc Hs']; subst.
  assert (Hm : match_nodes PAD_REGEX (c :: s) =
    if Ascii.eqb "X" (canon c) then match_nodes (drop 1 PAD_REGEX) s else None) by reflexivity.
  destruct (Ascii.eqb_spec "X" (canon c)) as [E|_]; [by rewrite E in Hc|].
  change (search PAD_REGEX (c :: s)) with
    (match match_nodes PAD_REGEX (c :: s) with
     | Some caps => Some caps | None => search PAD_REGEX s end).
  rewrite Hm. by apply IH.
Qed.

(** C20: [updatePadDimensions] degrades to the placeholder readouts, never
    to an error: when the fetch fails (network error, non-ok status,
    unreadable body), and when the text has no [X] tag at all. *)
Theorem padReadouts_placeholders text :
  padReadouts None = Some (PAD_SIZE_UNAVAILABLE, PAD_DIMS_UNAVAILABLE) /\
  (Forall (fun c => canon c <> "X"%char) (String.list_ascii_of_string text) ->
   padReadouts (Some text) = Some (PAD_SIZE_UNAVAILABLE, PAD_DIMS_UNAVAILABLE)).
Proof.
  split; [done|]. intros H. unfold padReadouts, parsePadDimensions.
  by rewrite search_no_X.
Qed.

(** C21: The pattern accepts number captures that JS [Number] rejects:
    for every file in the expected format whose [Y] or [Z] field is a
    run of digits and dots that is not a number (["1.2.3"], ["."]), the
    area readout is "NaN mm²" instead of the placeholder, and the
    dimension readout repeats the malformed fields. *)
Theorem padReadouts_malformed_number x y z :
  num_field x -> num_field y -> num_field z ->
  js_number y = None \/ js_number z = None ->
  padReadouts (Some ("X: " ++ x ++ NL ++ "Y: " ++ y ++ NL ++ "Z: " ++ z)) =
  Some ("NaN mm²", "Y: " ++ y ++ " mm, Z: " ++ z ++ " mm").
Proof.
  intros Hx Hy Hz Hnan. unfold padReadouts. rewrite parsePadDimensions_fields by done.
  unfold areaText. destruct Hnan as [-> | ->]; [done|]. by destruct (js_number y).
Qed.

Lemma padReadouts_roundtrip_witness :
  padReadouts (Some ("X: " ++ string_of_Z 10 ++ NL ++ "Y: " ++ string_of_Z 27 ++ NL ++
                     "Z: " ++ string_of_Z 31)) =
  Some ("837.0 mm²", "Y: 27 mm, Z: 31 mm").
Proof. rewrite (padReadouts_roundtrip 10 27 31) by lia. reflexivity. Defined.

(** The second dimension of the file is "1.2.3". *)
Lemma padReadouts_malformed_number_witness :
  padReadouts (Some ("X: " ++ "1" ++ NL ++ "Y: " ++ "1.2.3" ++ NL ++ "Z: " ++ "4")) =
  Some ("NaN mm²", "Y: " ++ "1.2.3" ++ " mm, Z: " ++ "4" ++ " mm").
Proof.
  apply padReadouts_malformed_number;
    [split; [discriminate|vm_compute; repeat constructor]..|left; reflexivity].
Defined.

Lemma padReadouts_placeholders_witness :
  padReadouts (Some "404: Not Found") = Some (PAD_SIZE_UNAVAILABLE, PAD_DIMS_UNAVAILABLE).
Proof.
  apply (proj2 (padReadouts_placeholders "404: Not Found")).
  vm_compute. repeat (constructor; [discriminate|]). constructor.
Defined.

Lemma PAD_REGEX_case_ok :
  Forall (fun n => match n with
                   | RLit _ => True
                   | RRep _ cls cap => (forall c, cls (canon c) = cls c) /\
                                       (cap = true -> forall c, cls c = true -> canon c = c)
                   end) PAD_REGEX.
Proof.
  repeat constructor; intros;
    first [apply is_num_canon | apply is_space_canon | apply is_crlf_canon | discriminate
          | by apply is_num_canon_fixed].
Qed.

(** C8: The pattern's [/i] flag makes [parsePadDimensions] blind to the
    case of letters: two texts that differ only in the case of ASCII
    letters give the same result, captures included (the captured
    [[0-9.]] runs have no case). *)
Theorem parsePadDimensions_case_insensitive t1 t2 :
  map canon (String.list_ascii_of_string t1) = map canon (String.list_ascii_of_string t2) ->
  parsePadDimensions t1 = parsePadDimensions t2.
Proof.
  intros H. unfold parsePadDimensions. by rewrite (search_canon _ _ _ PAD_REGEX_case_ok H).
Qed.


(** The same file with lower-case tags. *)
Lemma parsePadDimensions_case_insensitive_witness :
  parsePadDimensions ("x: 10" ++ NL ++ "y: 27" ++ NL ++ "z: 31") =
  parsePadDimensions ("X: 10" ++ NL ++ "Y: 27" ++ NL ++ "Z: 31").
Proof. apply parsePadDimensions_case_insensitive. vm_compute. reflexivity. Defined.

