(* ===== verification/PadRegex.v ===== *)
(** * PadRegex: the pad pattern against a declarative semantics

    [nmatch ns s caps] says, without any search order, when the nodes
    [ns] match a prefix of [s] with captures [caps]: a literal matches
    one character equal up to case, a repetition [RRep min cls cap]
    matches any number [k >= min] of characters of its class.  The
    matcher [PadDims.match_nodes] returns only such matches and fails
    only when there is none ([match_nodes_sound], [match_nodes_complete]);
    with [PadDims.search_spec] this gives what [parsePadDimensions]
    returns in terms of the pattern alone: the captures of a match of
    [PAD_REGEX] at the leftmost start position that has one
    ([parsePadDimensions_spec]). *)

From S2P Require Import Prelude PadDims.
From Stdlib Require Import Ascii.
Open Scope nat_scope.

Inductive nmatch : list rnode -> list ascii -> list (list ascii) -> Prop :=
  | NMNil s : nmatch [] s []
  | NMLit c x s ns caps :
      canon c = canon x -> nmatch ns s caps -> nmatch (RLit c :: ns) (x :: s) caps
  | NMRep min cls cap ns s k caps :
      (min <= k <= length s)%nat -> Forall (fun c => cls c = true) (take k s) ->
      nmatch ns (drop k s) caps ->
      nmatch (RRep min cls cap :: ns) s (if cap then take k s :: caps else caps).

(** ** The matcher *)

Lemma match_nodes_sound ns s caps : match_nodes ns s = Some caps -> nmatch ns s caps.
Proof.
  revert s caps. induction ns as [|[c|min cls cap] ns IH]; intros s caps; simpl.
  - intros [= <-]. constructor.
  - destruct s as [|x s]; [discriminate|].
    destruct (Ascii.eqb_spec (canon c) (canon x)); [|discriminate]. intros H. constructor; auto.
  - intros H. destruct (rep_loop_sound _ _ _ _ H) as (j & Hj & Ha & _).
    destruct (match_nodes ns (drop j s)) as [caps'|] eqn:E; [|discriminate]. injection Ha as <-.
    destruct (proj1 (run_length_spec cls s j) ltac:(lia)) as [Hl Hf].
    apply NMRep; [lia|done|by apply IH].
Qed.

Lemma match_nodes_complete ns s caps : nmatch ns s caps -> is_Some (match_nodes ns s).
Proof.
  induction 1 as [s|c x s ns caps Hc _ IH|min cls cap ns s k caps Hk Hf _ IH]; simpl.
  - by eexists.
  - rewrite Hc, Ascii.eqb_refl. exact IH.
  - apply (rep_loop_complete _ _ _ k).
    + split; [lia|]. apply run_length_spec. split; [lia|done].
    + destruct IH as [caps' ->]. by eexists.
Qed.

(** Every match of [ns] has one capture per capturing node. *)
Lemma nmatch_caps_length ns s caps :
  nmatch ns s caps ->
  length caps = length (omap (fun n => match n with RRep _ _ true => Some tt | _ => None end) ns).
Proof.
  induction 1 as [|c x s ns caps _ _ IH|min cls cap ns s k caps _ _ _ IH]; [done|done|].
  destruct cap; cbn; rewrite IH; reflexivity.
Qed.

(** ** Claims *)

(** C12: [parsePadDimensions] finds the dimensions exactly when the
    pattern matches somewhere in the text, and it returns the three
    captures of the leftmost match: no start position before it has a
    match. *)
Theorem parsePadDimensions_spec text :
  let s := String.list_ascii_of_string text in
  match parsePadDimensions text with
  | Some (x, y, z) =>
      exists i, (i <= length s)%nat /\
        nmatch PAD_REGEX (drop i s) (map String.list_ascii_of_string [x; y; z]) /\
        forall j caps, (j < i)%nat -> ~ nmatch PAD_REGEX (drop j s) caps
  | None => forall i caps, ~ nmatch PAD_REGEX (drop i s) caps
  end.
Proof.
  intros s. unfold parsePadDimensions. fold s.
  destruct (search PAD_REGEX s) as [caps|] eqn:E.
  - destruct (proj1 (search_spec _ _ _) E) as (i & Hi & Hm & Hmin).
    pose proof (nmatch_caps_length _ _ _ (match_nodes_sound _ _ _ Hm)) as Hlen.
    destruct caps as [|x [|y [|z [|]]]]; try discriminate Hlen.
    exists i. split_and!; [done| |].
    + cbn. rewrite !String.list_ascii_of_string_of_list_ascii. by apply match_nodes_sound.
    + intros j caps Hj Hn. destruct (match_nodes_complete _ _ _ Hn) as [c E'].
      rewrite Hmin in E' by done. discriminate.
  - intros i caps Hn. destruct (match_nodes_complete _ _ _ Hn) as [c E'].
    by rewrite search_none in E'.
Qed.
