(* ===== verification/Checklist.v ===== *)
(** * Checklist: component visibility and the generated checklist

    [componentVisibility] maps part files to booleans (all [true] at
    start; a missing key counts as visible).  [setPartVisibility] writes
    the map and, when the part is loaded, the [visible] flag of its scene
    object, reached through [componentObjects].  [buildComponentList]
    regenerates the gripper groups of the checklist from the map and
    [groupExpanded]; the three handlers it installs are the part
    checkbox, the group checkbox and the Show/Hide button.

    The DOM is part of the state: a handler reads the [checked] flag of
    the element it is attached to, as the browser toggled it.  The
    theorems give the group checkbox's tri-state, the effect of each
    handler, and show that the DOM always equals a fresh rebuild. *)

From S2P Require Import Prelude Catalog Geometry Scene.
Open Scope string_scope.

(** ** State *)

(** One part checkbox: [checkbox.checked] next to [part.label]. *)
Record ItemDom := mkItemDom { item_file : string; item_label : string; item_checked : bool }.

(** One group of the list: the group checkbox ([checked],
    [indeterminate]), the items container's [is-collapsed] class, the
    toggle button's text, and the items. *)
Record GroupDom := mkGroupDom {
  g_name : string; g_checked : bool; g_indeterminate : bool;
  g_collapsed : bool; g_toggleText : string; g_items : list ItemDom }.

Record Checklist := mkChecklist {
  componentVisibility : gmap string bool;
  groupExpanded : gmap string bool;
  groupsDom : list GroupDom }.

(** [new Map(PARTS.map((part) => [part.file, true]))] *)
Definition initialVisibility : gmap string bool :=
  list_to_map (map (fun p => (file p, true)) PARTS).

(** [new Map(Object.keys(COMPONENT_GROUPS).map((name) => [name, false]))] *)
Definition initialExpanded : gmap string bool :=
  list_to_map (map (fun g => (g.1, false)) COMPONENT_GROUPS).

(** ** [buildComponentList], gripper groups *)

Definition allChecked (vis : gmap string bool) (partFiles : list string) : bool :=
  forallb (fun f => vis !!≠false f) partFiles.

Definition anyChecked (vis : gmap string bool) (partFiles : list string) : bool :=
  existsb (fun f => vis !!≠false f) partFiles.

(** The items of a group: files without a [PARTS] entry are skipped. *)
Definition buildItems (vis : gmap string bool) (partFiles : list string) : list ItemDom :=
  omap (fun f => match find_part f with
                 | Some part => Some (mkItemDom (file part) (label part) (vis !!≠false (file part)))
                 | None => None
                 end) partFiles.

Definition buildGroup (vis expanded : gmap string bool) (g : string * list string) : GroupDom :=
  let '(groupName, partFiles) := g in
  let isExpanded := bool_decide (expanded !! groupName = Some true) in
  let all := allChecked vis partFiles in
  let any := anyChecked vis partFiles in
  mkGroupDom groupName all (negb all && any) (negb isExpanded)
    (if isExpanded then "Hide" else "Show") (buildItems vis partFiles).

Definition buildGroups (vis expanded : gmap string bool) : list GroupDom :=
  map (buildGroup vis expanded) COMPONENT_GROUPS.

Definition rebuild (c : Checklist) : Checklist :=
  mkChecklist (componentVisibility c) (groupExpanded c)
    (buildGroups (componentVisibility c) (groupExpanded c)).

(** ** [setPartVisibility] *)

Definition setPartVisibility (partFile : string) (visible : bool)
    (objs : gmap string nat) (st : Store) (vis : gmap string bool) : gmap string bool * Store :=
  (<[partFile := visible]> vis,
   match objs !! partFile with
   | Some id => alter (set_visible visible) id st
   | None => st
   end).

(** [partFiles.forEach((file) => setPartVisibility(file, checked))] *)
Definition setGroupVisibility (partFiles : list string) (visible : bool)
    (objs : gmap string nat) (st : Store) (vis : gmap string bool) : gmap string bool * Store :=
  fold_left (fun acc f => setPartVisibility f visible objs acc.2 acc.1) partFiles (vis, st).

(** ** Handlers *)

Definition find_group (c : Checklist) (name : string) : option GroupDom :=
  List.find (fun g => String.eqb (g_name g) name) (groupsDom c).

(** The [change] listener of a part checkbox: the browser has flipped
    [checkbox.checked]; the listener calls [setPartVisibility] and
    rebuilds the list.  [None] when no such checkbox is on the page. *)
Definition onPartChange (groupName partFile : string) (objs : gmap string nat)
    (c : Checklist) (st : Store) : option (Checklist * Store) :=
  g ← find_group c groupName;
  it ← List.find (fun it => String.eqb (item_file it) partFile) (g_items g);
  let '(vis', st') := setPartVisibility (item_file it) (negb (item_checked it)) objs st
                                         (componentVisibility c) in
  Some (rebuild (mkChecklist vis' (groupExpanded c) (groupsDom c)), st').

(** The [change] listener of a group checkbox: every member part takes
    the new [checked] state (an indeterminate box becomes checked). *)
Definition onGroupChange (groupName : string) (objs : gmap string nat)
    (c : Checklist) (st : Store) : option (Checklist * Store) :=
  g ← find_group c groupName;
  let checked := negb (g_checked g) in
  let '(vis', st') := setGroupVisibility (group_parts groupName) checked objs st
                                         (componentVisibility c) in
  Some (rebuild (mkChecklist vis' (groupExpanded c) (groupsDom c)), st').

(** The [click] listener of the Show/Hide button: toggles the items'
    [is-collapsed] class in place (no rebuild), updates the button and
    records [groupExpanded]. *)
Definition toggleGroupDom (groupName : string) (isHidden : bool) (g' : GroupDom) : GroupDom :=
  if String.eqb (g_name g') groupName
  then mkGroupDom (g_name g') (g_checked g') (g_indeterminate g') isHidden
         (if isHidden then "Show" else "Hide") (g_items g')
  else g'.

Definition onGroupToggle (groupName : string) (c : Checklist) : option Checklist :=
  g ← find_group c groupName;
  let isHidden := negb (g_collapsed g) in
  Some (mkChecklist (componentVisibility c)
          (<[groupName := negb isHidden]> (groupExpanded c))
          (map (toggleGroupDom groupName isHidden) (groupsDom c))).

Definition initialChecklist : Checklist :=
  rebuild (mkChecklist initialVisibility initialExpanded []).

(** ** The group checkbox *)

(** The checklist DOM is what a fresh [buildComponentList] would draw. *)
Definition dom_synced (c : Checklist) : Prop :=
  groupsDom c = buildGroups (componentVisibility c) (groupExpanded c).

(** C26: A group checkbox built by [buildComponentList] is checked
    exactly when every member part is visible, and indeterminate exactly
    when at least one member is visible and at least one is hidden. *)
Theorem buildGroup_tristate vis exp name files :
  let g := buildGroup vis exp (name, files) in
  (g_checked g = true <-> forall f, f ∈ files -> vis !!≠false f = true) /\
  (g_indeterminate g = true <->
     (exists f, f ∈ files /\ vis !!≠false f = true) /\
     (exists f, f ∈ files /\ vis !!≠false f = false)).
Proof.
  simpl. unfold allChecked, anyChecked.
  rewrite andb_true_iff, negb_true_iff, forallb_forall, existsb_exists.
  setoid_rewrite <- list_elem_of_In.
  split; [done|]. split.
  - intros [Hall [f [Hf Hv]]]. split; [by exists f|].
    apply forallb_false_exists. by destruct (forallb _ files).
  - intros [[f [Hf Hv]] [f' [Hf' Hv']]]. split; [|eauto].
    apply not_true_iff_false. rewrite forallb_forall. setoid_rewrite <- list_elem_of_In.
    intros Hall. rewrite Hall in Hv' by done. discriminate.
Qed.

(** ** [setGroupVisibility] *)

Lemma setGroupVisibility_vis files b objs st vis f :
  (setGroupVisibility files b objs st vis).1 !! f =
    if bool_decide (f ∈ files) then Some b else vis !! f.
Proof.
  unfold setGroupVisibility. revert vis st.
  induction files as [|f0 files IH]; intros vis st; simpl; [done|].
  unfold setPartVisibility at 2. simpl. rewrite IH.
  destruct (decide (f0 = f)) as [->|Hne].
  - rewrite lookup_insert_eq. by repeat case_bool_decide; set_solver.
  - rewrite lookup_insert_ne by done. repeat case_bool_decide; set_solver.
Qed.

Lemma setGroupVisibility_store files b objs st vis :
  (setGroupVisibility files b objs st vis).2 =
    fold_left (fun s id => alter (set_visible b) id s) (omap (objs !!.) files) st.
Proof.
  unfold setGroupVisibility. revert vis st.
  induction files as [|f0 files IH]; intros vis st; simpl; [done|].
  unfold setPartVisibility at 2. simpl. rewrite IH. by destruct (objs !! f0).
Qed.

Lemma set_visible_idem b o : set_visible b (set_visible b o) = set_visible b o.
Proof. by destruct o. Qed.

#[export] Hint Resolve set_visible_idem : viewer.

(** ** Handlers *)

(** C24: The group checkbox handler sets every member of the group to
    the box's new state (the negation of its displayed [checked]) in
    [componentVisibility] and on every loaded member object, and leaves
    every other part's entry unchanged. *)
Theorem onGroupChange_spec name objs c st c' st' :
  onGroupChange name objs c st = Some (c', st') ->
  exists g, find_group c name = Some g /\
    (forall f, componentVisibility c' !! f =
       if bool_decide (f ∈ group_parts name) then Some (negb (g_checked g))
       else componentVisibility c !! f) /\
    (forall f id o, f ∈ group_parts name -> objs !! f = Some id -> st !! id = Some o ->
       st' !! id = Some (set_visible (negb (g_checked g)) o)).
Proof.
  unfold onGroupChange. destruct (find_group c name) as [g|]; simpl; [|discriminate].
  destruct (setGroupVisibility _ _ _ _ _) as [vis' st''] eqn:E. intros [= <- <-].
  exists g. split; [done|]. split.
  - intros f. simpl.
    pose proof (setGroupVisibility_vis (group_parts name) (negb (g_checked g)) objs st
                  (componentVisibility c) f) as H. by rewrite E in H.
  - intros f id o Hf Hid Ho.
    replace st'' with (setGroupVisibility (group_parts name) (negb (g_checked g)) objs st
                        (componentVisibility c)).2 by by rewrite E.
    rewrite setGroupVisibility_store, fold_alter_lookup by eauto with viewer.
    rewrite bool_decide_true, Ho; [done|]. apply list_elem_of_omap. by exists f.
Qed.

Lemma toggle_other vis exp name b gs :
  Forall (fun g => g.1 <> name) gs ->
  map (toggleGroupDom name b) (map (buildGroup vis exp) gs) =
  map (buildGroup vis (<[name := negb b]> exp)) gs.
Proof.
  induction 1 as [|[n files] gs Hn _ IH]; [done|]. simpl in *.
  rewrite IH. unfold toggleGroupDom at 1. simpl.
  destruct (String.eqb_spec n name); [done|]. by rewrite lookup_insert_ne.
Qed.

Lemma toggle_synced vis exp name g gs :
  NoDup (map fst gs) ->
  List.find (fun g => String.eqb (g_name g) name) (map (buildGroup vis exp) gs) = Some g ->
  map (toggleGroupDom name (negb (g_collapsed g))) (map (buildGroup vis exp) gs) =
  map (buildGroup vis (<[name := negb (negb (g_collapsed g))]> exp)) gs.
Proof.
  induction gs as [|[n files] gs IH]; simpl; [discriminate|]. intros Hnd Hfind.
  apply NoDup_cons in Hnd as [Hn Hnd].
  destruct (String.eqb_spec n name) as [->|Hne].
  - injection Hfind as <-. rewrite toggle_other.
    2:{ apply Forall_forall. intros [n' f'] Hin Heq. simpl in Heq. subst n'. apply Hn.
        apply list_elem_of_In, in_map_iff. exists (name, f'). split; [done|].
        by apply list_elem_of_In. }
    unfold toggleGroupDom. simpl. rewrite String.eqb_refl, lookup_insert_eq.
    by destruct (bool_decide (exp !! name = Some true)).
  - unfold toggleGroupDom at 1. simpl. rewrite (proj2 (String.eqb_neq n name) Hne).
    rewrite lookup_insert_ne by done. f_equal. by apply IH.
Qed.

Lemma COMPONENT_GROUPS_names_NoDup : NoDup (map fst COMPONENT_GROUPS).
Proof. apply (bool_decide_unpack _). vm_compute. reflexivity. Qed.

(** C25: The checklist DOM never drifts from the state: if it equals a
    fresh rebuild before a part checkbox, group checkbox or Show/Hide
    click, it equals a fresh rebuild after it.  The Show/Hide button
    edits the DOM in place, and [groupExpanded] is updated to match. *)
Theorem checklist_handlers_keep_dom_synced c st objs name f :
  dom_synced c ->
  (forall c' st', onPartChange name f objs c st = Some (c', st') -> dom_synced c') /\
  (forall c' st', onGroupChange name objs c st = Some (c', st') -> dom_synced c') /\
  (forall c', onGroupToggle name c = Some c' -> dom_synced c').
Proof.
  intros Hs. split_and!.
  - intros c' st'. unfold onPartChange.
    destruct (find_group c name) as [g|]; simpl; [|discriminate].
    destruct (List.find _ (g_items g)) as [it|]; simpl; [|discriminate].
    destruct (setPartVisibility (item_file it) (negb (item_checked it)) objs st
                (componentVisibility c)). by intros [= <- _].
  - intros c' st'. unfold onGroupChange. destruct (find_group c name) as [g|]; simpl; [|discriminate].
    destruct (setGroupVisibility (group_parts name) (negb (g_checked g)) objs st
                (componentVisibility c)). by intros [= <- _].
  - intros c'. unfold onGroupToggle, find_group. rewrite Hs.
    destruct (List.find _ _) as [g|] eqn:Hf; [|discriminate]. intros [= <-].
    unfold dom_synced. cbn [groupsDom componentVisibility groupExpanded].
    exact (toggle_synced (componentVisibility c) (groupExpanded c) name g COMPONENT_GROUPS
             COMPONENT_GROUPS_names_NoDup Hf).
Qed.

Lemma initialChecklist_synced : dom_synced initialChecklist.
Proof. reflexivity. Qed.

(** A witness: clicking "Show" on the base group of the initial list
    keeps the DOM in sync. *)
Lemma checklist_handlers_keep_dom_synced_witness :
  dom_synced initialChecklist /\
  exists c', onGroupToggle "Base" initialChecklist = Some c' /\ dom_synced c'.
Proof.
  split; [apply initialChecklist_synced|].
  eexists. split; [reflexivity|].
  apply (proj2 (proj2 (checklist_handlers_keep_dom_synced initialChecklist ∅ ∅ "Base" ""
                        initialChecklist_synced))).
  reflexivity.
Defined.

Lemma onGroupChange_spec_witness :
  let o := mkObj "Base" "Prints_base" "" (partMaterial (mkPart "" "" "")) true vzero None BoxEmpty in
  (snd <$> onGroupChange "Base" {["Prints_base" := 0%nat]} initialChecklist {[0%nat := o]})
    ≫= (lookup 0%nat) = Some (set_visible false o).
Proof.
  intros o.
  destruct (onGroupChange "Base" {["Prints_base" := 0%nat]} initialChecklist {[0%nat := o]})
    as [[c' st']|] eqn:E; [|vm_compute in E; discriminate].
  destruct (onGroupChange_spec _ _ _ _ _ _ E) as (g & Hg & _ & Hst).
  vm_compute in Hg. injection Hg as <-. cbn [fmap option_fmap option_map mbind option_bind snd].
  apply (Hst "Prints_base" 0%nat o); [|reflexivity|reflexivity].
  apply (bool_decide_unpack _). vm_compute. exact I.
Defined.
