(* ===== verification/Fruit.v ===== *)
(** * Fruit: the two reference fruits and their visibility

    [fruitUserOverride] holds one tri-state per fruit ([null] = auto);
    [strawberryObject] / [appleObject] exist once [loadFruits] has
    completed and the mesh loaded; [fruitsLoaded] gates
    [updateFruitVisibility] and [positionFruits].  The two checkbox
    handlers of [buildComponentList] are symmetric: the model writes
    them once, for a fruit [f] and its [other] fruit.

    The theorems: the auto-visibility rule, the exclusion the checkbox
    handlers enforce, an invariant showing at most one fruit is ever
    visible provided no fruit checkbox is used before the fruits have
    loaded, and a trace showing that both fruits can end up visible
    when a checkbox is used earlier. *)

From S2P Require Import Prelude Catalog Geometry.
Open Scope string_scope.

(** ** State *)

Record FruitObj := mkFruitObj { fo_visible : bool; fo_position : vec3 }.

(** What the module keeps per fruit: the user override, the scene
    object (absent until loaded, or when its mesh failed to load) and
    the [checked] state of its checkbox in the DOM. *)
Record FruitSlot := mkFruitSlot {
  override : option bool; object : option FruitObj; checkbox : bool }.

Record FruitState := mkFruitState {
  strawberrySlot : FruitSlot; appleSlot : FruitSlot;
  fruitsLoaded : bool; currentGripperSize : string }.

Definition other (f : Fruit) : Fruit :=
  match f with Strawberry => Apple | Apple => Strawberry end.

Definition slot (f : Fruit) (s : FruitState) : FruitSlot :=
  match f with Strawberry => strawberrySlot s | Apple => appleSlot s end.

Definition set_slot (f : Fruit) (x : FruitSlot) (s : FruitState) : FruitState :=
  match f with
  | Strawberry => mkFruitState x (appleSlot s) (fruitsLoaded s) (currentGripperSize s)
  | Apple => mkFruitState (strawberrySlot s) x (fruitsLoaded s) (currentGripperSize s)
  end.

Definition update_slot (f : Fruit) (g : FruitSlot -> FruitSlot) (s : FruitState) : FruitState :=
  set_slot f (g (slot f s)) s.

(** Is fruit [f] shown: its object exists and is visible. *)
Definition fruit_visible (f : Fruit) (s : FruitState) : bool :=
  match object (slot f s) with Some o => fo_visible o | None => false end.

Definition set_override (v : option bool) (x : FruitSlot) : FruitSlot :=
  mkFruitSlot v (object x) (checkbox x).
Definition set_checkbox (b : bool) (x : FruitSlot) : FruitSlot :=
  mkFruitSlot (override x) (object x) b.
Definition map_object (g : FruitObj -> FruitObj) (x : FruitSlot) : FruitSlot :=
  mkFruitSlot (override x) (g <$> object x) (checkbox x).
Definition obj_set_visible (b : bool) (o : FruitObj) : FruitObj := mkFruitObj b (fo_position o).

(** [fruitUserOverride = { strawberry: null, apple: null }],
    [currentGripperSize = "1.5"], no objects, and unchecked boxes. *)
Definition initialFruitState : FruitState :=
  mkFruitState (mkFruitSlot None None false) (mkFruitSlot None None false) false "1.5".

(** ** Operations *)

(** The continuation of [loadFruits] after both [loadFruitModel] calls
    settled: a loaded fruit is added hidden; then [fruitsLoaded = true]. *)
Definition loadFruitsDone (strawberryOk appleOk : bool) (s : FruitState) : FruitState :=
  let add (ok : bool) (x : FruitSlot) := if ok then mkFruitSlot (override x) (Some (mkFruitObj false vzero)) (checkbox x)
                  else x in
  mkFruitState (add strawberryOk (strawberrySlot s)) (add appleOk (appleSlot s))
    true (currentGripperSize s).

(** [updateFruitCheckboxes] for one fruit. *)
Definition syncCheckbox (x : FruitSlot) : FruitSlot :=
  match object x with Some o => set_checkbox (fo_visible o) x | None => x end.

(** [updateFruitVisibility(size)]. *)
Definition updateFruitVisibility (size : string) (s : FruitState) : FruitState :=
  let s := mkFruitState (strawberrySlot s) (appleSlot s) (fruitsLoaded s) size in
  if negb (fruitsLoaded s) then s
  else
    let vis (f : Fruit) (x : FruitSlot) :=
      let autoVisible := String.eqb size (targetSize (FRUIT_CONFIG f)) in
      map_object (obj_set_visible (default autoVisible (override x))) x in
    let s := update_slot Apple (vis Apple) (update_slot Strawberry (vis Strawberry) s) in
    update_slot Apple syncCheckbox (update_slot Strawberry syncCheckbox s).

(** [positionFruits]. *)
Definition positionFruits (s : FruitState) : FruitState :=
  if negb (fruitsLoaded s) then s
  else
    let place (f : Fruit) := map_object (fun o =>
          mkFruitObj (fo_visible o) (V3 0 (yOffset (FRUIT_CONFIG f)) 0)) in
    update_slot Apple (place Apple) (update_slot Strawberry (place Strawberry) s).

(** The fruit part of [buildComponentList]:
    [checkbox.checked = object ? object.visible : false]. *)
Definition rebuildFruitCheckboxes (s : FruitState) : FruitState :=
  let chk (x : FruitSlot) := set_checkbox (match object x with Some o => fo_visible o | None => false end) x in
  update_slot Apple chk (update_slot Strawberry chk s).

(** The [change] listener of fruit [f]'s checkbox, after the browser
    flipped it: record the override, show or hide [f]; when checking,
    hide the other fruit, force its override to [false] and uncheck its
    box, but only if the other fruit's object exists. *)
Definition onFruitChange (f : Fruit) (s : FruitState) : FruitState :=
  let checked := negb (checkbox (slot f s)) in
  let s := update_slot f (fun x => map_object (obj_set_visible checked)
                                    (set_override (Some checked) (set_checkbox checked x))) s in
  match checked, object (slot (other f) s) with
  | true, Some _ =>
      update_slot (other f) (fun x => set_checkbox false
                                (set_override (Some false) (map_object (obj_set_visible false) x))) s
  | _, _ => s
  end.

(** ** What each operation does to the observable fields *)

Definition present (f : Fruit) (s : FruitState) : bool := bool_decide (is_Some (object (slot f s))).

(** The fruit subsystem's steps, with the checkboxes used only after
    [loadFruits] has completed. *)
Inductive fstep : FruitState -> FruitState -> Prop :=
  | FLoad so ao s : fruitsLoaded s = false -> fstep s (loadFruitsDone so ao s)
  | FToggle f s : fruitsLoaded s = true -> fstep s (onFruitChange f s)
  | FUpdate size s : fstep s (updateFruitVisibility size s)
  | FPosition s : fstep s (positionFruits s)
  | FRebuild s : fstep s (rebuildFruitCheckboxes s).

Definition FInv (s : FruitState) : Prop :=
  (fruitsLoaded s = false -> forall f, override (slot f s) = None /\ present f s = false) /\
  (forall f, override (slot f s) = Some true -> present f s = true ->
             present (other f) s = false \/ override (slot (other f) s) = Some false) /\
  (forall f, fruit_visible f s = true -> fruit_visible (other f) s = false).

Lemma other_involutive f : other (other f) = f.
Proof. by destruct f. Qed.

Lemma other_neq f : other f <> f.
Proof. by destruct f. Qed.

Ltac fruit_cases s :=
  destruct s as [[?o1 [[?v1 ?p1]|] ?c1] [?o2 [[?v2 ?p2]|] ?c2] [] ?sz].

(** [updateFruitVisibility] keeps overrides and objects, and shows a
    loaded fruit exactly when its override, or else the auto rule, says so. *)
Lemma updateFruitVisibility_fields size s f :
  let s' := updateFruitVisibility size s in
  override (slot f s') = override (slot f s) /\ present f s' = present f s /\
  fruitsLoaded s' = fruitsLoaded s /\
  fruit_visible f s' =
    if fruitsLoaded s
    then present f s && default (String.eqb size (targetSize (FRUIT_CONFIG f))) (override (slot f s))
    else fruit_visible f s.
Proof. destruct f; fruit_cases s; split_and!; reflexivity. Qed.

Lemma onFruitChange_fields f s :
  let ch := negb (checkbox (slot f s)) in
  let s' := onFruitChange f s in
  override (slot f s') = Some ch /\ fruit_visible f s' = present f s && ch /\
  override (slot (other f) s') =
    (if ch && present (other f) s then Some false else override (slot (other f) s)) /\
  fruit_visible (other f) s' =
    (if ch && present (other f) s then false else fruit_visible (other f) s) /\
  present f s' = present f s /\ present (other f) s' = present (other f) s /\
  fruitsLoaded s' = fruitsLoaded s.
Proof. destruct f; fruit_cases s; destruct c1, c2; split_and!; reflexivity. Qed.

Lemma loadFruitsDone_fields so ao s f :
  let s' := loadFruitsDone so ao s in
  override (slot f s') = override (slot f s) /\
  present f s' = (match f with Strawberry => so | Apple => ao end || present f s) /\
  fruit_visible f s' = (if match f with Strawberry => so | Apple => ao end then false
                        else fruit_visible f s) /\
  fruitsLoaded s' = true.
Proof. destruct f, so, ao; fruit_cases s; split_and!; reflexivity. Qed.

Lemma positionFruits_fields s f :
  let s' := positionFruits s in
  override (slot f s') = override (slot f s) /\ present f s' = present f s /\
  fruit_visible f s' = fruit_visible f s /\ fruitsLoaded s' = fruitsLoaded s.
Proof. destruct f; fruit_cases s; split_and!; reflexivity. Qed.

Lemma rebuildFruitCheckboxes_fields s f :
  let s' := rebuildFruitCheckboxes s in
  override (slot f s') = override (slot f s) /\ present f s' = present f s /\
  fruit_visible f s' = fruit_visible f s /\ fruitsLoaded s' = fruitsLoaded s.
Proof. destruct f; fruit_cases s; split_and!; reflexivity. Qed.

Lemma fruit_visible_present f s : fruit_visible f s = true -> present f s = true.
Proof. destruct f; fruit_cases s; simpl; try discriminate; reflexivity. Qed.

(** ** Auto visibility and exclusion *)

(** C19: Once the fruits are loaded, a fruit without a user override is
    shown exactly when the gripper size is its target size: the
    strawberry at "1.0", the apple at "2.0". *)
Theorem updateFruitVisibility_auto size s f :
  fruitsLoaded s = true -> present f s = true -> override (slot f s) = None ->
  fruit_visible f (updateFruitVisibility size s) = String.eqb size (targetSize (FRUIT_CONFIG f)).
Proof.
  intros Hl Hp Ho. destruct (updateFruitVisibility_fields size s f) as (_ & _ & _ & ->).
  by rewrite Hl, Hp, Ho.
Qed.

(** C5: Checking fruit [f]'s box (it was unchecked) when the other
    fruit is loaded hides the other fruit and forces its override to
    [false], whatever that override was; [f] itself is shown if loaded. *)
Theorem onFruitChange_hides_other f s :
  checkbox (slot f s) = false -> present (other f) s = true ->
  fruit_visible (other f) (onFruitChange f s) = false /\
  override (slot (other f) (onFruitChange f s)) = Some false /\
  fruit_visible f (onFruitChange f s) = present f s.
Proof.
  intros Hc Hp. destruct (onFruitChange_fields f s) as (_ & Hv & Ho & Hvo & _).
  rewrite Hc, Hp in *. simpl in *. rewrite Hv, andb_true_r. done.
Qed.

(** ** At most one fruit visible *)

Lemma FInv_initial : FInv initialFruitState.
Proof. split_and!; [intros _ []; split; reflexivity | by intros [] | by intros []]. Qed.

Lemma FInv_visible_update size s f :
  FInv s -> fruitsLoaded s = true ->
  fruit_visible f (updateFruitVisibility size s) = true ->
  fruit_visible (other f) (updateFruitVisibility size s) = false.
Proof.
  intros (_ & Hov & _) Hl.
  destruct (updateFruitVisibility_fields size s f) as (_ & _ & _ & ->).
  destruct (updateFruitVisibility_fields size s (other f)) as (_ & _ & _ & ->).
  rewrite Hl. intros [Hp Hf]%andb_prop.
  destruct (present (other f) s) eqn:Hpo; [|done]. simpl.
  destruct (override (slot f s)) as [[]|] eqn:Hof; simpl in Hf; try discriminate.
  - destruct (Hov f Hof Hp) as [?| ->]; [congruence|done].
  - destruct (override (slot (other f) s)) as [[]|] eqn:Hoo; [|done|].
    + destruct (Hov (other f) Hoo Hpo) as [Hc|Hc]; rewrite other_involutive in Hc;
        congruence.
    + apply String.eqb_eq in Hf. subst size. destruct f; reflexivity.
Qed.

Lemma FInv_step s s' : FInv s -> fstep s s' -> FInv s'.
Proof.
  intros Hi Hst. pose proof Hi as (Hpre & Hov & Hvis). destruct Hst as [so ao s Hl|f0 s Hl|size s|s|s].
  - (* the fruits arrive, hidden *)
    split_and!.
    + intros Hl'. destruct (loadFruitsDone_fields so ao s Strawberry) as (_ & _ & _ & Hl'').
      congruence.
    + intros f Ho. destruct (loadFruitsDone_fields so ao s f) as (Ho' & _).
      rewrite Ho', (proj1 (Hpre Hl f)) in Ho. discriminate.
    + intros f Hv. exfalso.
      destruct (loadFruitsDone_fields so ao s f) as (_ & _ & Hv' & _). rewrite Hv' in Hv.
      destruct (match f with Strawberry => so | Apple => ao end); [discriminate|].
      apply fruit_visible_present in Hv. by rewrite (proj2 (Hpre Hl f)) in Hv.
  - (* a checkbox, after loading *)
    assert (Hboth : forall g, g = f0 \/ g = other f0) by (destruct f0, g; auto).
    destruct (onFruitChange_fields f0 s) as (Ho0 & Hv0 & Ho1 & Hv1 & Hp0 & Hp1 & Hl').
    set (ch := negb (checkbox (slot f0 s))) in *.
    split_and!.
    + rewrite Hl'. congruence.
    + intros g Hog Hpg. destruct (Hboth g) as [->| ->].
      * rewrite Hp1, Ho1. destruct (present (other f0) s); [right|left]; simpl;
          [|done]. rewrite Ho0 in Hog. injection Hog as ->. done.
      * rewrite other_involutive, Hp0, Ho0. rewrite Ho1, Hp1 in *.
        destruct (ch && present (other f0) s) eqn:E; [discriminate|].
        right. destruct ch; [|done]. simpl in E. congruence.
    + intros g Hvg. destruct (Hboth g) as [->| ->].
      * rewrite Hv1. rewrite Hv0 in Hvg. apply andb_prop in Hvg as [_ ->]. simpl.
        destruct (present (other f0) s) eqn:E; [done|].
        destruct (fruit_visible (other f0) s) eqn:E'; [|done].
        apply fruit_visible_present in E'. congruence.
      * rewrite other_involutive, Hv0. rewrite Hv1 in Hvg.
        destruct (ch && present (other f0) s) eqn:E; [discriminate|].
        destruct ch; [|apply andb_false_r]. simpl in E.
        apply fruit_visible_present in Hvg. congruence.
  - (* updateFruitVisibility *)
    destruct (fruitsLoaded s) eqn:Hl.
    + split_and!.
      * destruct (updateFruitVisibility_fields size s Strawberry) as (_ & _ & -> & _). congruence.
      * intros f. destruct (updateFruitVisibility_fields size s f) as (-> & -> & _).
        destruct (updateFruitVisibility_fields size s (other f)) as (-> & -> & _). apply Hov.
      * intros f. by apply FInv_visible_update.
    + assert (Hsame : forall f, override (slot f (updateFruitVisibility size s)) = override (slot f s) /\
                present f (updateFruitVisibility size s) = present f s /\
                fruit_visible f (updateFruitVisibility size s) = fruit_visible f s /\
                fruitsLoaded (updateFruitVisibility size s) = fruitsLoaded s).
      { intros f. destruct (updateFruitVisibility_fields size s f) as (? & ? & ? & Hv).
        rewrite Hl in Hv. done. }
      split_and!.
      * intros _ f. destruct (Hsame f) as (-> & -> & _). by apply Hpre.
      * intros f. destruct (Hsame f) as (-> & -> & _), (Hsame (other f)) as (-> & -> & _). apply Hov.
      * intros f. destruct (Hsame f) as (_ & _ & -> & _), (Hsame (other f)) as (_ & _ & -> & _).
        apply Hvis.
  - (* positionFruits *)
    split_and!.
    + intros Hl f. destruct (positionFruits_fields s f) as (-> & -> & _ & Hl').
      apply Hpre. congruence.
    + intros f. destruct (positionFruits_fields s f) as (-> & -> & _),
        (positionFruits_fields s (other f)) as (-> & -> & _). apply Hov.
    + intros f. destruct (positionFruits_fields s f) as (_ & _ & -> & _),
        (positionFruits_fields s (other f)) as (_ & _ & -> & _). apply Hvis.
  - (* rebuilding the fruit checkboxes *)
    split_and!.
    + intros Hl f. destruct (rebuildFruitCheckboxes_fields s f) as (-> & -> & _ & Hl').
      apply Hpre. congruence.
    + intros f. destruct (rebuildFruitCheckboxes_fields s f) as (-> & -> & _),
        (rebuildFruitCheckboxes_fields s (other f)) as (-> & -> & _). apply Hov.
    + intros f. destruct (rebuildFruitCheckboxes_fields s f) as (_ & _ & -> & _),
        (rebuildFruitCheckboxes_fields s (other f)) as (_ & _ & -> & _). apply Hvis.
Qed.

(** C17: If no fruit checkbox is used before [loadFruits] completes, at
    most one reference fruit is ever visible, whatever the sequence of
    size changes, checkbox clicks, repositionings and list rebuilds. *)
Theorem at_most_one_fruit_visible s :
  rtc fstep initialFruitState s ->
  ~ (fruit_visible Strawberry s = true /\ fruit_visible Apple s = true).
Proof.
  intros Hr. assert (FInv s) as (_ & _ & Hvis).
  { generalize FInv_initial. induction Hr as [|x y z Hxy _ IH]; intros Hx; [done|].
    apply IH. by eapply FInv_step. }
  intros [Hs Ha]. specialize (Hvis Strawberry Hs). simpl in Hvis. congruence.
Qed.

(** C18: Without that restriction the exclusion fails: whenever neither
    fruit mesh has loaded yet and both boxes are unchecked, checking the
    two boxes one after the other (in either order) leaves both
    overrides [true], because neither handler can hide a fruit whose
    object does not exist yet; once [loadFruits] has added both fruits,
    every later [updateFruitVisibility], whatever the size, shows both. *)
Theorem both_fruits_visible_when_toggled_early f s size :
  object (strawberrySlot s) = None -> object (appleSlot s) = None ->
  checkbox (strawberrySlot s) = false -> checkbox (appleSlot s) = false ->
  let s' := updateFruitVisibility size (loadFruitsDone true true (onFruitChange (other f) (onFruitChange f s))) in
  fruit_visible Strawberry s' = true /\ fruit_visible Apple s' = true.
Proof.
  destruct s as [[o1 ob1 c1] [o2 ob2 c2] fl cs]; simpl. intros -> -> -> ->.
  by destruct f.
Qed.

(** The user checks the apple, then the strawberry, right after the
    page loads. *)
Lemma both_fruits_visible_when_toggled_early_witness :
  let s' := updateFruitVisibility "1.5" (loadFruitsDone true true
              (onFruitChange Strawberry (onFruitChange Apple initialFruitState))) in
  fruit_visible Strawberry s' = true /\ fruit_visible Apple s' = true.
Proof. apply (both_fruits_visible_when_toggled_early Apple); reflexivity. Defined.

Lemma updateFruitVisibility_auto_witness :
  fruit_visible Apple (updateFruitVisibility "2.0" (loadFruitsDone true true initialFruitState)) = true.
Proof.
  rewrite (updateFruitVisibility_auto "2.0" (loadFruitsDone true true initialFruitState) Apple);
    reflexivity.
Defined.

Lemma onFruitChange_hides_other_witness :
  let s := updateFruitVisibility "2.0" (loadFruitsDone true true initialFruitState) in
  fruit_visible Apple (onFruitChange Strawberry s) = false.
Proof.
  intros s. apply (proj1 (onFruitChange_hides_other Strawberry s eq_refl eq_refl)).
Defined.

Lemma at_most_one_fruit_visible_witness :
  let s := onFruitChange Apple (updateFruitVisibility "1.0" (loadFruitsDone true true initialFruitState)) in
  ~ (fruit_visible Strawberry s = true /\ fruit_visible Apple s = true).
Proof.
  cbv zeta. apply at_most_one_fruit_visible.
  eapply rtc_l; [apply FLoad; reflexivity|].
  eapply rtc_l; [apply FUpdate|].
  eapply rtc_l; [apply FToggle; reflexivity|]. reflexivity.
Defined.
