(* ===== verification/FruitModel.v ===== *)
(** * FruitModel: [loadFruitModel] and [applyFallbackColors]

    [loadFruitModel(config)] loads a fruit mesh with [OBJLoader]; a
    failed load resolves to [null].  A loaded object is scaled, labelled
    and marked as a fruit, and then either textured (the base-colour
    texture loaded) or coloured procedurally by [applyFallbackColors]
    (the texture failed).

    The loaded object is the list of the nodes [obj.traverse] visits:
    whether the node is a mesh, and the Y coordinates of its position
    attribute when it has one.  The result records, per node, the label
    and material the code assigns ([None]: the node is left alone).

    [applyFallbackColors] classifies meshes by vertex heights.  For the
    strawberry, a mesh with more than 30% of its vertices above
    [min + 0.78 * (max - min)] of the whole object is leaves, else body.
    For the apple, a mesh with fewer than 1000 vertices whose lowest
    vertex is above [0.85 * max] is stem, else body.  The folds start
    from [-Infinity] / [Infinity] and divide counts, so the model
    computes in [JsNum.jsnum].

    Coordinates are exact rationals.  The strawberry's ratio test
    [leaf / count > 0.3] agrees with doubles for vertex counts below
    [10^15]: a ratio [k / n] other than [3/10] is at least [1 / (10 n)]
    away from it, more than the rounding error of either side. *)

From S2P Require Import Prelude JsNum Catalog.
Open Scope string_scope.

(** A node visited by [obj.traverse]: [isMesh], and
    [geometry.attributes.position] as the list of its Y coordinates
    ([None]: no geometry or no position attribute). *)
Record Node3 := mkNode3 { isMesh : bool; positionsY : option (list Q) }.

(** The [MeshStandardMaterial]s the code creates. *)
Inductive FruitMaterial :=
  | Textured (roughness metalness : Q)
  | Colored (color : Z) (roughness metalness : Q).

(** The loaded fruit object: [scale], [userData.label],
    [userData.isFruit] of the root, and per node the label and material
    assigned to it. *)
Record FruitModel := mkFruitModel {
  fm_scale : Q; fm_label : string; fm_isFruit : bool;
  fm_nodes : list (option (string * FruitMaterial)) }.

Definition strawberryBodyMaterial : FruitMaterial := Colored 15087942 (1 # 2) (5 # 100).
Definition strawberryLeavesMaterial : FruitMaterial := Colored 2976335 (6 # 10) 0.
Definition appleBodyMaterial : FruitMaterial := Colored 12653087 (3 # 10) (1 # 10).
Definition appleStemMaterial : FruitMaterial := Colored 6045747 (8 # 10) 0.

(** All Y coordinates of the nodes the first traversal reads. *)
Definition allY (nodes : list Node3) : list Q :=
  concat (map (fun n => if isMesh n then default [] (positionsY n) else []) nodes).

Definition jfoldmax (init : jsnum) (ys : list Q) : jsnum :=
  fold_left (fun m y => jmax m (JFin y)) ys init.

Definition jfoldmin (init : jsnum) (ys : list Q) : jsnum :=
  fold_left (fun m y => jmin m (JFin y)) ys init.

(** [leafThreshold = globalMinY + height * 0.78] *)
Definition leafThreshold (nodes : list Node3) : jsnum :=
  let globalMaxY := jfoldmax JMInf (allY nodes) in
  let globalMinY := jfoldmin JPInf (allY nodes) in
  jadd globalMinY (jmulc (jsub globalMaxY globalMinY) (78 # 100)).

Definition count_above (th : jsnum) (ys : list Q) : nat :=
  length (filter (fun y => jgt (JFin y) th = true) ys).

(** The strawberry branch, per node. *)
Definition strawberryNode (th : jsnum) (label : string) (n : Node3) : option (string * FruitMaterial) :=
  if isMesh n then
    Some (label,
      match positionsY n with
      | Some ys =>
          if jgt (jdiv_nat (count_above th ys) (length ys)) (JFin (3 # 10))
          then strawberryLeavesMaterial else strawberryBodyMaterial
      | None => strawberryBodyMaterial
      end)
  else None.

(** The apple branch, per node: [avgY] is computed by the code but not
    used. *)
Definition appleNode (globalMaxY : jsnum) (label : string) (n : Node3) : option (string * FruitMaterial) :=
  if isMesh n then
    Some (label,
      match positionsY n with
      | Some ys =>
          let minLocalY := jfoldmin JPInf ys in
          if Nat.ltb (length ys) 1000 && jgt minLocalY (jmulc globalMaxY (85 # 100))
          then appleStemMaterial else appleBodyMaterial
      | None => appleBodyMaterial
      end)
  else None.

(** The branch of [applyFallbackColors] for [config], applied to one
    node; the globals are computed once per call, over all nodes. *)
Definition fallbackNode (f : Fruit) (nodes : list Node3) : Node3 -> option (string * FruitMaterial) :=
  let label := fruitLabel (FRUIT_CONFIG f) in
  match f with
  | Strawberry => strawberryNode (leafThreshold nodes) label
  | Apple => appleNode (jfoldmax JMInf (allY nodes)) label
  end.

(** [applyFallbackColors(obj, config)] *)
Definition applyFallbackColors (f : Fruit) (nodes : list Node3) : list (option (string * FruitMaterial)) :=
  map (fallbackNode f nodes) nodes.

(** The texture callback: every mesh gets the textured material and
    the label. *)
Definition applyTexture (label : string) (nodes : list Node3) : list (option (string * FruitMaterial)) :=
  map (fun n => if isMesh n then Some (label, Textured (1 # 2) (5 # 100)) else None) nodes.

(** [loadFruitModel(config)], given the outcome of the OBJ load
    ([None]: the error callback) and of the texture load. *)
Definition loadFruitModel (f : Fruit) (obj : option (list Node3)) (textureOk : bool) : option FruitModel :=
  nodes ← obj;
  let cfg := FRUIT_CONFIG f in
  Some (mkFruitModel (scale cfg) (fruitLabel cfg) true
          (if textureOk then applyTexture (fruitLabel cfg) nodes
           else applyFallbackColors f nodes)).

(** Moving every vertex by [y ↦ k * y + t]. *)
Definition node_affine (k t : Q) (n : Node3) : Node3 :=
  mkNode3 (isMesh n) (map (fun y => k * y + t)%Q <$> positionsY n).

Definition is_colored (m : FruitMaterial) : bool :=
  match m with Colored _ _ _ => true | Textured _ _ => false end.

(** ** Folds under an increasing affine map *)

#[export] Instance jfoldmax_proper : Proper (jeq ==> eq ==> jeq) jfoldmax.
Proof.
  intros a b Hab ys ? <-. unfold jfoldmax. revert a b Hab.
  induction ys as [|y ys IH]; intros a b Hab; simpl; [done|]. apply IH. by rewrite Hab.
Qed.

#[export] Instance jfoldmin_proper : Proper (jeq ==> eq ==> jeq) jfoldmin.
Proof.
  intros a b Hab ys ? <-. unfold jfoldmin. revert a b Hab.
  induction ys as [|y ys IH]; intros a b Hab; simpl; [done|]. apply IH. by rewrite Hab.
Qed.

Section affine_nodes.
Context (k t : Q) (Hk : (0 < k)%Q).

Lemma jfoldmax_aff init ys :
  jeq (jfoldmax (jaff k t init) (map (fun y => k * y + t)%Q ys)) (jaff k t (jfoldmax init ys)).
Proof.
  unfold jfoldmax. revert init. induction ys as [|y ys IH]; intros init; simpl; [reflexivity|].
  rewrite <- IH. apply jfoldmax_proper; [|done]. exact (jmax_aff k t Hk init (JFin y)).
Qed.

Lemma jfoldmin_aff init ys :
  jeq (jfoldmin (jaff k t init) (map (fun y => k * y + t)%Q ys)) (jaff k t (jfoldmin init ys)).
Proof.
  unfold jfoldmin. revert init. induction ys as [|y ys IH]; intros init; simpl; [reflexivity|].
  rewrite <- IH. apply jfoldmin_proper; [|done]. exact (jmin_aff k t Hk init (JFin y)).
Qed.

Lemma allY_affine nodes :
  allY (map (node_affine k t) nodes) = map (fun y => k * y + t)%Q (allY nodes).
Proof.
  unfold allY. induction nodes as [|[[] [ys|]] nodes IH]; simpl; rewrite ?IH, ?map_app; done.
Qed.

Lemma leafThreshold_affine nodes :
  jeq (leafThreshold (map (node_affine k t) nodes)) (jaff k t (leafThreshold nodes)).
Proof.
  unfold leafThreshold. rewrite allY_affine.
  change JMInf with (jaff k t JMInf) at 1. change JPInf with (jaff k t JPInf) at 1.
  rewrite <- (jthreshold_aff k t (78 # 100)).
  pose proof (jfoldmax_aff JMInf (allY nodes)) as Hmx.
  pose proof (jfoldmin_aff JPInf (allY nodes)) as Hmn.
  destruct (jfoldmax _ (map _ _)), (jaff k t (jfoldmax _ _)); simpl in Hmx; try done;
  destruct (jfoldmin _ (map _ _)), (jaff k t (jfoldmin _ _)); simpl in Hmn; try done;
  simpl; try (destruct (Qcompare _ 0)); simpl; try done; rewrite ?Hmx, ?Hmn; reflexivity.
Qed.

Lemma count_above_affine th th' ys :
  jeq th' (jaff k t th) ->
  count_above th' (map (fun y => k * y + t)%Q ys) = count_above th ys.
Proof.
  intros Hth. unfold count_above. induction ys as [|y ys IH]; [done|].
  cbn [map]. rewrite !filter_cons.
  replace (jgt (JFin (k * y + t)) th') with (jgt (JFin y) th)
    by (rewrite Hth; exact (eq_sym (jgt_aff k t Hk (JFin y) th))).
  destruct (decide (jgt (JFin y) th = true)); cbn [length]; [f_equal|]; exact IH.
Qed.

End affine_nodes.

Lemma fallbackNode_mesh f nodes n :
  isMesh n = true ->
  exists m, fallbackNode f nodes n = Some (fruitLabel (FRUIT_CONFIG f), m) /\ is_colored m = true.
Proof.
  intros Hm. destruct f; simpl; unfold strawberryNode, appleNode; rewrite Hm;
    eexists; split; try reflexivity; repeat case_match; reflexivity.
Qed.

Lemma fallbackNode_other f nodes n : isMesh n = false -> fallbackNode f nodes n = None.
Proof. intros Hm. destruct f; simpl; unfold strawberryNode, appleNode; by rewrite Hm. Qed.

(** ** Theorems *)

(** C13: [loadFruitModel] fails only when the mesh fails: a failed OBJ
    load gives [null]; otherwise the object is scaled and marked as a
    fruit, every mesh carries the fruit's label, and a mesh is textured
    exactly when the texture loaded (a texture failure falls back to a
    procedural colour, never to an error); other nodes are untouched. *)
Theorem loadFruitModel_spec f obj textureOk :
  match obj with
  | None => loadFruitModel f obj textureOk = None
  | Some nodes =>
      exists m, loadFruitModel f obj textureOk = Some m /\
        fm_scale m = scale (FRUIT_CONFIG f) /\ fm_label m = fruitLabel (FRUIT_CONFIG f) /\
        fm_isFruit m = true /\ length (fm_nodes m) = length nodes /\
        forall i n, nodes !! i = Some n ->
          (isMesh n = false -> fm_nodes m !! i = Some None) /\
          (isMesh n = true -> exists mat,
             fm_nodes m !! i = Some (Some (fruitLabel (FRUIT_CONFIG f), mat)) /\
             is_colored mat = negb textureOk)
  end.
Proof.
  destruct obj as [nodes|]; [|done]. eexists. split; [reflexivity|]. simpl.
  split_and!; try done; [by destruct textureOk; apply length_map|].
  intros i n Hn. destruct textureOk; simpl; unfold applyFallbackColors, applyTexture;
    rewrite map_lookup, Hn; simpl; split; intros Hm.
  - by rewrite Hm.
  - rewrite Hm. by eexists.
  - by rewrite fallbackNode_other.
  - destruct (fallbackNode_mesh f nodes n Hm) as (m & -> & Hc). by exists m.
Qed.

(** C14: The strawberry's leaf/body classification does not depend on
    where the mesh sits or on its size: moving every vertex by
    [y ↦ k * y + t] with [k > 0] gives the same materials. *)
Theorem strawberry_colours_affine_invariant k t nodes :
  (0 < k)%Q ->
  applyFallbackColors Strawberry (map (node_affine k t) nodes) = applyFallbackColors Strawberry nodes.
Proof.
  intros Hk. unfold applyFallbackColors. rewrite map_map. apply map_ext.
  intros [[] [ys|]]; simpl; unfold strawberryNode, node_affine; simpl; try done.
  rewrite length_map, (count_above_affine k t Hk (leafThreshold nodes)); [done|].
  by apply leafThreshold_affine.
Qed.

(** C32: The apple's stem rule compares with [0.85 * globalMaxY], a
    fraction of the distance from the origin rather than of the
    object's height: scaling the object keeps its colours, but moving
    it along Y can turn a stem into body. *)
Theorem apple_stem_rule_depends_on_origin :
  (forall k nodes, (0 < k)%Q ->
     applyFallbackColors Apple (map (node_affine k 0) nodes) = applyFallbackColors Apple nodes) /\
  let nodes := [mkNode3 true (Some [9; 10]); mkNode3 true (Some [0; 10])] in
  applyFallbackColors Apple (map (node_affine 1 (-20)) nodes) <> applyFallbackColors Apple nodes.
Proof.
  split; [|vm_compute; congruence].
  intros k nodes Hk. unfold applyFallbackColors, fallbackNode. cbv beta iota.
  rewrite allY_affine, map_map. apply map_ext.
  intros [[] [ys|]]; unfold appleNode, node_affine; simpl; try done. rewrite length_map.
  assert (E : jgt (jfoldmin JPInf (map (fun y => k * y + 0)%Q ys))
                  (jmulc (jfoldmax JMInf (map (fun y => k * y + 0)%Q (allY nodes))) (85 # 100)) =
              jgt (jfoldmin JPInf ys) (jmulc (jfoldmax JMInf (allY nodes)) (85 # 100))).
  { rewrite <- (jgt_aff k 0 Hk (jfoldmin JPInf ys)). apply jgt_proper.
    - exact (jfoldmin_aff k 0 Hk JPInf ys).
    - rewrite <- jmulc_scale. apply jmulc_proper; [exact (jfoldmax_aff k 0 Hk JMInf _)|done]. }
  by rewrite E.
Qed.

(** C33: An apple mesh whose position attribute is empty is coloured as
    a stem: its [minLocalY] stays [Infinity], which is above any
    threshold.  The strawberry colours such a mesh as body ([0 / 0] is
    [NaN], and [NaN > 0.3] is false). *)
Theorem empty_mesh_colours nodes i :
  nodes !! i = Some (mkNode3 true (Some [])) ->
  applyFallbackColors Apple nodes !! i = Some (Some (fruitLabel (FRUIT_CONFIG Apple), appleStemMaterial)) /\
  applyFallbackColors Strawberry nodes !! i =
    Some (Some (fruitLabel (FRUIT_CONFIG Strawberry), strawberryBodyMaterial)).
Proof.
  intros Hn. unfold applyFallbackColors. rewrite !map_lookup, Hn. simpl.
  split; [|reflexivity]. do 2 f_equal.
  assert (Hmax : forall ys init, init = JMInf \/ (exists q, init = JFin q) ->
            jfoldmax init ys = JMInf \/ exists q, jfoldmax init ys = JFin q).
  { intros ys. unfold jfoldmax. induction ys as [|y ys IH]; intros init Hi; simpl; [done|].
    apply IH. destruct Hi as [->|[q ->]]; right; eexists; reflexivity. }
  destruct (Hmax (allY nodes) JMInf (or_introl eq_refl)) as [->|[q ->]]; reflexivity.
Qed.

Lemma strawberry_colours_affine_invariant_witness :
  let nodes := [mkNode3 false None; mkNode3 true (Some [0; 1; 2]); mkNode3 true (Some [9; 10])] in
  applyFallbackColors Strawberry (map (node_affine 2 5) nodes) = applyFallbackColors Strawberry nodes.
Proof. intros nodes. apply strawberry_colours_affine_invariant. lra. Defined.

Lemma apple_stem_rule_depends_on_origin_witness :
  let nodes := [mkNode3 true (Some [9; 10]); mkNode3 true (Some [0; 10])] in
  applyFallbackColors Apple (map (node_affine 3 0) nodes) = applyFallbackColors Apple nodes.
Proof. intros nodes. apply (proj1 apple_stem_rule_depends_on_origin). lra. Defined.

Lemma empty_mesh_colours_witness :
  applyFallbackColors Apple [mkNode3 false None; mkNode3 true (Some [])] !! 1%nat =
  Some (Some (fruitLabel (FRUIT_CONFIG Apple), appleStemMaterial)).
Proof. apply (proj1 (empty_mesh_colours [mkNode3 false None; mkNode3 true (Some [])] 1 eq_refl)). Defined.
