(* ===== verification/Loader.v ===== *)
(** * Loader: the viewer as a state machine over its event loop

    The world holds every global of [gripper-viewer.js] that a handler
    writes: the load token, the object store and the collections that
    alias into it ([group.children], [componentObjects], [leftFinger],
    [rightFinger]), [group.position], [fingerOpenDistance], the checklist
    and fruit state, the DOM readouts, and the pool of pending
    asynchronous continuations.  A continuation is a [Task]: a part load
    in flight ([loadPart]'s callbacks), the [Promise.all] join of a size
    load, the pad-dimension fetch, the rest of [loadSize] after
    [await updatePadDimensions(...)], and [loadFruits].

    [exec] runs one event: a UI input or the completion of a pending
    task, whose outcome (mesh or failure, response text or failure) the
    event carries.  Which task completes next is the event's choice, so
    every interleaving the browser can produce is a sequence of events.
    [exec] returns [None] when the event is not enabled (no such task,
    or a join whose part loads have not all settled). *)

From S2P Require Import Prelude Catalog Geometry Scene Openness PadDims Checklist Fruit.
From Stdlib Require Import Qminmax.
Open Scope string_scope.

(** ** Tasks, events and the world *)

Inductive Task :=
  | TPart (tok : nat) (size : string) (part : Part)
  | TJoin (tok : nat) (size : string) (results : list bool)
  | TPad (tok : nat) (size : string) (missing : nat)
  | TTail (tok : nat) (size : string) (missing : nat)
  | TFruits.

Definition task_token (t : Task) : option nat :=
  match t with
  | TPart tok _ _ | TJoin tok _ _ | TPad tok _ _ | TTail tok _ _ => Some tok
  | TFruits => None
  end.

Definition task_size (t : Task) : option string :=
  match t with
  | TPart _ size _ | TJoin _ size _ | TPad _ size _ | TTail _ size _ => Some size
  | TFruits => None
  end.

Inductive Event :=
  | EvSizeInput (v : Z)                  (** the size slider's [input] *)
  | EvOpennessInput (v : Z)              (** the openness slider's [input] *)
  | EvPartChange (groupName partFile : string)
  | EvGroupChange (groupName : string)
  | EvGroupToggle (groupName : string)
  | EvFruitChange (f : Fruit)
  | EvPartLoaded (i : nat) (mesh : option box3)   (** [None]: the loader's error callback *)
  | EvJoin (i : nat)
  | EvPadFetched (i : nat) (body : option string) (** [None]: rejected, not ok, or unreadable *)
  | EvTail (i : nat)
  | EvFruitsLoaded (i : nat) (strawberryOk appleOk : bool).

Record World := mkWorld {
  loadToken : nat;
  store : Store;
  nextId : nat;
  groupChildren : list nat;
  groupPosition : vec3;
  componentObjects : gmap string nat;
  leftFinger : list nat;
  rightFinger : list nat;
  fingerOpenDistance : Q;
  modelSize : vec3;
  cameraPosition : vec3;
  checklist : Checklist;
  fruit : FruitState;
  sliderValue : Z;
  sizeValueText : string;
  opennessSliderValue : Z;
  openness : OpennessView;
  sizeReadout : string;
  padDimsReadout : string;
  lastLabel : string;
  labelVisible : bool;
  prefetched : list string;
  warnings : list (string * nat);
  pending : list Task }.

(** Functional record update, one field at a time. *)
Definition with_pending (p : list Task) (w : World) : World :=
  mkWorld (loadToken w) (store w) (nextId w) (groupChildren w) (groupPosition w)
    (componentObjects w) (leftFinger w) (rightFinger w) (fingerOpenDistance w)
    (modelSize w) (cameraPosition w) (checklist w) (fruit w) (sliderValue w)
    (sizeValueText w) (opennessSliderValue w) (openness w) (sizeReadout w)
    (padDimsReadout w) (lastLabel w) (labelVisible w) (prefetched w) (warnings w) p.

Definition with_store (st : Store) (w : World) : World :=
  mkWorld (loadToken w) st (nextId w) (groupChildren w) (groupPosition w)
    (componentObjects w) (leftFinger w) (rightFinger w) (fingerOpenDistance w)
    (modelSize w) (cameraPosition w) (checklist w) (fruit w) (sliderValue w)
    (sizeValueText w) (opennessSliderValue w) (openness w) (sizeReadout w)
    (padDimsReadout w) (lastLabel w) (labelVisible w) (prefetched w) (warnings w) (pending w).

Definition with_fruit (fs : FruitState) (w : World) : World :=
  mkWorld (loadToken w) (store w) (nextId w) (groupChildren w) (groupPosition w)
    (componentObjects w) (leftFinger w) (rightFinger w) (fingerOpenDistance w)
    (modelSize w) (cameraPosition w) (checklist w) fs (sliderValue w)
    (sizeValueText w) (opennessSliderValue w) (openness w) (sizeReadout w)
    (padDimsReadout w) (lastLabel w) (labelVisible w) (prefetched w) (warnings w) (pending w).

Definition with_checklist (c : Checklist) (st : Store) (w : World) : World :=
  mkWorld (loadToken w) st (nextId w) (groupChildren w) (groupPosition w)
    (componentObjects w) (leftFinger w) (rightFinger w) (fingerOpenDistance w)
    (modelSize w) (cameraPosition w) c (rebuildFruitCheckboxes (fruit w)) (sliderValue w)
    (sizeValueText w) (opennessSliderValue w) (openness w) (sizeReadout w)
    (padDimsReadout w) (lastLabel w) (labelVisible w) (prefetched w) (warnings w) (pending w).

Definition with_readouts (size pad : string) (w : World) : World :=
  mkWorld (loadToken w) (store w) (nextId w) (groupChildren w) (groupPosition w)
    (componentObjects w) (leftFinger w) (rightFinger w) (fingerOpenDistance w)
    (modelSize w) (cameraPosition w) (checklist w) (fruit w) (sliderValue w)
    (sizeValueText w) (opennessSliderValue w) (openness w) size pad
    (lastLabel w) (labelVisible w) (prefetched w) (warnings w) (pending w).

(** The size the UI last asked for: [SIZES[slider.value]]. *)
Definition requestedSize (w : World) : string := default "" (js_index SIZES (sliderValue w)).

(** ** [loadSize] and [setSizeByIndex] *)

(** [loadSize(size)] up to its first [await]: bump the token, reset the
    label, clear [group] and [componentObjects], and start one
    [loadPart] per part plus the [Promise.all] join, all tagged with the
    new token. *)
Definition loadSize (size : string) (w : World) : World :=
  let tok := S (loadToken w) in
  mkWorld tok (store w) (nextId w) [] (groupPosition w) ∅ (leftFinger w) (rightFinger w)
    (fingerOpenDistance w) (modelSize w) (cameraPosition w) (checklist w) (fruit w)
    (sliderValue w) (sizeValueText w) (opennessSliderValue w) (openness w) (sizeReadout w)
    (padDimsReadout w) "" false (prefetched w) (warnings w)
    (pending w ++ map (TPart tok size) PARTS ++ [TJoin tok size []])%list.

(** [setSizeByIndex(index)] *)
Definition setSizeByIndex (index : Z) (w : World) : World :=
  let clamped := clamp 0 (Z.of_nat (length SIZES) - 1) index in
  let size := default "" (js_index SIZES clamped) in
  loadSize size
    (mkWorld (loadToken w) (store w) (nextId w) (groupChildren w) (groupPosition w)
       (componentObjects w) (leftFinger w) (rightFinger w) (fingerOpenDistance w)
       (modelSize w) (cameraPosition w) (checklist w) (fruit w) clamped (size ++ "x")
       (opennessSliderValue w) (openness w) (sizeReadout w) (padDimsReadout w)
       (lastLabel w) (labelVisible w) (prefetched w) (warnings w) (pending w)).

(** ** [loadPart]'s callbacks *)

(** The object [loadPart] builds from a loaded mesh. *)
Definition newPartObject (size : string) (part : Part) (geom : box3)
    (vis : gmap string bool) : SceneObj :=
  mkObj (label part) (file part) (partUrl size part) (partMaterial part)
    (vis !!≠false (file part)) vzero None geom.

(** The load callback ([Some geom]) or the error callback ([None]):
    the value the promise resolves to, and the world after it. *)
Definition partLoaded (tok : nat) (size : string) (part : Part) (mesh : option box3)
    (w : World) : bool * World :=
  match mesh with
  | None => (false, w)
  | Some geom =>
      if negb (Nat.eqb tok (loadToken w)) then (false, w)
      else
        let id := nextId w in
        let o := newPartObject size part geom (componentVisibility (checklist w)) in
        (true, mkWorld (loadToken w) (<[id := o]> (store w)) (S id)
                 (groupChildren w ++ [id])%list (groupPosition w)
                 (<[file part := id]> (componentObjects w)) (leftFinger w) (rightFinger w)
                 (fingerOpenDistance w) (modelSize w) (cameraPosition w) (checklist w)
                 (fruit w) (sliderValue w) (sizeValueText w) (opennessSliderValue w)
                 (openness w) (sizeReadout w) (padDimsReadout w) (lastLabel w)
                 (labelVisible w) (prefetched w) (warnings w) (pending w))
  end.

(** A settled part load adds its boolean to the [Promise.all] results. *)
Definition add_result (tok : nat) (ok : bool) (t : Task) : Task :=
  match t with
  | TJoin tk size rs => if Nat.eqb tk tok then TJoin tk size (rs ++ [ok])%list else t
  | _ => t
  end.

Definition is_part_of (tok : nat) (t : Task) : bool :=
  match t with TPart tk _ _ => Nat.eqb tk tok | _ => false end.

(** ** Post-processing after the join *)

(** [frameObject]: recentre [group] on its bounding box, place the
    camera and print the model size. *)
Definition frameObject (w : World) : World :=
  let box := expand_by_objects (groupPosition w) (store w) BoxEmpty (groupChildren w) in
  if negb (box_finite box) then w
  else
    let sz := box_size box in
    let center := box_center box in
    let maxDim := Qmax (vx sz) (Qmax (vy sz) (vz sz)) in
    let distance := (maxDim * (14 # 10))%Q in
    let text := match toFixed1 (vx sz), toFixed1 (vy sz), toFixed1 (vz sz) with
                | Some a, Some b, Some c => a ++ " x " ++ b ++ " x " ++ c
                | _, _, _ => sizeReadout w
                end in
    mkWorld (loadToken w) (store w) (nextId w) (groupChildren w) (vsub (groupPosition w) center)
      (componentObjects w) (leftFinger w) (rightFinger w) (fingerOpenDistance w)
      sz (V3 distance distance distance) (checklist w) (fruit w) (sliderValue w)
      (sizeValueText w) (opennessSliderValue w) (openness w) text (padDimsReadout w)
      (lastLabel w) (labelVisible w) (prefetched w) (warnings w) (pending w).

(** [child.userData.basePosition = child.position.clone()] for every
    child of [group]. *)
Definition captureBasePositions (w : World) : World :=
  with_store (fold_left (fun st id => alter (fun o => set_base (Some (o_position o)) o) id st)
                        (groupChildren w) (store w)) w.

Definition partFileOf (st : Store) (id : nat) : string :=
  default "" (o_partFile <$> st !! id).

(** [collectFingerGroups] *)
Definition collectFingerGroups (w : World) : World :=
  let isLeft id := bool_decide (partFileOf (store w) id ∈ LEFT_FINGER_PARTS) in
  let isRight id := bool_decide (partFileOf (store w) id ∈ RIGHT_FINGER_PARTS) in
  let left := filter (fun id => isLeft id = true) (groupChildren w) in
  let right := filter (fun id => isLeft id = false /\ isRight id = true) (groupChildren w) in
  let fod := match left, right with
             | [], _ | _, [] => 0%Q
             | _, _ => Qmax (vx (box_size (expand_by_objects (groupPosition w) (store w) BoxEmpty left))) 0
             end in
  mkWorld (loadToken w) (store w) (nextId w) (groupChildren w) (groupPosition w)
    (componentObjects w) left right fod (modelSize w) (cameraPosition w) (checklist w)
    (fruit w) (sliderValue w) (sizeValueText w) (opennessSliderValue w) (openness w)
    (sizeReadout w) (padDimsReadout w) (lastLabel w) (labelVisible w) (prefetched w)
    (warnings w) (pending w).

(** [applyOpenness(Number(opennessSlider.value) / 100)] *)
Definition applyOpennessW (w : World) : World :=
  let op := sliderOpenness (opennessSliderValue w) in
  mkWorld (loadToken w)
    (applyOpenness_store (fingerOpenDistance w) op (groupChildren w) (leftFinger w)
       (rightFinger w) (store w))
    (nextId w) (groupChildren w) (groupPosition w) (componentObjects w) (leftFinger w)
    (rightFinger w) (fingerOpenDistance w) (modelSize w) (cameraPosition w) (checklist w)
    (fruit w) (sliderValue w) (sizeValueText w) (opennessSliderValue w) (opennessView op)
    (sizeReadout w) (padDimsReadout w) (lastLabel w) (labelVisible w) (prefetched w)
    (warnings w) (pending w).

(** [loadSize] after [await Promise.all(...)]: give up when superseded,
    otherwise frame, capture bases, collect fingers, reapply the
    openness, and start [updatePadDimensions]. *)
Definition joinDone (tok : nat) (size : string) (results : list bool) (w : World) : World :=
  if negb (Nat.eqb tok (loadToken w)) then w
  else
    let w := applyOpennessW (collectFingerGroups (captureBasePositions (frameObject w))) in
    let missing := length (filter (fun ok => ok = false) results) in
    with_pending (pending w ++ [TPad tok size missing])%list w.

(** [updatePadDimensions] after its fetch settled: write the readouts
    only if the token is still current, then resume [loadSize]. *)
Definition padFetched (tok : nat) (size : string) (missing : nat) (body : option string)
    (w : World) : World :=
  let w := if Nat.eqb tok (loadToken w)
           then match padReadouts body with
                | Some (a, d) => with_readouts a d w
                | None => w
                end
           else w in
  with_pending (pending w ++ [TTail tok size missing])%list w.

(** The rest of [loadSize] after [await updatePadDimensions(...)]: there
    is no token check here. *)
Definition loadSizeTail (size : string) (missing : nat) (w : World) : World :=
  mkWorld (loadToken w) (store w) (nextId w) (groupChildren w) (groupPosition w)
    (componentObjects w) (leftFinger w) (rightFinger w) (fingerOpenDistance w)
    (modelSize w) (cameraPosition w) (checklist w)
    (positionFruits (updateFruitVisibility size (fruit w))) (sliderValue w)
    (sizeValueText w) (opennessSliderValue w) (openness w) (sizeReadout w)
    (padDimsReadout w) (lastLabel w) (labelVisible w)
    (prefetched w ++ prefetchAdjacentSizes size)%list
    (warnings w ++ (if Nat.ltb 0 missing then [(size, missing)] else []))%list
    (pending w).

(** ** One event *)

Definition with_groups_only (c : Checklist) (w : World) : World :=
  mkWorld (loadToken w) (store w) (nextId w) (groupChildren w) (groupPosition w)
    (componentObjects w) (leftFinger w) (rightFinger w) (fingerOpenDistance w)
    (modelSize w) (cameraPosition w) c (fruit w) (sliderValue w)
    (sizeValueText w) (opennessSliderValue w) (openness w) (sizeReadout w)
    (padDimsReadout w) (lastLabel w) (labelVisible w) (prefetched w) (warnings w) (pending w).

Definition with_opennessSlider (v : Z) (w : World) : World :=
  mkWorld (loadToken w) (store w) (nextId w) (groupChildren w) (groupPosition w)
    (componentObjects w) (leftFinger w) (rightFinger w) (fingerOpenDistance w)
    (modelSize w) (cameraPosition w) (checklist w) (fruit w) (sliderValue w)
    (sizeValueText w) v (openness w) (sizeReadout w)
    (padDimsReadout w) (lastLabel w) (labelVisible w) (prefetched w) (warnings w) (pending w).

(** The world with the [i]-th pending task taken out. *)
Definition take_task (i : nat) (w : World) : World := with_pending (delete i (pending w)) w.

Definition exec (w : World) (ev : Event) : option World :=
  match ev with
  | EvSizeInput v => Some (setSizeByIndex v w)
  | EvOpennessInput v => Some (applyOpennessW (with_opennessSlider v w))
  | EvPartChange g f =>
      '(c, st) ← onPartChange g f (componentObjects w) (checklist w) (store w);
      Some (with_checklist c st w)
  | EvGroupChange g =>
      '(c, st) ← onGroupChange g (componentObjects w) (checklist w) (store w);
      Some (with_checklist c st w)
  | EvGroupToggle g => c ← onGroupToggle g (checklist w); Some (with_groups_only c w)
  | EvFruitChange f => Some (with_fruit (onFruitChange f (fruit w)) w)
  | EvPartLoaded i mesh =>
      match pending w !! i with
      | Some (TPart tok size part) =>
          let '(ok, w') := partLoaded tok size part mesh (take_task i w) in
          Some (with_pending (map (add_result tok ok) (pending w')) w')
      | _ => None
      end
  | EvJoin i =>
      match pending w !! i with
      | Some (TJoin tok size rs) =>
          if existsb (is_part_of tok) (pending w) then None
          else Some (joinDone tok size rs (take_task i w))
      | _ => None
      end
  | EvPadFetched i body =>
      match pending w !! i with
      | Some (TPad tok size missing) => Some (padFetched tok size missing body (take_task i w))
      | _ => None
      end
  | EvTail i =>
      match pending w !! i with
      | Some (TTail tok size missing) => Some (loadSizeTail size missing (take_task i w))
      | _ => None
      end
  | EvFruitsLoaded i so ao =>
      match pending w !! i with
      | Some TFruits => Some (with_fruit (loadFruitsDone so ao (fruit w)) (take_task i w))
      | _ => None
      end
  end.

Fixpoint run (w : World) (evs : list Event) : option World :=
  match evs with
  | [] => Some w
  | ev :: evs' => w' ← exec w ev; run w' evs'
  end.

Definition step (w w' : World) : Prop := exists ev, exec w ev = Some w'.

(** ** Start-up *)

(** The module's top level: globals at their initial values,
    [opennessSlider.value = "0"], [buildComponentList()], [loadFruits()],
    [setSizeByIndex(SIZES.indexOf("1.5"))], [applyOpenness(0)]. *)
Definition preInit : World :=
  mkWorld 0 ∅ 0 [] vzero ∅ [] [] 0 vzero vzero
    (mkChecklist initialVisibility initialExpanded []) initialFruitState 0 "" 0
    (opennessView 0) "" "" "" false [] [] [].

Definition initWorld : World :=
  let w := with_checklist (rebuild (checklist preInit)) (store preInit) preInit in
  let w := with_pending (pending w ++ [TFruits])%list w in
  let w := setSizeByIndex (indexOf SIZES "1.5") w in
  applyOpennessW w.

(** ** The finger groups at a join *)

Lemma find_part_Some f p : find_part f = Some p -> file p = f /\ p ∈ PARTS.
Proof.
  unfold find_part. destruct (list_find _ PARTS) as [[i q]|] eqn:E; [|discriminate].
  intros [= <-]. apply list_find_Some in E as (Hl & Hf & _). split; [done|].
  by eapply list_elem_of_lookup_2.
Qed.

Lemma part_of_label p l f :
  p ∈ PARTS -> label p = l -> Forall (fun q => label q = l -> file q = f) PARTS -> file p = f.
Proof. intros Hp Hl HF. rewrite Forall_forall in HF. by apply HF. Qed.

(** Where [collectFingerGroups] followed by [applyOpenness] (the end of
    a [loadSize] join) puts a child of [group] whose part file is [f]:
    [f] in the left set moves by [+offset], in the right set only by
    [-offset]. *)
Lemma finger_position_at_join w id o b :
  id ∈ groupChildren w -> store w !! id = Some o -> o_basePosition o = Some b ->
  let w' := applyOpennessW (collectFingerGroups w) in
  let off := perFingerOffset (fingerOpenDistance (collectFingerGroups w)) (sliderOpenness (opennessSliderValue w)) in
  o_position <$> store w' !! id =
    Some (if bool_decide (o_partFile o ∈ LEFT_FINGER_PARTS) then addScaledVector b openAxis off
          else if bool_decide (o_partFile o ∈ RIGHT_FINGER_PARTS) then addScaledVector b openAxis (- off)
          else b).
Proof.
  intros Hid Ho Hb. simpl. rewrite applyOpenness_lookup, Ho. simpl.
  assert (Hf : partFileOf (store w) id = o_partFile o) by (unfold partFileOf; by rewrite Ho).
  repeat case_bool_decide; unfold shift_from_base, reset_to_base; simpl; rewrite ?Hb;
    rewrite ?list_elem_of_filter in *;
    rewrite ?bool_decide_eq_true, ?bool_decide_eq_false in *; rewrite ?Hf in *; naive_solver.
Qed.

(** C29: The two optical shells move with the finger opposite to their
    labels: whenever a [loadSize] join groups the fingers and applies the
    openness, a mesh labelled "Optical shell (right)" (the label
    [loadPart] gives its part) moves by [+offset] along [openAxis] like
    the left finger, and one labelled "Optical shell (left)" by
    [-offset] like the right finger, so the label shown on a click names
    the other side from the finger that moves the part. *)
Theorem optical_shells_move_with_opposite_finger w id o b :
  id ∈ groupChildren w -> store w !! id = Some o -> o_basePosition o = Some b ->
  label <$> find_part (o_partFile o) = Some (o_label o) ->
  let w' := applyOpennessW (collectFingerGroups w) in
  let off := perFingerOffset (fingerOpenDistance (collectFingerGroups w)) (sliderOpenness (opennessSliderValue w)) in
  (o_label o = "Optical shell (right)" -> o_position <$> store w' !! id = Some (addScaledVector b openAxis off)) /\
  (o_label o = "Optical shell (left)" -> o_position <$> store w' !! id = Some (addScaledVector b openAxis (- off))).
Proof.
  intros Hid Ho Hb Hl w' off. pose proof (finger_position_at_join w id o b Hid Ho Hb) as Hp.
  destruct (find_part (o_partFile o)) as [p|] eqn:Ef; [|discriminate]. injection Hl as Hl.
  destruct (find_part_Some _ _ Ef) as [Hfile Hin].
  split; intros HL; rewrite HL in Hl.
  - assert (Hf : file p = "Optical_shell_locked.001").
    { apply (part_of_label p _ _ Hin Hl). apply (bool_decide_unpack _). vm_compute. reflexivity. }
    rewrite <- Hfile, Hf in Hp. exact Hp.
  - assert (Hf : file p = "Optical_shell_locked").
    { apply (part_of_label p _ _ Hin Hl). apply (bool_decide_unpack _). vm_compute. reflexivity. }
    rewrite <- Hfile, Hf in Hp. exact Hp.
Qed.

(** The mesh of "Optical shell (right)" loaded for size 1.0, its base
    position captured at the origin. *)
Lemma optical_shells_move_with_opposite_finger_witness :
  let shell := default (mkPart "" "" "") (find_part "Optical_shell_locked.001") in
  let geom := Box vzero vzero in
  let w := captureBasePositions (partLoaded 0 "1.0" shell (Some geom) preInit).2 in
  let o := set_base (Some vzero) (newPartObject "1.0" shell geom (componentVisibility (checklist preInit))) in
  let w' := applyOpennessW (collectFingerGroups w) in
  let off := perFingerOffset (fingerOpenDistance (collectFingerGroups w)) (sliderOpenness (opennessSliderValue w)) in
  (o_label o = "Optical shell (right)" -> o_position <$> store w' !! 0%nat = Some (addScaledVector vzero openAxis off)) /\
  (o_label o = "Optical shell (left)" -> o_position <$> store w' !! 0%nat = Some (addScaledVector vzero openAxis (- off))).
Proof.
  intros shell geom w o w' off. apply (optical_shells_move_with_opposite_finger w 0%nat o vzero).
  - apply (bool_decide_unpack _). vm_compute. reflexivity.
  - vm_compute. reflexivity.
  - vm_compute. reflexivity.
  - vm_compute. reflexivity.
Defined.
