(* ===== verification/LoaderInv.v ===== *)
(** * LoaderInv: the load token keeps the scene consistent

    [LoaderInv] holds in every world reachable from [initWorld]: every
    pending continuation carries a token no newer than [loadToken], and
    the ones that carry the current token were started for the size the
    slider now selects; ids in the store are below [nextId]; and every
    child of [group] is a mesh loaded from the URL of the requested
    size.  The main consequence is [group_shows_requested_size]: however
    size changes and load completions interleave, [group] never shows a
    mesh of a size other than the one the slider selects.

    Handlers that change the store without loading ([applyOpenness],
    the checklist handlers, [captureBasePositions]) only alter objects
    in place; [keeps_identity] (in [Scene]) says so, and [same_load]
    collects the fields such a step leaves alone. *)

From S2P Require Import Prelude Catalog Geometry Scene Openness PadDims Checklist Fruit Loader.
Open Scope string_scope.

(** ** What a user sees of the scene *)

(** The part of the world that the scene and its readouts show: the
    objects, [group] and its children, the component map, the finger
    groups and the framing, and the two readouts. *)
Definition scene_of (w : World) :=
  (store w, groupChildren w, componentObjects w, groupPosition w, leftFinger w,
   rightFinger w, fingerOpenDistance w, modelSize w, cameraPosition w,
   sizeReadout w, padDimsReadout w).

(** [ev] settles a part load, a join or a pad fetch started by a
    [loadSize] call that a later call has superseded. *)
Definition completes_stale (w : World) (ev : Event) : Prop :=
  match ev with
  | EvPartLoaded i _ | EvJoin i | EvPadFetched i _ =>
      exists t tok, pending w !! i = Some t /\ task_token t = Some tok /\ tok <> loadToken w
  | _ => False
  end.

(** ** Scenarios *)

Definition unit_box : box3 := Box (V3 0 0 0) (V3 1 1 1).

(** All fifteen part loads of the oldest pending load succeed, each the
    [i]-th pending task when it settles. *)
Definition parts_at (i : nat) : list Event := repeat (EvPartLoaded i (Some unit_box)) 15.

(** Start-up: the fruits load, then the first size load runs to its end. *)
Definition startup_trace : list Event :=
  ([EvFruitsLoaded 0 true true] ++ parts_at 0 ++ [EvJoin 0; EvPadFetched 0 None; EvTail 0])%list.

(** The user picks size "1.0" and, while its pad fetch is in flight,
    size "2.0"; the load of "2.0" finishes first, and the pad fetch of
    "1.0" settles last, leaving the stale tail of "1.0" pending. *)
Definition stale_tail_prefix : list Event :=
  (startup_trace ++ [EvSizeInput 0] ++ parts_at 0 ++ [EvJoin 0; EvSizeInput 10] ++ parts_at 1 ++
   [EvJoin 1; EvPadFetched 1 None; EvTail 1; EvPadFetched 0 None])%list.

(** ... and the stale tail runs. *)
Definition stale_tail_trace : list Event := (stale_tail_prefix ++ [EvTail 0])%list.

(** ** Invariant *)

(** A pending continuation is consistent with the token [tok] and the
    requested size [req]. *)
Definition task_ok (tok : nat) (req : string) (t : Task) : Prop :=
  match t with
  | TPart tk size _ | TJoin tk size _ | TPad tk size _ | TTail tk size _ =>
      (tk <= tok)%nat /\ (tk = tok -> size = req)
  | TFruits => True
  end.

(** A child of [group] is in the store and was loaded for the
    requested size. *)
Definition child_ok (w : World) (id : nat) : Prop :=
  exists o, store w !! id = Some o /\ o_url o = meshUrl (requestedSize w) (o_partFile o).

Record LoaderInv (w : World) : Prop := {
  inv_tasks : Forall (task_ok (loadToken w) (requestedSize w)) (pending w);
  inv_fresh : forall id, is_Some (store w !! id) -> (id < nextId w)%nat;
  inv_children : Forall (child_ok w) (groupChildren w) }.

(** Two worlds of the same load: same token, slider, id counter, group
    children and pending pool, and the same objects up to visibility
    and position. *)
Definition same_load (w w' : World) : Prop :=
  loadToken w' = loadToken w /\ sliderValue w' = sliderValue w /\ nextId w' = nextId w /\
  groupChildren w' = groupChildren w /\ pending w' = pending w /\
  keeps_identity (store w) (store w').

#[export] Instance same_load_preorder : PreOrder same_load.
Proof.
  split.
  - intros w. do 5 (split; [reflexivity|]). reflexivity.
  - intros a b c (?&?&?&?&?&Hab) (?&?&?&?&?&Hbc).
    do 5 (split; [congruence|]). by transitivity (store b).
Qed.

(** ** Store updates that keep identity *)

Lemma fold_alter_keeps_const (f : SceneObj -> SceneObj) (ids : list nat) st :
  identity_preserving f -> keeps_identity st (fold_left (fun s id => alter f id s) ids st).
Proof. intros Hf. exact (fold_alter_keeps (fun _ => f) ids (fun x => x) st (fun _ => Hf)). Qed.

Lemma identity_preserving_reset : identity_preserving reset_to_base.
Proof. intros o. unfold reset_to_base. by destruct (o_basePosition o). Qed.

Lemma identity_preserving_shift d : identity_preserving (shift_from_base d).
Proof. intros o. unfold shift_from_base. by destruct (o_basePosition o). Qed.

Lemma applyOpenness_keeps fod op ch L R st :
  keeps_identity st (applyOpenness_store fod op ch L R st).
Proof.
  unfold applyOpenness_store. cbv zeta.
  etransitivity; [|apply fold_alter_keeps_const, identity_preserving_shift].
  etransitivity; [|apply fold_alter_keeps_const, identity_preserving_shift].
  apply fold_alter_keeps_const, identity_preserving_reset.
Qed.

Lemma setPartVisibility_keeps f v objs st vis :
  keeps_identity st (setPartVisibility f v objs st vis).2.
Proof.
  unfold setPartVisibility; cbn [snd].
  destruct (objs !! f); [apply alter_keeps; auto with viewer | reflexivity].
Qed.

Lemma setGroupVisibility_keeps fs v objs st vis :
  keeps_identity st (setGroupVisibility fs v objs st vis).2.
Proof.
  unfold setGroupVisibility. revert st vis.
  induction fs as [|f fs IH]; intros st vis; cbn [fold_left fst snd]; [reflexivity|].
  pose proof (setPartVisibility_keeps f v objs st vis) as H.
  destruct (setPartVisibility f v objs st vis) as [vis' st']. cbn [snd] in H.
  etransitivity; [exact H | apply IH].
Qed.

Lemma onPartChange_keeps g f objs c st c' st' :
  onPartChange g f objs c st = Some (c', st') -> keeps_identity st st'.
Proof.
  unfold onPartChange. destruct (find_group c g) as [gr|]; cbn [mbind option_bind]; [|discriminate].
  destruct (List.find _ _) as [it|]; cbn [mbind option_bind]; [|discriminate].
  pose proof (setPartVisibility_keeps (item_file it) (negb (item_checked it)) objs st
                (componentVisibility c)) as H.
  destruct (setPartVisibility _ _ _ _ _) as [vis' st'']. cbn [snd] in H.
  intros [= _ <-]. exact H.
Qed.

Lemma onGroupChange_keeps g objs c st c' st' :
  onGroupChange g objs c st = Some (c', st') -> keeps_identity st st'.
Proof.
  unfold onGroupChange. destruct (find_group c g) as [gr|]; cbn [mbind option_bind]; [|discriminate].
  pose proof (setGroupVisibility_keeps (group_parts g) (negb (g_checked gr)) objs st
                (componentVisibility c)) as H.
  destruct (setGroupVisibility _ _ _ _ _) as [vis' st'']. cbn [snd] in H.
  intros [= _ <-]. exact H.
Qed.

(** ** Steps of the same load *)

Lemma same_load_requested w w' : same_load w w' -> requestedSize w' = requestedSize w.
Proof. intros (_ & Hs & _). unfold requestedSize. by rewrite Hs. Qed.

Lemma same_load_frameObject w : same_load w (frameObject w).
Proof. unfold frameObject. destruct (negb _); [reflexivity|]. repeat split. Qed.

Lemma same_load_captureBasePositions w : same_load w (captureBasePositions w).
Proof.
  do 5 (split; [reflexivity|]). apply fold_alter_keeps_const. by intros o.
Qed.

Lemma same_load_collectFingerGroups w : same_load w (collectFingerGroups w).
Proof. repeat split. Qed.

Lemma same_load_applyOpennessW w : same_load w (applyOpennessW w).
Proof. do 5 (split; [reflexivity|]). apply applyOpenness_keeps. Qed.

(** The post-processing of [loadSize] after the join. *)
Lemma same_load_postprocess w :
  same_load w (applyOpennessW (collectFingerGroups (captureBasePositions (frameObject w)))).
Proof.
  etransitivity; [apply same_load_frameObject|].
  etransitivity; [apply same_load_captureBasePositions|].
  etransitivity; [apply same_load_collectFingerGroups|].
  apply same_load_applyOpennessW.
Qed.

Lemma same_load_with_checklist c st w :
  keeps_identity (store w) st -> same_load w (with_checklist c st w).
Proof. intros H. do 5 (split; [reflexivity|]). exact H. Qed.

Lemma same_load_loadSizeTail size m w : same_load w (loadSizeTail size m w).
Proof. repeat split. Qed.

#[export] Hint Resolve same_load_frameObject same_load_captureBasePositions
  same_load_collectFingerGroups same_load_applyOpennessW same_load_postprocess
  same_load_loadSizeTail : viewer.

(** ** Preservation *)

Lemma task_ok_bump tok req req' t : task_ok tok req t -> task_ok (S tok) req' t.
Proof. destruct t; simpl; try done; intros [? _]; split; lia. Qed.

Lemma Forall_task_ok_add_result tok req tk ok p :
  Forall (task_ok tok req) p -> Forall (task_ok tok req) (map (add_result tk ok) p).
Proof.
  rewrite Forall_map. intros H. eapply Forall_impl; [exact H|]. intros [] ?; simpl; try done.
  by destruct (Nat.eqb _ _).
Qed.

Lemma inv_same w w' : LoaderInv w -> same_load w w' -> LoaderInv w'.
Proof.
  intros [Ht Hf Hc] Hs. pose proof (same_load_requested _ _ Hs) as Hr.
  destruct Hs as (Htok & _ & Hn & Hch & Hp & Hk). split.
  - by rewrite Htok, Hr, Hp.
  - intros id Hid. rewrite Hn. apply Hf. by apply (keeps_is_Some (store w) (store w')).
  - rewrite Hch. eapply Forall_impl; [exact Hc|]. intros id (o & Ho & Hu).
    destruct (Hk id) as [Hu' Hp']. rewrite Ho in Hu', Hp'.
    destruct (store w' !! id) as [o'|] eqn:E; simpl in *; [|discriminate].
    exists o'. injection Hu' as Hu'. injection Hp' as Hp'.
    split; [done|]. by rewrite Hr, Hu', Hp'.
Qed.

Lemma inv_with_pending w p :
  LoaderInv w -> Forall (task_ok (loadToken w) (requestedSize w)) p -> LoaderInv (with_pending p w).
Proof. intros [_ Hf Hc] Hp. by split. Qed.

Lemma inv_take_task i w : LoaderInv w -> LoaderInv (take_task i w).
Proof. intros Hi. apply inv_with_pending; [done|]. apply Forall_delete, Hi. Qed.

Lemma inv_pending_lookup w i t :
  LoaderInv w -> pending w !! i = Some t -> task_ok (loadToken w) (requestedSize w) t.
Proof. intros Hi Hl. eapply Forall_lookup_1; [apply Hi | exact Hl]. Qed.

Lemma setSizeByIndex_fields v w :
  let size := default "" (js_index SIZES (clamp 0 (Z.of_nat (length SIZES) - 1) v)) in
  loadToken (setSizeByIndex v w) = S (loadToken w) /\
  requestedSize (setSizeByIndex v w) = size /\
  store (setSizeByIndex v w) = store w /\ nextId (setSizeByIndex v w) = nextId w /\
  groupChildren (setSizeByIndex v w) = [] /\
  pending (setSizeByIndex v w) =
    (pending w ++ map (TPart (S (loadToken w)) size) PARTS ++ [TJoin (S (loadToken w)) size []])%list.
Proof. repeat split. Qed.

(** A size change retires every pending continuation and starts the
    loads of the new size under a fresh token. *)
Lemma setSizeByIndex_inv v w : LoaderInv w -> LoaderInv (setSizeByIndex v w).
Proof.
  intros [Ht Hf _]. destruct (setSizeByIndex_fields v w) as (Htok & Hr & Hs & Hn & Hc & Hp).
  split.
  - rewrite Htok, Hr, Hp, !Forall_app, Forall_map. split_and!.
    + eapply Forall_impl; [exact Ht|]. intros t. apply task_ok_bump.
    + apply Forall_forall. intros p _. simpl. auto.
    + repeat constructor.
  - intros id. rewrite Hs, Hn. apply Hf.
  - rewrite Hc. constructor.
Qed.

(** A settled part load: stale or failed loads add nothing; a current
    one adds a mesh of the requested size under a fresh id. *)
Lemma partLoaded_inv i tok size part mesh w :
  LoaderInv w -> pending w !! i = Some (TPart tok size part) ->
  LoaderInv (let '(ok, w') := partLoaded tok size part mesh (take_task i w) in
             with_pending (map (add_result tok ok) (pending w')) w').
Proof.
  intros Hi Hl. pose proof (inv_take_task i w Hi) as Hi'.
  pose proof (inv_pending_lookup w i _ Hi Hl) as [_ Hsize].
  destruct Hi' as [Ht Hf Hc].
  unfold partLoaded. destruct mesh as [geom|]; [|by apply inv_with_pending, Forall_task_ok_add_result].
  destruct (negb _) eqn:E; [by apply inv_with_pending, Forall_task_ok_add_result|].
  apply negb_false_iff, Nat.eqb_eq in E. specialize (Hsize E). subst size. simpl in *.
  split; simpl.
  - by apply Forall_task_ok_add_result.
  - intros id. rewrite lookup_insert_is_Some. intros [<-|[_ H]]; [lia|]. apply Hf in H. lia.
  - apply Forall_app. split; [|constructor; [|constructor]].
    + eapply Forall_impl; [exact Hc|]. intros id (o & Ho & Hu). exists o.
      split; [|exact Hu]. simpl. rewrite lookup_insert_ne; [exact Ho|].
      assert (id < nextId w)%nat by (apply Hf; exists o; exact Ho). lia.
    + eexists. simpl. rewrite lookup_insert_eq. split; [done|]. reflexivity.
Qed.

(** The join either gives up (superseded) or post-processes the
    scene without changing the load and queues the pad fetch. *)
Lemma joinDone_shape tok size rs w :
  joinDone tok size rs w = w \/
  (tok = loadToken w /\ exists w1, same_load w w1 /\
     joinDone tok size rs w =
       with_pending (pending w1 ++ [TPad tok size (length (filter (fun ok => ok = false) rs))])%list w1).
Proof.
  unfold joinDone. destruct (Nat.eqb_spec tok (loadToken w)) as [E|E]; simpl; [|by left].
  right. split; [done|]. eexists. split; [apply same_load_postprocess|reflexivity].
Qed.

(** The pad fetch writes the readouts at most, then queues the tail. *)
Lemma padFetched_shape tok size m body w :
  exists w1, same_load w w1 /\
    padFetched tok size m body w = with_pending (pending w1 ++ [TTail tok size m])%list w1.
Proof.
  unfold padFetched. eexists. split; [|reflexivity].
  destruct (Nat.eqb _ _); [|reflexivity]. destruct (padReadouts body) as [[a d]|]; [|reflexivity].
  repeat split.
Qed.

(** Queuing a continuation of the same load keeps the invariant. *)
Lemma inv_queue w w1 t :
  LoaderInv w -> same_load w w1 -> task_ok (loadToken w) (requestedSize w) t ->
  LoaderInv (with_pending (pending w1 ++ [t])%list w1).
Proof.
  intros Hi Hs Hok. pose proof (inv_same _ _ Hi Hs) as Hi2.
  apply inv_with_pending; [exact Hi2|]. apply Forall_app. split; [apply Hi2|].
  pose proof (same_load_requested _ _ Hs) as Hr. destruct Hs as [Htok _].
  constructor; [|constructor]. by rewrite Hr, Htok.
Qed.

Lemma joinDone_inv i tok size rs w :
  LoaderInv w -> pending w !! i = Some (TJoin tok size rs) ->
  LoaderInv (joinDone tok size rs (take_task i w)).
Proof.
  intros Hi Hl. pose proof (inv_take_task i w Hi) as Hi'.
  pose proof (inv_pending_lookup w i _ Hi Hl) as Hok.
  destruct (joinDone_shape tok size rs (take_task i w)) as [->|(_ & w1 & Hs & ->)]; [exact Hi'|].
  exact (inv_queue _ _ (TPad _ _ _) Hi' Hs Hok).
Qed.

Lemma padFetched_inv i tok size m body w :
  LoaderInv w -> pending w !! i = Some (TPad tok size m) ->
  LoaderInv (padFetched tok size m body (take_task i w)).
Proof.
  intros Hi Hl. pose proof (inv_take_task i w Hi) as Hi'.
  pose proof (inv_pending_lookup w i _ Hi Hl) as Hok.
  destruct (padFetched_shape tok size m body (take_task i w)) as (w1 & Hs & ->).
  exact (inv_queue _ _ (TTail _ _ _) Hi' Hs Hok).
Qed.

(** Every event keeps the invariant. *)
Lemma exec_inv w ev w' : LoaderInv w -> exec w ev = Some w' -> LoaderInv w'.
Proof.
  intros Hi. destruct ev as [v|v|g f|g|g|f|i mesh|i|i body|i|i so ao]; simpl.
  - intros [= <-]. by apply setSizeByIndex_inv.
  - intros [= <-]. eapply inv_same; [|apply same_load_applyOpennessW].
    eapply inv_same; [exact Hi|]. repeat split.
  - destruct (onPartChange _ _ _ _ _) as [[c st]|] eqn:E; simpl; [|discriminate].
    intros [= <-]. eapply inv_same; [exact Hi|]. apply same_load_with_checklist.
    exact (onPartChange_keeps _ _ _ _ _ _ _ E).
  - destruct (onGroupChange _ _ _ _) as [[c st]|] eqn:E; simpl; [|discriminate].
    intros [= <-]. eapply inv_same; [exact Hi|]. apply same_load_with_checklist.
    exact (onGroupChange_keeps _ _ _ _ _ _ E).
  - destruct (onGroupToggle _ _); simpl; [|discriminate].
    intros [= <-]. eapply inv_same; [exact Hi|]. repeat split.
  - intros [= <-]. eapply inv_same; [exact Hi|]. repeat split.
  - destruct (pending w !! i) as [[tok size part| | | |]|] eqn:Hl; try discriminate.
    pose proof (partLoaded_inv i tok size part mesh w Hi Hl) as H.
    destruct (partLoaded _ _ _ _ _). by intros [= <-].
  - destruct (pending w !! i) as [[|tok size rs| | |]|] eqn:Hl; try discriminate.
    destruct (existsb _ _); [discriminate|]. intros [= <-]. by apply joinDone_inv.
  - destruct (pending w !! i) as [[| |tok size m| |]|] eqn:Hl; try discriminate.
    intros [= <-]. by apply padFetched_inv.
  - destruct (pending w !! i) as [[| | |tok size m|]|] eqn:Hl; try discriminate.
    intros [= <-]. eapply inv_same; [by apply inv_take_task|]. apply same_load_loadSizeTail.
  - destruct (pending w !! i) as [[| | | |]|] eqn:Hl; try discriminate.
    intros [= <-]. eapply inv_same; [by apply inv_take_task|]. repeat split.
Qed.

(** ** Reachable worlds *)

Lemma run_rtc w evs w' : run w evs = Some w' -> rtc step w w'.
Proof.
  revert w. induction evs as [|ev evs IH]; intros w; simpl; [by intros [= <-]|].
  destruct (exec w ev) as [w1|] eqn:E; simpl; [|discriminate].
  intros H. eapply rtc_l; [exists ev; exact E | exact (IH _ H)].
Qed.

Lemma rtc_step_inv w w' : rtc step w w' -> LoaderInv w -> LoaderInv w'.
Proof.
  induction 1 as [|w1 w2 w3 [ev E] _ IH]; [done|]. intros Hi. apply IH. exact (exec_inv _ _ _ Hi E).
Qed.

Lemma preInit_inv : LoaderInv preInit.
Proof. split; simpl; [constructor | intros id [o H]; by rewrite lookup_empty in H | constructor]. Qed.

Lemma initWorld_inv : LoaderInv initWorld.
Proof.
  unfold initWorld. cbv zeta.
  eapply inv_same; [|apply same_load_applyOpennessW]. apply setSizeByIndex_inv.
  apply inv_with_pending; [|repeat constructor].
  eapply inv_same; [exact preInit_inv|]. by apply same_load_with_checklist.
Qed.

Lemma reachable_inv w : rtc step initWorld w -> LoaderInv w.
Proof. intros H. exact (rtc_step_inv _ _ H initWorld_inv). Qed.

(** C1: Whatever order part loads, joins, pad fetches and size changes
    settle in, every child of [group] in a reachable world is an object
    of the store loaded from the URL of the size the slider currently
    selects ([child_ok]): a superseded [loadSize] never adds a mesh to
    the scene. *)
Theorem group_shows_requested_size w :
  rtc step initWorld w -> Forall (child_ok w) (groupChildren w).
Proof. intros Hr. exact (inv_children _ (reachable_inv w Hr)). Qed.

(** Witnesses run a trace with [vm_compute] to a boolean only, so the
    final world is never normalised. *)
Lemma run_witness w evs :
  bool_decide (is_Some (run w evs)) = true -> rtc step w (default w (run w evs)).
Proof.
  intros H. apply bool_decide_eq_true in H. destruct (run w evs) as [w'|] eqn:E; [|by destruct H].
  exact (run_rtc _ _ _ E).
Qed.

Lemma group_shows_requested_size_witness :
  Forall (child_ok (default initWorld (run initWorld startup_trace)))
         (groupChildren (default initWorld (run initWorld startup_trace))).
Proof. apply group_shows_requested_size, run_witness. vm_compute. reflexivity. Defined.

(** ** Stale continuations *)

(** C2: A part load, [Promise.all] join or pad-dimension fetch that
    settles after a later [loadSize] call has taken over changes nothing
    the user sees: the objects, [group], the component map, the finger
    groups, the framing and both readouts stay as they were. *)
Theorem stale_completion_keeps_scene w ev w' :
  completes_stale w ev -> exec w ev = Some w' -> scene_of w' = scene_of w.
Proof.
  destruct ev as [| | | | | |i mesh|i|i body| |]; simpl; try contradiction;
    intros (t & tok & Hl & Ht & Hne); rewrite Hl;
    destruct t as [tk size part|tk size rs|tk size m|tk size m|]; try discriminate;
    simpl in Ht; injection Ht as <-.
  - unfold partLoaded. destruct mesh; [|by intros [= <-]].
    replace (Nat.eqb tk (loadToken (take_task i w))) with false
      by (symmetry; by apply Nat.eqb_neq). by intros [= <-].
  - destruct (existsb _ _); [discriminate|]. unfold joinDone.
    replace (Nat.eqb tk (loadToken (take_task i w))) with false
      by (symmetry; by apply Nat.eqb_neq). by intros [= <-].
  - unfold padFetched.
    replace (Nat.eqb tk (loadToken (take_task i w))) with false
      by (symmetry; by apply Nat.eqb_neq). by intros [= <-].
Qed.

Lemma stale_completion_keeps_scene_witness :
  let w := default initWorld (run initWorld [EvSizeInput 10]) in
  let ev := EvPartLoaded 1 (Some unit_box) in
  scene_of (default w (exec w ev)) = scene_of w.
Proof.
  cbv zeta. apply (stale_completion_keeps_scene _ (EvPartLoaded 1 (Some unit_box))).
  - vm_compute. do 2 eexists. split; [reflexivity|]. split; [reflexivity|]. lia.
  - vm_compute. reflexivity.
Defined.

(** C10: The tail of [loadSize] after [await updatePadDimensions] has no
    token check: whenever a tail continuation is pending, for the
    current load or for one a later [loadSize] has superseded, settling
    it hands its own size to [updateFruitVisibility] (the fruit logic
    records that size and shows that size's fruit) and prefetches that
    size's neighbours, while the scene stays as it is.  A stale tail
    thus puts the fruit logic at a size the slider no longer shows. *)
Theorem stale_tail_overrides_fruits w i tok size missing :
  pending w !! i = Some (TTail tok size missing) ->
  exists w', exec w (EvTail i) = Some w' /\
    currentGripperSize (fruit w') = size /\
    prefetched w' = (prefetched w ++ prefetchAdjacentSizes size)%list /\
    scene_of w' = scene_of w.
Proof.
  intros H. unfold exec; cbv beta iota. rewrite H. eexists. split; [reflexivity|].
  split_and!; [|reflexivity|reflexivity].
  cbn [loadSizeTail fruit]. unfold positionFruits, updateFruitVisibility.
  by repeat case_match.
Qed.

(** After [stale_tail_prefix] the slider shows "2.0" and the only pending
    continuation is the tail of the superseded load of "1.0" (token 2,
    the current token being 3): settling it records size "1.0". *)
Lemma stale_tail_overrides_fruits_witness :
  let w := default initWorld (run initWorld stale_tail_prefix) in
  rtc step initWorld w /\ requestedSize w = "2.0" /\ loadToken w = 3%nat /\
  pending w !! 0%nat = Some (TTail 2 "1.0" 0) /\
  exists w', exec w (EvTail 0) = Some w' /\ currentGripperSize (fruit w') = "1.0" /\
    prefetched w' = (prefetched w ++ prefetchAdjacentSizes "1.0")%list /\ scene_of w' = scene_of w.
Proof.
  intros w. assert (H : pending w !! 0%nat = Some (TTail 2 "1.0" 0)) by (vm_compute; reflexivity).
  split; [apply run_witness; vm_compute; reflexivity|].
  split; [vm_compute; reflexivity|]. split; [vm_compute; reflexivity|]. split; [exact H|].
  exact (stale_tail_overrides_fruits w 0 2 "1.0" 0 H).
Defined.
