(* ===== verification/LoaderLive.v ===== *)
(** * LoaderLive: no continuation of the viewer is stuck

    Every pending continuation can settle: from any world, settling
    the pending part loads first and then the other continuations in
    pool order empties the pool after a bounded number of events.  In
    particular a [Promise.all] join never waits forever, and each size
    load runs [frameObject], [updatePadDimensions] and its tail, in that
    order.  The bound is a weight on the pool: a part load, a fruit load
    or a tail weighs 1, a pad fetch 2 (it adds a tail), a join 3 (it
    adds a pad fetch); every event of the schedule lowers the weight.

    [drain] is the schedule.  The outcome of every fetch is the
    environment's choice and is left open: [mesh_of], [body_of] and
    [fruits_of] give, for the world in which a part load, a pad fetch or
    the fruit loads settle, whether it succeeded and with what, so that
    failed part fetches (the loader's error callback), rejected or
    unreadable pad fetches and failed fruit meshes are all covered. *)

From S2P Require Import Prelude Catalog Geometry Scene Openness PadDims Checklist Fruit Loader LoaderInv.
Open Scope string_scope.
Open Scope nat_scope.

Definition task_weight (t : Task) : nat :=
  match t with TJoin _ _ _ => 3 | TPad _ _ _ => 2 | _ => 1 end.

Fixpoint pending_weight (p : list Task) : nat :=
  match p with [] => 0 | t :: p' => task_weight t + pending_weight p' end.

Definition is_TPart (t : Task) : bool := match t with TPart _ _ _ => true | _ => false end.

Section schedule.
Variable mesh_of : World -> option box3.
Variable body_of : World -> option string.
Variable fruits_of : World -> bool * bool.

(** The event that settles task [t] when it is the [i]-th pending task
    of [w], with the outcomes the environment chooses. *)
Definition settle (w : World) (i : nat) (t : Task) : Event :=
  match t with
  | TPart _ _ _ => EvPartLoaded i (mesh_of w)
  | TJoin _ _ _ => EvJoin i
  | TPad _ _ _ => EvPadFetched i (body_of w)
  | TTail _ _ _ => EvTail i
  | TFruits => EvFruitsLoaded i (fruits_of w).1 (fruits_of w).2
  end.

(** A part load if one is pending, otherwise the oldest continuation. *)
Definition next_event (w : World) : option Event :=
  match list_find (fun t => is_TPart t = true) (pending w) with
  | Some (i, t) => Some (settle w i t)
  | None => match pending w with [] => None | t :: _ => Some (settle w 0 t) end
  end.

Fixpoint drain (fuel : nat) (w : World) : list Event :=
  match fuel with
  | O => []
  | S fuel' =>
      match next_event w with
      | None => []
      | Some ev => match exec w ev with Some w' => ev :: drain fuel' w' | None => [] end
      end
  end.

End schedule.

(** ** Weight lemmas *)

Lemma pending_weight_app p q : pending_weight (p ++ q)%list = pending_weight p + pending_weight q.
Proof. induction p as [|t p IH]; simpl; lia. Qed.

Lemma pending_weight_delete p i t :
  p !! i = Some t -> pending_weight (delete i p) + task_weight t = pending_weight p.
Proof.
  revert i. induction p as [|t' p IH]; intros [|i] Hl; simpl in *; try discriminate.
  - injection Hl as ->. lia.
  - rewrite <- (IH i Hl). lia.
Qed.

Lemma pending_weight_add_result tok ok p :
  pending_weight (map (add_result tok ok) p) = pending_weight p.
Proof.
  induction p as [|[] p IH]; simpl; try lia. destruct (Nat.eqb _ _); simpl; lia.
Qed.

Lemma pending_weight_zero p : pending_weight p = 0 -> p = [].
Proof. destruct p as [|[] p]; simpl; [done| lia..]. Qed.

#[export] Hint Rewrite pending_weight_app pending_weight_add_result : viewer_rw.

(** ** What each continuation leaves in the pool *)

Lemma partLoaded_pending tok size part mesh w :
  pending (partLoaded tok size part mesh w).2 = pending w.
Proof. unfold partLoaded. destruct mesh; [destruct (negb _)|]; reflexivity. Qed.

Lemma joinDone_weight tok size rs w :
  pending_weight (pending (joinDone tok size rs w)) <= pending_weight (pending w) + 2.
Proof.
  unfold joinDone. destruct (negb _); [lia|]. cbn [pending with_pending].
  destruct (same_load_postprocess w) as (_ & _ & _ & _ & -> & _).
  rewrite pending_weight_app. simpl. lia.
Qed.

Lemma padFetched_weight tok size m body w :
  pending_weight (pending (padFetched tok size m body w)) = pending_weight (pending w) + 1.
Proof.
  unfold padFetched. cbn [pending with_pending]. rewrite pending_weight_app. simpl.
  destruct (Nat.eqb _ _); [destruct (padReadouts body) as [[]|]|]; simpl; lia.
Qed.

Lemma existsb_no_parts tok l :
  Forall (fun t => ~ is_TPart t = true) l -> existsb (is_part_of tok) l = false.
Proof.
  induction 1 as [|t l Ht _ IH]; [done|]. simpl. rewrite IH. rewrite orb_false_r.
  destruct t; simpl in *; done.
Qed.

(** ** Progress *)

Section progress.
Variable mesh_of : World -> option box3.
Variable body_of : World -> option string.
Variable fruits_of : World -> bool * bool.


(** While continuations are pending, the schedule's next event is
    enabled and lowers the weight of the pool. *)
Lemma exec_progress w :
  pending w <> [] ->
  exists ev w', next_event mesh_of body_of fruits_of w = Some ev /\ exec w ev = Some w' /\
    pending_weight (pending w') < pending_weight (pending w).
Proof.
  intros Hne. unfold next_event.
  destruct (list_find _ (pending w)) as [[i t]|] eqn:Hf.
  - apply list_find_Some in Hf as (Hl & Ht & _).
    destruct t as [tok size part| | | |]; try discriminate.
    pose proof (pending_weight_delete _ _ _ Hl) as Hd.
    pose proof (partLoaded_pending tok size part (mesh_of w) (take_task i w)) as Hp.
    destruct (partLoaded tok size part (mesh_of w) (take_task i w)) as [ok w1] eqn:E.
    exists (EvPartLoaded i (mesh_of w)), (with_pending (map (add_result tok ok) (pending w1)) w1).
    split; [done|]. split; [unfold exec; cbv beta iota; by rewrite Hl, E|].
    cbn [pending with_pending]. rewrite pending_weight_add_result. simpl in Hp, Hd. rewrite Hp.
    simpl. lia.
  - apply list_find_None in Hf. destruct (pending w) as [|t p] eqn:Hp; [done|].
    assert (Hl : pending w !! 0 = Some t) by (by rewrite Hp).
    destruct t as [tok size part|tok size rs|tok size m|tok size m|]; simpl settle.
    + inversion Hf as [|? ? Ht]. by destruct Ht.
    + eexists _, _. split; [done|]. split.
      * unfold exec; cbv beta iota. by rewrite Hl, existsb_no_parts by (by rewrite Hp).
      * pose proof (joinDone_weight tok size rs (take_task 0 w)) as Hj.
        cbn [pending take_task with_pending] in Hj. rewrite Hp in Hj. simpl in Hj |- *. lia.
    + eexists _, _. split; [done|]. split; [unfold exec; cbv beta iota; by rewrite Hl|].
      rewrite padFetched_weight. cbn [pending take_task with_pending]. rewrite Hp. simpl. lia.
    + eexists _, _. split; [done|]. split; [unfold exec; cbv beta iota; by rewrite Hl|].
      cbn [pending take_task with_pending loadSizeTail]. rewrite Hp. simpl. lia.
    + eexists _, _. split; [done|]. split; [unfold exec; cbv beta iota; by rewrite Hl|].
      cbn [pending take_task with_pending with_fruit]. rewrite Hp. simpl. lia.
Qed.

Lemma next_event_empty w : pending w = [] -> next_event mesh_of body_of fruits_of w = None.
Proof. intros Hp. unfold next_event. by rewrite Hp. Qed.

Lemma drain_spec n w :
  pending_weight (pending w) <= n ->
  exists w', run w (drain mesh_of body_of fruits_of n w) = Some w' /\ pending w' = [].
Proof.
  revert w. induction n as [|n IH]; intros w Hn.
  - exists w. split; [done|]. apply pending_weight_zero. lia.
  - destruct (decide (pending w = [])) as [Hp|Hp].
    + exists w. simpl. by rewrite next_event_empty.
    + destruct (exec_progress w Hp) as (ev & w1 & Hev & Hex & Hlt).
      destruct (IH w1) as (w' & Hrun & Hw'); [lia|].
      exists w'. simpl. rewrite Hev, Hex. simpl. by rewrite Hex.
Qed.

End progress.

(** C9: No continuation of the viewer is ever stuck: from any world,
    settling part loads first and the other pending continuations in
    order (the schedule [drain]) is always possible and empties the pool
    of pending continuations within [pending_weight] events, whatever
    the outcome of each fetch: part meshes that fail to load, pad files
    that are missing or unreadable, and fruit meshes that fail all
    settle their continuation, so every [Promise.all] join is eventually
    enabled and every [loadSize] call runs to its end. *)
Theorem pending_pool_drains mesh_of body_of fruits_of w :
  exists w', run w (drain mesh_of body_of fruits_of (pending_weight (pending w)) w) = Some w' /\
             pending w' = [].
Proof. exact (drain_spec mesh_of body_of fruits_of _ w (le_n _)). Qed.
