(* ===== verification/LoaderRefine.v ===== *)
(** * LoaderRefine: the scene group refines "the last request wins"

    The abstract specification of the scene group, after spec
    sections 3 and 4.1: the group shows a set of parts of one requested
    size.  A request ([ARequest]) empties it and selects a size of
    [SIZES]; a load ([AAdd]) adds a part of the catalogue that is not
    shown yet.  Nothing else changes the group.

    [abs_of] maps a world to this view: the requested size and the part
    files of [group.children], in order.  [exec_refines] shows that
    every event of the viewer is either invisible in this view
    (stale completions, failures, joins, fetches, checkbox and openness
    events) or one abstract step, so every reachable world's view is
    reachable in the specification ([viewer_refines_spec]).  The
    simulation needs [RefInv]: the parts shown and the parts still
    loading under the current token are distinct, and all pending
    part loads are of catalogue parts. *)

From S2P Require Import Prelude Catalog Geometry Scene Openness PadDims Checklist Fruit Loader LoaderInv.
Open Scope string_scope.

(** ** The specification *)

Record AbsGroup := mkAbsGroup { ag_size : string; ag_parts : list string }.

Inductive astep : AbsGroup -> AbsGroup -> Prop :=
  | ARequest a s : s ∈ SIZES -> astep a (mkAbsGroup s [])
  | AAdd a f : f ∈ map file PARTS -> f ∉ ag_parts a ->
      astep a (mkAbsGroup (ag_size a) (ag_parts a ++ [f])).

Definition initAbs : AbsGroup := mkAbsGroup "1.0" [].

(** ** The abstraction *)

(** The part files of [group.children]. *)
Definition shown (w : World) : list string := map (partFileOf (store w)) (groupChildren w).

Definition abs_of (w : World) : AbsGroup := mkAbsGroup (requestedSize w) (shown w).

(** The part file a pending task will add if it completes under token
    [tok]. *)
Definition task_file (tok : nat) (t : Task) : option string :=
  match t with TPart tk _ part => if Nat.eqb tk tok then Some (file part) else None | _ => None end.

Definition current_files (w : World) : list string := omap (task_file (loadToken w)) (pending w).

Definition part_task_ok (t : Task) : Prop :=
  match t with TPart _ _ part => part ∈ PARTS | _ => True end.

Record RefInv (w : World) : Prop := {
  ri_nodup : NoDup (shown w ++ current_files w);
  ri_parts : Forall part_task_ok (pending w);
  ri_size : requestedSize w ∈ SIZES }.

(** ** Lemmas on the pool of pending loads *)

Lemma omap_sublist {A B} (f : A -> option B) l1 l2 :
  l1 `sublist_of` l2 -> omap f l1 `sublist_of` omap f l2.
Proof.
  induction 1 as [|x l1 l2 _ IH|x l1 l2 _ IH]; simpl; [done| |];
    destruct (f x); auto using sublist_skip, sublist_cons.
Qed.

Lemma omap_delete_sublist {A B} (f : A -> option B) l i :
  omap f (delete i l) `sublist_of` omap f l.
Proof. apply omap_sublist, sublist_delete. Qed.

Lemma omap_task_file_add_result tok tk ok p :
  omap (task_file tok) (map (add_result tk ok) p) = omap (task_file tok) p.
Proof.
  assert (Ht : forall t, task_file tok (add_result tk ok t) = task_file tok t).
  { intros [|tk' size rs| | |]; simpl; try done. by destruct (Nat.eqb tk' tk). }
  induction p as [|t p IH]; [done|]. cbn. rewrite Ht. destruct (task_file tok t); by rewrite IH.
Qed.

Lemma omap_task_file_delete_part tok p i size part :
  p !! i = Some (TPart tok size part) ->
  omap (task_file tok) p ≡ₚ file part :: omap (task_file tok) (delete i p).
Proof.
  intros Hl. rewrite (delete_Permutation p i _ Hl) at 1. simpl. by rewrite Nat.eqb_refl.
Qed.

(** A task that adds no file. *)
Lemma omap_task_file_app_none tok p t :
  task_file tok t = None -> omap (task_file tok) (p ++ [t])%list = omap (task_file tok) p.
Proof. intros Ht. rewrite omap_app. simpl. rewrite Ht. apply app_nil_r. Qed.

Lemma NoDup_app_sublist_r (a b b' : list string) :
  NoDup (a ++ b) -> b' `sublist_of` b -> NoDup (a ++ b').
Proof. intros H Hs. eapply sublist_NoDup; [exact H|]. by apply sublist_app. Qed.

(** ** The view under the steps of one load *)

Lemma partFileOf_keeps st st' id :
  keeps_identity st st' -> partFileOf st' id = partFileOf st id.
Proof. intros H. unfold partFileOf. destruct (H id) as [_ ->]. reflexivity. Qed.

Lemma shown_same w w' : same_load w w' -> shown w' = shown w.
Proof.
  intros (_ & _ & _ & Hc & _ & Hk). unfold shown. rewrite Hc.
  apply map_ext. intros id. exact (partFileOf_keeps _ _ id Hk).
Qed.

Lemma abs_same w w' : same_load w w' -> abs_of w' = abs_of w.
Proof.
  intros Hs. unfold abs_of. by rewrite (shown_same _ _ Hs), (same_load_requested _ _ Hs).
Qed.

Lemma refinv_same w w' : RefInv w -> same_load w w' -> RefInv w'.
Proof.
  intros [Hn Hp Hz] Hs. pose proof (same_load_requested _ _ Hs) as Hr.
  pose proof (shown_same _ _ Hs) as Hsh. destruct Hs as (Htok & _ & _ & _ & Hpend & _).
  split; unfold current_files in *; rewrite ?Hsh, ?Htok, ?Hpend, ?Hr; done.
Qed.

Lemma refinv_with_pending w p :
  RefInv w -> NoDup (shown w ++ omap (task_file (loadToken w)) p) -> Forall part_task_ok p ->
  RefInv (with_pending p w).
Proof. intros [_ _ Hz] Hn Hp. by split. Qed.

Lemma refinv_take_task i w : RefInv w -> RefInv (take_task i w).
Proof.
  intros Hr. apply refinv_with_pending; [done| |apply Forall_delete, Hr].
  eapply NoDup_app_sublist_r; [apply Hr|apply omap_delete_sublist].
Qed.

#[export] Hint Resolve refinv_take_task : viewer.

(** ** One step of each kind *)

Lemma requested_in_SIZES v :
  default "" (js_index SIZES (clamp 0 (Z.of_nat (length SIZES) - 1) v)) ∈ SIZES.
Proof.
  pose proof (clamp_bounds 0 (Z.of_nat (length SIZES) - 1) v) as Hb.
  destruct (lookup_lt_is_Some_2 SIZES (Z.to_nat (clamp 0 (Z.of_nat (length SIZES) - 1) v)))
    as [s Hs]; [simpl in *; lia|].
  rewrite (proj2 (js_index_Some _ _ s)); [|split; [simpl in *; lia|exact Hs]].
  simpl. by eapply list_elem_of_lookup_2.
Qed.

Lemma omap_task_file_older tok req p :
  Forall (task_ok tok req) p -> omap (task_file (S tok)) p = [].
Proof.
  induction 1 as [|t p Ht _ IH]; [done|]. cbn. rewrite IH.
  destruct t as [tk size part| | | |]; simpl; try done.
  destruct Ht as [Hle _]. destruct (Nat.eqb_spec tk (S tok)); [lia|done].
Qed.

Lemma omap_task_file_new tok size (ps : list Part) :
  omap (task_file tok) (map (TPart tok size) ps) = map file ps.
Proof. induction ps as [|p ps IH]; [done|]. cbn. rewrite Nat.eqb_refl. by rewrite IH. Qed.

(** A size change is the abstract request. *)
Lemma setSizeByIndex_refines v w :
  LoaderInv w -> RefInv w ->
  RefInv (setSizeByIndex v w) /\ astep (abs_of w) (abs_of (setSizeByIndex v w)).
Proof.
  intros [Ht _ _] [_ Hp _]. destruct (setSizeByIndex_fields v w) as (Htok & Hr & _ & _ & Hc & Hpend).
  assert (Hsh : shown (setSizeByIndex v w) = []) by (unfold shown; by rewrite Hc).
  split.
  - split; [| |rewrite Hr; apply requested_in_SIZES].
    + unfold current_files. rewrite Hsh, Htok, Hpend, !omap_app, (omap_task_file_older _ _ _ Ht),
        omap_task_file_new. simpl. rewrite ?app_nil_r. exact part_files_NoDup.
    + rewrite Hpend, !Forall_app, Forall_map. split_and!; [exact Hp| |repeat constructor].
      apply Forall_forall. intros p Hin. exact Hin.
  - unfold abs_of at 2. rewrite Hr, Hsh. constructor. apply requested_in_SIZES.
Qed.

Lemma shown_insert_fresh st n o (children : list nat) :
  (forall id, id ∈ children -> id < n)%nat ->
  map (partFileOf (<[n := o]> st)) children = map (partFileOf st) children.
Proof.
  intros Hf. apply map_ext_in. intros id Hin. unfold partFileOf.
  rewrite lookup_insert_ne; [done|]. apply list_elem_of_In, Hf in Hin. lia.
Qed.

Lemma Forall_part_add_result tok ok p :
  Forall part_task_ok p -> Forall part_task_ok (map (add_result tok ok) p).
Proof.
  rewrite Forall_map. intros H. eapply Forall_impl; [exact H|].
  intros [|tk size rs| | |] Ht; simpl; try done. by destruct (Nat.eqb tk tok).
Qed.

Lemma refinv_after_part i tok ok w :
  RefInv w -> RefInv (with_pending (map (add_result tok ok) (pending (take_task i w))) (take_task i w)).
Proof.
  intros Hr. pose proof (refinv_take_task i w Hr) as [Hn Hp Hz].
  apply refinv_with_pending; [by split| |by apply Forall_part_add_result].
  rewrite omap_task_file_add_result. exact Hn.
Qed.

(** A settled part load: invisible when stale or failed, the abstract
    [AAdd] of its part otherwise. *)
Lemma partLoaded_refines i tok size part mesh w :
  LoaderInv w -> RefInv w -> pending w !! i = Some (TPart tok size part) ->
  let w' := (let '(ok, w1) := partLoaded tok size part mesh (take_task i w) in
             with_pending (map (add_result tok ok) (pending w1)) w1) in
  RefInv w' /\ (abs_of w' = abs_of w \/ astep (abs_of w) (abs_of w')).
Proof.
  intros Hi Hr Hl w'. subst w'.
  unfold partLoaded. destruct mesh as [geom|]; [|split; [by apply refinv_after_part|by left]].
  destruct (negb _) eqn:E; [split; [by apply refinv_after_part|by left]|].
  apply negb_false_iff, Nat.eqb_eq in E. simpl in E. subst tok.
  destruct Hi as [_ Hf Hc]. destruct Hr as [Hn Hp Hz].
  pose proof (Forall_lookup_1 _ _ _ _ Hp Hl) as Hpart. simpl in Hpart.
  assert (Hfresh : forall id, id ∈ groupChildren w -> (id < nextId w)%nat).
  { intros id Hid. apply Hf. destruct (proj1 (Forall_forall _ _) Hc id Hid) as (o & Ho & _).
    by exists o. }
  pose proof (omap_task_file_delete_part _ _ _ _ _ Hl) as Hperm.
  unfold current_files in Hn. rewrite Hperm in Hn.
  set (w' := with_pending _ _).
  assert (Hsh : shown w' = (shown w ++ [file part])%list).
  { unfold shown. simpl. rewrite map_app, shown_insert_fresh by exact Hfresh.
    unfold partFileOf at 2. simpl. by rewrite lookup_insert_eq. }
  split.
  - split; [| |exact Hz].
    + unfold current_files. rewrite Hsh. simpl. rewrite omap_task_file_add_result, <- app_assoc.
      exact Hn.
    + simpl. apply Forall_part_add_result, Forall_delete, Hp.
  - right. replace (abs_of w') with (mkAbsGroup (ag_size (abs_of w)) (ag_parts (abs_of w) ++ [file part])%list)
      by (unfold abs_of; by rewrite Hsh).
    constructor.
    + apply list_elem_of_In, in_map, list_elem_of_In, Hpart.
    + apply NoDup_app in Hn as (_ & Hdis & _). intros Hin. exact (Hdis _ Hin (list_elem_of_here _ _)).
Qed.

Lemma refinv_queue w w1 t :
  RefInv w -> same_load w w1 -> part_task_ok t -> task_file (loadToken w) t = None ->
  RefInv (with_pending (pending w1 ++ [t])%list w1).
Proof.
  intros Hr Hs Hp Ht. pose proof (refinv_same _ _ Hr Hs) as Hr1.
  destruct Hs as [Htok _]. apply refinv_with_pending; [exact Hr1| |].
  - rewrite omap_task_file_app_none by (by rewrite Htok). apply Hr1.
  - apply Forall_app. split; [apply Hr1|by constructor].
Qed.

(** The join and the pad fetch are invisible in the view. *)
Lemma joinDone_refines i tok size rs w :
  RefInv w -> RefInv (joinDone tok size rs (take_task i w)) /\
              abs_of (joinDone tok size rs (take_task i w)) = abs_of w.
Proof.
  intros Hr. pose proof (refinv_take_task i w Hr) as Hr'.
  destruct (joinDone_shape tok size rs (take_task i w)) as [->|(_ & w1 & Hs & ->)]; [done|].
  split; [by eapply refinv_queue; [exact Hr'|exact Hs| |]|exact (abs_same _ _ Hs)].
Qed.

Lemma padFetched_refines i tok size m body w :
  RefInv w -> RefInv (padFetched tok size m body (take_task i w)) /\
              abs_of (padFetched tok size m body (take_task i w)) = abs_of w.
Proof.
  intros Hr. pose proof (refinv_take_task i w Hr) as Hr'.
  destruct (padFetched_shape tok size m body (take_task i w)) as (w1 & Hs & ->).
  split; [by eapply refinv_queue; [exact Hr'|exact Hs| |]|exact (abs_same _ _ Hs)].
Qed.

(** Every other event keeps the load: same view, same invariant. *)
Lemma same_refines w w' : RefInv w -> same_load w w' -> RefInv w' /\ abs_of w' = abs_of w.
Proof. intros Hr Hs. split; [exact (refinv_same _ _ Hr Hs)|exact (abs_same _ _ Hs)]. Qed.

(** ** The simulation *)

Definition stutter_or_step (a a' : AbsGroup) : Prop := a' = a \/ astep a a'.

Lemma exec_refines w ev w' :
  LoaderInv w -> RefInv w -> exec w ev = Some w' ->
  RefInv w' /\ stutter_or_step (abs_of w) (abs_of w').
Proof.
  intros Hi Hr. unfold stutter_or_step.
  destruct ev as [v|v|g f|g|g|f|i mesh|i|i body|i|i so ao]; simpl.
  - intros [= <-]. destruct (setSizeByIndex_refines v w Hi Hr). by split; [|right].
  - intros [= <-]. destruct (same_refines w (applyOpennessW (with_opennessSlider v w)) Hr)
      as [? ->]; [|by split; [|left]].
    etransitivity; [|apply same_load_applyOpennessW]. repeat split.
  - destruct (onPartChange _ _ _ _ _) as [[c st]|] eqn:E; simpl; [|discriminate].
    intros [= <-]. destruct (same_refines w (with_checklist c st w) Hr) as [? ->]; [|by split; [|left]].
    apply same_load_with_checklist. exact (onPartChange_keeps _ _ _ _ _ _ _ E).
  - destruct (onGroupChange _ _ _ _) as [[c st]|] eqn:E; simpl; [|discriminate].
    intros [= <-]. destruct (same_refines w (with_checklist c st w) Hr) as [? ->]; [|by split; [|left]].
    apply same_load_with_checklist. exact (onGroupChange_keeps _ _ _ _ _ _ E).
  - destruct (onGroupToggle _ _); simpl; [|discriminate].
    intros [= <-]. destruct (same_refines w (with_groups_only c w) Hr) as [? ->]; [repeat split|by split; [|left]].
  - intros [= <-]. destruct (same_refines w (with_fruit (onFruitChange f (fruit w)) w) Hr) as [? ->];
      [repeat split|by split; [|left]].
  - destruct (pending w !! i) as [[tok size part| | | |]|] eqn:Hl; try discriminate.
    pose proof (partLoaded_refines i tok size part mesh w Hi Hr Hl) as H.
    destruct (partLoaded _ _ _ _ _). by intros [= <-].
  - destruct (pending w !! i) as [[|tok size rs| | |]|] eqn:Hl; try discriminate.
    destruct (existsb _ _); [discriminate|]. intros [= <-].
    destruct (joinDone_refines i tok size rs w Hr) as [? ->]. by split; [|left].
  - destruct (pending w !! i) as [[| |tok size m| |]|] eqn:Hl; try discriminate.
    intros [= <-]. destruct (padFetched_refines i tok size m body w Hr) as [? ->]. by split; [|left].
  - destruct (pending w !! i) as [[| | |tok size m|]|] eqn:Hl; try discriminate.
    intros [= <-]. destruct (same_refines (take_task i w) (loadSizeTail size m (take_task i w)))
      as [? ->]; [by apply refinv_take_task|apply same_load_loadSizeTail|by split; [|left]].
  - destruct (pending w !! i) as [[| | | |]|] eqn:Hl; try discriminate.
    intros [= <-]. destruct (same_refines (take_task i w) (with_fruit (loadFruitsDone so ao (fruit w)) (take_task i w)))
      as [? ->]; [by apply refinv_take_task|repeat split|by split; [|left]].
Qed.

Lemma rtc_refines w w' :
  rtc step w w' -> LoaderInv w -> RefInv w -> rtc astep (abs_of w) (abs_of w') /\ RefInv w'.
Proof.
  induction 1 as [w|w1 w2 w3 [ev E] _ IH]; intros Hi Hr; [done|].
  destruct (exec_refines _ _ _ Hi Hr E) as [Hr2 [Heq|Hst]].
  - rewrite <- Heq. exact (IH (exec_inv _ _ _ Hi E) Hr2).
  - destruct (IH (exec_inv _ _ _ Hi E) Hr2) as [Hrtc Hr3]. split; [|done]. by eapply rtc_l.
Qed.

Lemma preInit_refinv : RefInv preInit.
Proof.
  split; [constructor|constructor|]. apply (bool_decide_unpack _). vm_compute. exact I.
Qed.

(** Start-up: the view starts empty at "1.0" and the first
    [setSizeByIndex] is the request of "1.5". *)
Lemma initWorld_refines : RefInv initWorld /\ rtc astep initAbs (abs_of initWorld).
Proof.
  unfold initWorld. cbv zeta.
  set (w0 := with_checklist _ _ preInit).
  assert (Hs0 : same_load preInit w0) by (by apply same_load_with_checklist).
  set (w1 := with_pending _ w0).
  assert (Hi1 : LoaderInv w1) by exact (inv_queue _ _ TFruits preInit_inv Hs0 I).
  assert (Hr1 : RefInv w1) by exact (refinv_queue _ _ TFruits preInit_refinv Hs0 I eq_refl).
  destruct (setSizeByIndex_refines (indexOf SIZES "1.5") w1 Hi1 Hr1) as [Hr2 Hst].
  destruct (same_refines _ _ Hr2 (same_load_applyOpennessW _)) as [Hr3 ->].
  split; [exact Hr3|]. eapply rtc_l; [exact Hst|reflexivity].
Qed.

(** The specification only ever shows distinct parts of the catalogue. *)
Definition abs_ok (a : AbsGroup) : Prop :=
  NoDup (ag_parts a) /\ Forall (fun f => f ∈ map file PARTS) (ag_parts a).

Lemma astep_abs_ok a a' : astep a a' -> abs_ok a -> abs_ok a'.
Proof.
  intros [a0 s _|a0 f Hin Hf] [Hn Hp]; simpl; [split; constructor|].
  split.
  - apply NoDup_app. split_and!; [done| |repeat constructor; set_solver].
    intros x Hx ->%list_elem_of_singleton. contradiction.
  - apply Forall_app. by split; [|constructor].
Qed.

Lemma rtc_abs_ok a : rtc astep initAbs a -> abs_ok a.
Proof.
  intros H. cut (abs_ok initAbs); [|split; constructor].
  induction H as [|a1 a2 a3 Hs _ IH]; [done|]. intros Ha. apply IH. exact (astep_abs_ok _ _ Hs Ha).
Qed.

Lemma reachable_refines w : rtc step initWorld w -> rtc astep initAbs (abs_of w).
Proof.
  intros H. destruct initWorld_refines as [Hr0 Hs0].
  destruct (rtc_refines _ _ H initWorld_inv Hr0) as [Hs _]. by etransitivity.
Qed.

(** C3: Refinement: every world the viewer reaches from start-up,
    under any interleaving of UI events and completions, shows in its
    scene group a state of the abstract specification reachable from
    the empty group: the last requested size, and parts of the
    catalogue added one at a time since that request.  Each event of
    the viewer is either invisible in this view or one step of the
    specification ([exec_refines]). *)
Theorem viewer_refines_spec w :
  rtc step initWorld w -> rtc astep initAbs (abs_of w).
Proof.
  intros H. destruct initWorld_refines as [Hr0 Hs0].
  destruct (rtc_refines _ _ H initWorld_inv Hr0) as [Hs _]. by etransitivity.
Qed.


Lemma viewer_refines_spec_witness :
  rtc astep initAbs (abs_of (default initWorld (run initWorld startup_trace))).
Proof.
  apply viewer_refines_spec, run_witness. vm_compute. reflexivity.
Defined.

