(* ===== verification/Picking.v ===== *)
(** * Picking: the [pointerdown] listener and [findLabelForObject]

    A click casts a ray through the camera ([raycaster.intersectObjects]
    on [group]'s children and the visible fruits, recursively, nearest
    hit first) and shows the label of the first ancestor of the hit
    object that carries one.  The ray cast is a three.js computation;
    here it is the [cast] argument, which maps the list of objects to
    check to the hits, nearest first.  The scene graph is a map from
    object ids to their [userData.label] and [parent].

    [findLabelForObject] is a [while] loop over [parent] links.  Its
    model takes fuel and returns [None] when the fuel runs out; on a
    scene graph whose parent links decrease a rank (as in a three.js
    tree, where depth decreases), fuel above the rank of the start
    object is enough, and the result is the first labelled ancestor
    ([ancestor_label]). *)

From S2P Require Import Prelude Geometry.
Open Scope string_scope.
Open Scope nat_scope.

(** An object of the scene graph: [userData.label] and [parent]. *)
Record Node := mkNode { n_label : option string; n_parent : option nat }.

Abbreviation Graph := (gmap nat Node).

(** [current.userData && current.userData.label]: JS truthiness of the
    label, a missing label or the empty string being falsy. *)
Definition label_truthy (o : option string) : option string :=
  match o with Some l => if String.eqb l "" then None else Some l | None => None end.

(** [findLabelForObject(object)]: [Some r] is the loop's result, [None]
    means the fuel (one unit per object visited) ran out first.  A [null] parent, or an id that is not
    in the graph, ends the loop with [null]. *)
Fixpoint findLabelForObject (fuel : nat) (g : Graph) (current : option nat) : option (option string) :=
  match current with
  | None => Some None
  | Some id =>
      match fuel with
      | O => None
      | S fuel' =>
          match g !! id with
          | None => Some None
          | Some n =>
              match label_truthy (n_label n) with
              | Some l => Some (Some l)
              | None => findLabelForObject fuel' g (n_parent n)
              end
          end
      end
  end.

(** The label the loop finds, as a relation. *)
Inductive ancestor_label (g : Graph) : option nat -> option string -> Prop :=
  | AL_null : ancestor_label g None None
  | AL_missing id : g !! id = None -> ancestor_label g (Some id) None
  | AL_here id n l : g !! id = Some n -> label_truthy (n_label n) = Some l ->
      ancestor_label g (Some id) (Some l)
  | AL_up id n r : g !! id = Some n -> label_truthy (n_label n) = None ->
      ancestor_label g (n_parent n) r -> ancestor_label g (Some id) r.

(** The label element's state: [lastHitPoint], [lastLabel] (shown in
    [labelName]) and the [visible] class. *)
Record PickState := mkPickState {
  lastHitPoint : option vec3; lastLabel : string; labelVisible : bool }.

(** [resetLabel()] *)
Definition resetLabel (s : PickState) : PickState := mkPickState None "" false.

(** [objectsToCheck]: every child of [group], then each fruit object
    that exists and is visible. *)
Definition objectsToCheck (children : list nat) (strawberry apple : option (nat * bool)) : list nat :=
  (children ++
   match strawberry with Some (id, true) => [id] | _ => [] end ++
   match apple with Some (id, true) => [id] | _ => [] end)%list.

(** The [pointerdown] listener, given the hits of the ray cast, nearest
    first, and whether the hit point projects inside the camera's clip
    range ([updateLabelPosition] removes the [visible] class otherwise);
    [None] when the label search runs out of fuel. *)
Definition onPointerDown (fuel : nat) (g : Graph) (hits : list (nat * vec3)) (inClip : bool)
    (s : PickState) : option PickState :=
  match hits with
  | [] => Some (resetLabel s)
  | (obj, point) :: _ =>
      r ← findLabelForObject fuel g (Some obj);
      match r with
      | None => Some s
      | Some l => Some (mkPickState (Some point) l inClip)
      end
  end.

(** A well-founded scene graph: every parent link lowers [rank]. *)
Definition ranked (g : Graph) (rank : nat -> nat) : Prop :=
  forall id n p, g !! id = Some n -> n_parent n = Some p -> (rank p < rank id)%nat.

(** The rank condition, checked on the finite graph. *)
Definition ranked_check (g : Graph) (rank : nat -> nat) : bool :=
  forallb (fun '(id, n) => match n_parent n with
                           | Some p => Nat.ltb (rank p) (rank id)
                           | None => true
                           end) (map_to_list g).

(** A three.js scene: a part mesh (labelled by [applyMaterial]) inside
    the loaded object (labelled), inside [group], inside [scene]. *)
Definition example_graph : Graph :=
  {[ 0%nat := mkNode (Some "Gear") (Some 1%nat);
     1%nat := mkNode (Some "Gear") (Some 2%nat);
     2%nat := mkNode None (Some 3%nat);
     3%nat := mkNode None None;
     4%nat := mkNode (Some "") (Some 2%nat) ]}.

Definition example_rank (id : nat) : nat := match id with 3 => 0 | 2 => 1 | 1 | 4 => 2 | _ => 3 end.

(** ** The label search *)

Lemma ranked_check_sound g rank : ranked_check g rank = true -> ranked g rank.
Proof.
  unfold ranked_check. rewrite forallb_forall. intros H id n p Hn Hp.
  apply elem_of_map_to_list in Hn. apply list_elem_of_In in Hn.
  specialize (H _ Hn). simpl in H. rewrite Hp in H. by apply Nat.ltb_lt.
Qed.

Lemma example_ranked : ranked example_graph example_rank.
Proof. apply ranked_check_sound. vm_compute. reflexivity. Qed.

Lemma findLabelForObject_sound fuel g cur r :
  findLabelForObject fuel g cur = Some r -> ancestor_label g cur r.
Proof.
  revert cur. induction fuel as [|fuel IH]; intros [id|]; simpl;
    try discriminate; try (intros [= <-]; constructor).
  destruct (g !! id) as [n|] eqn:Hn; [|intros [= <-]; by constructor].
  destruct (label_truthy (n_label n)) as [l|] eqn:Hl.
  - intros [= <-]. by eapply AL_here.
  - intros H. eapply AL_up; eauto.
Qed.

Lemma ancestor_label_functional g cur r1 r2 :
  ancestor_label g cur r1 -> ancestor_label g cur r2 -> r1 = r2.
Proof.
  intros H1. revert r2. induction H1 as [|id Hn|id n l Hn Hl|id n r Hn Hl _ IH];
    intros r2 H2; inversion H2; subst; congruence || (simplify_eq; eauto; congruence).
Qed.

Section ranked.
Context (g : Graph) (rank : nat -> nat) (Hrank : ranked g rank).

(** Fuel above the rank of the start object is enough: the loop ends. *)
Lemma findLabelForObject_terminates fuel id :
  (rank id < fuel)%nat -> is_Some (findLabelForObject fuel g (Some id)).
Proof.
  revert id. induction fuel as [|fuel IH]; intros id Hf; [lia|]. simpl.
  destruct (g !! id) as [n|] eqn:Hn; [|by eexists].
  destruct (label_truthy (n_label n)); [by eexists|].
  destruct (n_parent n) as [p|] eqn:Hp.
  - apply IH. pose proof (Hrank id n p Hn Hp). lia.
  - destruct fuel; by eexists.
Qed.

(** C22: On a scene graph whose parent links lower a rank, the
    [while] loop of [findLabelForObject] ends within [rank + 1] steps
    and returns exactly the label of the first ancestor (the object
    itself included) whose label is truthy, or [null] when the chain
    reaches [null] without one. *)
Theorem findLabelForObject_correct fuel id r :
  (rank id < fuel)%nat ->
  findLabelForObject fuel g (Some id) = Some r <-> ancestor_label g (Some id) r.
Proof.
  intros Hf. split; [apply findLabelForObject_sound|]. intros Ha.
  destruct (findLabelForObject_terminates fuel id Hf) as [r' Hr'].
  rewrite Hr'. f_equal. exact (ancestor_label_functional g _ _ _ (findLabelForObject_sound _ _ _ _ Hr') Ha).
Qed.

(** C23: The [pointerdown] listener: without hits it resets the label;
    when the nearest hit has a labelled ancestor it shows that label at
    the hit point, visible when the point projects inside the clip
    range; when it has none it leaves the label as it was. *)
Theorem onPointerDown_spec fuel hits inClip s :
  (forall o p, hits !! 0%nat = Some (o, p) -> rank o < fuel) ->
  exists s', onPointerDown fuel g hits inClip s = Some s' /\
    (hits = [] -> s' = resetLabel s) /\
    (forall o p rest l, hits = (o, p) :: rest -> ancestor_label g (Some o) (Some l) ->
       s' = mkPickState (Some p) l inClip) /\
    (forall o p rest, hits = (o, p) :: rest -> ancestor_label g (Some o) None -> s' = s).
Proof.
  intros Hf. destruct hits as [|[o p] rest].
  - eexists. split; [reflexivity|]. split; [done|]. split; intros; discriminate.
  - destruct (findLabelForObject_terminates fuel o (Hf o p eq_refl)) as [r Hr].
    pose proof (findLabelForObject_sound _ _ _ _ Hr) as Ha.
    exists (match r with Some l => mkPickState (Some p) l inClip | None => s end).
    split; [unfold onPointerDown; rewrite Hr; by destruct r|].
    split; [discriminate|]. split; intros ? ? ? * [= <- <- <-] Ha';
      rewrite (ancestor_label_functional g _ _ _ Ha Ha'); reflexivity.
Qed.

End ranked.

Lemma findLabelForObject_correct_witness :
  ancestor_label example_graph (Some 4) None.
Proof.
  apply (findLabelForObject_correct example_graph example_rank example_ranked 3 4 None);
    [vm_compute; lia | reflexivity].
Defined.

Lemma onPointerDown_spec_witness :
  onPointerDown 4 example_graph [(0, vzero)] true (mkPickState None "" false) =
  Some (mkPickState (Some vzero) "Gear" true).
Proof.
  destruct (onPointerDown_spec example_graph example_rank example_ranked 4 [(0, vzero)] true
              (mkPickState None "" false)) as (s' & E & _ & Hl & _).
  - intros o p H. injection H as <- <-. vm_compute. lia.
  - rewrite E. f_equal. apply (Hl 0 vzero [] "Gear"); [reflexivity|].
    by eapply AL_here.
Defined.
