(* ===== verification/Label.v ===== *)
(** * Label: the part label element, [updateLabelPosition], [animate] and [resizeRenderer]

    The label the [pointerdown] listener shows is a DOM element with a
    [visible] class, an [aria-hidden] attribute, a CSS [transform] and
    a child [labelName] whose text is the label; [lastHitPoint] and
    [lastLabel] are module globals.  [LabelEl] holds all of them.

    Every animation frame ([animate]) calls [updateLabelPosition], which
    projects [lastHitPoint] through the camera and either hides the
    label (the projection is outside the clip range [-1 <= z <= 1]) or
    moves it to the pixel of the projection.  The projection is a
    three.js computation on the camera of that frame (orbit controls
    move it); here it is the [project] argument of each frame, as the
    ray cast is the input of the listener in [Picking].  A bounding
    rectangle is [getBoundingClientRect()]'s result.

    The listener is modelled again at the level of the element
    ([onPointerDownEl]: it also writes [labelName], [aria-hidden] and
    the transform); [onPointerDownEl_spec] gives its effect on every
    branch and shows that its [PickState] is the one of
    [Picking.onPointerDown], whose [inClip] argument is the clip test
    of the hit point's projection. *)

From S2P Require Import Prelude Geometry Picking.
From Stdlib Require Import Qminmax.
Open Scope string_scope.
Open Scope Q_scope.

(** ** The element and its operations *)

(** [lastHitPoint], [lastLabel], [labelName.textContent], the [visible]
    class, [aria-hidden] and [style.transform] (in pixels; [None]
    before the first placement). *)
Record LabelEl := mkLabelEl {
  le_hit : option vec3;
  le_lastLabel : string;
  le_name : string;
  le_visible : bool;
  le_ariaHidden : string;
  le_transform : option (Q * Q) }.

(** [getBoundingClientRect()]: left, top, width, height. *)
Record Rect := mkRect { r_left : Q; r_top : Q; r_width : Q; r_height : Q }.

(** [projected.z < -1 || projected.z > 1] *)
Definition clipped (q : vec3) : bool :=
  negb (Qle_bool (-1) (vz q)) || negb (Qle_bool (vz q) 1).

(** [(projected.x * 0.5 + 0.5) * rect.width],
    [(-projected.y * 0.5 + 0.5) * rect.height] *)
Definition labelPixel (rect : Rect) (q : vec3) : Q * Q :=
  ((vx q * (1 # 2) + (1 # 2)) * r_width rect, (- vy q * (1 # 2) + (1 # 2)) * r_height rect).

(** [label.classList.remove("visible"); label.setAttribute("aria-hidden", "true")] *)
Definition hideLabel (s : LabelEl) : LabelEl :=
  mkLabelEl (le_hit s) (le_lastLabel s) (le_name s) false "true" (le_transform s).

(** [resetLabel()]: [labelName] keeps its text. *)
Definition resetLabelEl (s : LabelEl) : LabelEl :=
  mkLabelEl None "" (le_name s) false "true" (le_transform s).

(** [updateLabelPosition()] for the camera projection [project] and the
    viewer's rectangle [rect]. *)
Definition updateLabelPosition (project : vec3 -> vec3) (rect : Rect) (s : LabelEl) : LabelEl :=
  match le_hit s with
  | None => s
  | Some p =>
      let q := project p in
      if clipped q then hideLabel s
      else mkLabelEl (le_hit s) (le_lastLabel s) (le_name s) (le_visible s) (le_ariaHidden s)
             (Some (labelPixel rect q))
  end.

(** One [animate] frame: [controls.update()] moves the camera (the new
    [project]), then [updateLabelPosition()]; [renderer.render] draws. *)
Definition animateFrame (project : vec3 -> vec3) (rect : Rect) (s : LabelEl) : LabelEl :=
  updateLabelPosition project rect s.

Fixpoint animateFrames (frames : list ((vec3 -> vec3) * Rect)) (s : LabelEl) : LabelEl :=
  match frames with
  | [] => s
  | (project, rect) :: frames' => animateFrames frames' (animateFrame project rect s)
  end.

(** [lastHitPoint = hit.point.clone(); lastLabel = labelText;
    labelName.textContent = lastLabel; label.classList.add("visible");
    label.setAttribute("aria-hidden", "false")] *)
Definition showLabel (point : vec3) (l : string) (s : LabelEl) : LabelEl :=
  mkLabelEl (Some point) l l true "false" (le_transform s).

(** The normalised device coordinates of a click:
    [((clientX - rect.left) / rect.width) * 2 - 1] and
    [-((clientY - rect.top) / rect.height) * 2 + 1]. *)
Definition pointerNDC (rect : Rect) (clientX clientY : Q) : Q * Q :=
  (((clientX - r_left rect) / r_width rect) * 2 - 1,
   (- ((clientY - r_top rect) / r_height rect)) * 2 + 1).

(** The [pointerdown] listener on the element: [hits] is the ray cast
    through [pointerNDC] (nearest first), [project] the camera's
    projection and [rect] the viewer's rectangle for the final
    [updateLabelPosition()]; [None] when the label search runs out of
    fuel. *)
Definition onPointerDownEl (fuel : nat) (g : Graph) (hits : list (nat * vec3))
    (project : vec3 -> vec3) (rect : Rect) (s : LabelEl) : option LabelEl :=
  match hits with
  | [] => Some (resetLabelEl s)
  | (obj, point) :: _ =>
      r ← findLabelForObject fuel g (Some obj);
      match r with
      | None => Some s
      | Some l => Some (updateLabelPosition project rect (showLabel point l s))
      end
  end.

(** The globals [Picking] keeps of the element. *)
Definition pick_of (s : LabelEl) : PickState :=
  mkPickState (le_hit s) (le_lastLabel s) (le_visible s).

(** What can happen to the label: a click, a frame, or [resetLabel()]
    at the start of [loadSize]. *)
Inductive lstep : LabelEl -> LabelEl -> Prop :=
  | LPointer fuel g hits project rect s s' :
      onPointerDownEl fuel g hits project rect s = Some s' -> lstep s s'
  | LFrame project rect s : lstep s (animateFrame project rect s)
  | LReset s : lstep s (resetLabelEl s).

(** The element is consistent: [aria-hidden] says the opposite of the
    [visible] class, a visible label has an anchor point, and while
    there is an anchor [labelName] shows [lastLabel]. *)
Definition label_ok (s : LabelEl) : Prop :=
  le_ariaHidden s = (if le_visible s then "false" else "true") /\
  (le_visible s = true -> is_Some (le_hit s)) /\
  (is_Some (le_hit s) -> le_name s = le_lastLabel s).

(** ** [resizeRenderer] *)

(** The renderer size and the camera's aspect ratio. *)
Record Viewport := mkViewport { vp_width : Q; vp_height : Q; vp_aspect : Q }.

(** [resizeRenderer()]: [width = Math.max(1, rect.width)],
    [height = Math.max(1, rect.height)], [camera.aspect = width / height]. *)
Definition resizeRenderer (rect : Rect) : Viewport :=
  let width := Qmax 1 (r_width rect) in
  let height := Qmax 1 (r_height rect) in
  mkViewport width height (width / height).

(** ** Lemmas on the operations *)

Lemma updateLabelPosition_keeps project rect s :
  le_hit (updateLabelPosition project rect s) = le_hit s /\
  le_lastLabel (updateLabelPosition project rect s) = le_lastLabel s /\
  le_name (updateLabelPosition project rect s) = le_name s.
Proof. unfold updateLabelPosition. destruct (le_hit s) eqn:E; [destruct (clipped _)|]; simpl; rewrite ?E; done. Qed.

(** A frame only ever removes the [visible] class. *)
Lemma updateLabelPosition_visible project rect s :
  le_visible (updateLabelPosition project rect s) =
  le_visible s && match le_hit s with Some p => negb (clipped (project p)) | None => true end.
Proof.
  unfold updateLabelPosition. destruct (le_hit s); [destruct (clipped _)|]; simpl;
    by destruct (le_visible s).
Qed.

Lemma hideLabel_ok s : label_ok s -> label_ok (hideLabel s).
Proof. intros (_ & _ & Hn). split_and!; simpl; done. Qed.

Lemma updateLabelPosition_ok project rect s : label_ok s -> label_ok (updateLabelPosition project rect s).
Proof.
  intros Hs. unfold updateLabelPosition. destruct (le_hit s) eqn:E; [|done].
  destruct (clipped _); [by apply hideLabel_ok|]. unfold label_ok in *; simpl.
  rewrite E in Hs. naive_solver.
Qed.

Lemma resetLabelEl_ok s : label_ok (resetLabelEl s).
Proof. split_and!; simpl; [done|discriminate|by intros []]. Qed.

Lemma showLabel_ok point l s : label_ok (showLabel point l s).
Proof. split_and!; simpl; [done|by eexists|done]. Qed.

#[local] Hint Resolve hideLabel_ok updateLabelPosition_ok resetLabelEl_ok showLabel_ok : viewer.

Lemma onPointerDownEl_ok fuel g hits project rect s s' :
  label_ok s -> onPointerDownEl fuel g hits project rect s = Some s' -> label_ok s'.
Proof.
  intros Hs. unfold onPointerDownEl. destruct hits as [|[obj point] hits].
  - intros [= <-]. auto with viewer.
  - destruct (findLabelForObject fuel g (Some obj)) as [[l|]|]; cbn [mbind option_bind];
      intros [= <-]; auto with viewer.
Qed.

Lemma lstep_ok s s' : lstep s s' -> label_ok s -> label_ok s'.
Proof.
  destruct 1; intros Hs; unfold animateFrame; eauto using onPointerDownEl_ok with viewer.
Qed.

(** [resizeRenderer] never gives a zero, negative or undefined aspect:
    whatever the viewer's rectangle (a collapsed [0 x 0] element
    included), width and height are at least [1], the aspect is
    positive and equals width / height, and a rectangle of at least one
    pixel each way is taken as it is. *)
Lemma resizeRenderer_bounds rect :
  let vp := resizeRenderer rect in
  1 <= vp_width vp /\ 1 <= vp_height vp /\ 0 < vp_aspect vp /\ vp_aspect vp * vp_height vp == vp_width vp /\
  (1 <= r_width rect -> vp_width vp == r_width rect) /\ (1 <= r_height rect -> vp_height vp == r_height rect).
Proof.
  simpl. pose proof (Q.le_max_l 1 (r_width rect)). pose proof (Q.le_max_l 1 (r_height rect)).
  split_and!; try done.
  - apply Qlt_shift_div_l; lra.
  - field. lra.
  - intros Hr. apply Q.max_r. exact Hr.
  - intros Hr. apply Q.max_r. exact Hr.
Qed.

(** ** Claims *)

(** C34: The [pointerdown] listener on the label element: without a hit
    it resets the label (no anchor, [lastLabel] empty, hidden,
    [aria-hidden="true"], [labelName] and the position untouched); when
    the nearest hit has no labelled ancestor it changes nothing; when it
    has label [l], the anchor becomes the hit point and [lastLabel] and
    [labelName] become [l], and the label is shown at the pixel of the
    point's projection, or hidden if the projection is outside the clip
    range.  Its [lastHitPoint], [lastLabel] and [visible] class are those
    of [Picking.onPointerDown] with the clip test of the nearest hit as
    [inClip]. *)
Theorem onPointerDownEl_spec fuel g hits project rect s :
  match hits with
  | [] => onPointerDownEl fuel g hits project rect s =
            Some (mkLabelEl None "" (le_name s) false "true" (le_transform s))
  | (obj, point) :: _ =>
      match findLabelForObject fuel g (Some obj) with
      | None => onPointerDownEl fuel g hits project rect s = None
      | Some None => onPointerDownEl fuel g hits project rect s = Some s
      | Some (Some l) =>
          onPointerDownEl fuel g hits project rect s =
            Some (if clipped (project point) then mkLabelEl (Some point) l l false "true" (le_transform s)
                  else mkLabelEl (Some point) l l true "false" (Some (labelPixel rect (project point))))
      end
  end /\
  pick_of <$> onPointerDownEl fuel g hits project rect s =
  onPointerDown fuel g hits
    (match hits with (_, p) :: _ => negb (clipped (project p)) | [] => true end) (pick_of s).
Proof.
  destruct hits as [|[obj point] hits]; [split; reflexivity|]. unfold onPointerDownEl, onPointerDown.
  destruct (findLabelForObject fuel g (Some obj)) as [[l|]|]; cbn; [|split; reflexivity..].
  unfold updateLabelPosition, pick_of, showLabel, hideLabel. simpl.
  by destruct (clipped (project point)).
Qed.

(** C35: Whatever sequence of clicks, animation frames and [resetLabel]
    calls happens, the label element stays consistent: [aria-hidden] is
    ["true"] exactly when the [visible] class is off, a visible label
    has an anchor point, and while there is an anchor [labelName] shows
    [lastLabel]. *)
Theorem label_consistent s s' : rtc lstep s s' -> label_ok s -> label_ok s'.
Proof. induction 1; eauto using lstep_ok. Qed.

(** C36: Animation frames never show the label again: after any
    sequence of frames the anchor is unchanged and the label is visible
    exactly when it was visible before and the anchor's projection was
    inside the clip range at every frame.  Once the camera has moved the
    hit point out of the clip range, the label stays hidden when the
    point comes back in view. *)
Theorem frames_never_reshow fs s :
  le_hit (animateFrames fs s) = le_hit s /\
  le_visible (animateFrames fs s) =
  le_visible s && forallb (fun '(project, _) =>
    match le_hit s with Some p => negb (clipped (project p)) | None => true end) fs.
Proof.
  revert s. induction fs as [|[project rect] fs IH]; intros s; simpl; [by destruct (le_visible s)|].
  destruct (IH (animateFrame project rect s)) as [Hh Hv].
  destruct (updateLabelPosition_keeps project rect s) as (Hh' & _ & _).
  unfold animateFrame in *. rewrite Hh, Hv, Hh', updateLabelPosition_visible, andb_assoc. done.
Qed.

(** C37: Round trip of the click and the label placement: when the
    canvas has the viewer's rectangle and the hit point projects to the
    normalised coordinates of the click, [updateLabelPosition] puts the
    label at the click, relative to the viewer's corner. *)
Theorem label_at_click rect cx cy q :
  0 < r_width rect -> 0 < r_height rect ->
  vx q == fst (pointerNDC rect cx cy) -> vy q == snd (pointerNDC rect cx cy) ->
  fst (labelPixel rect q) == cx - r_left rect /\ snd (labelPixel rect q) == cy - r_top rect.
Proof.
  intros Hw Hh Hx Hy. unfold labelPixel. simpl. rewrite Hx, Hy. simpl.
  split; field; intros E; lra.
Qed.

(** ** Witnesses *)

(** A click on the gear of [Picking.example_graph], its hit point at the
    centre of the view, shows the label "Gear". *)
Lemma label_consistent_witness :
  let s0 := mkLabelEl None "" "" false "true" None in
  let s1 := default s0 (onPointerDownEl 5 example_graph [(0%nat, V3 0 0 0)] (fun p => p)
                          (mkRect 0 0 800 600) s0) in
  le_visible s1 = true /\ le_name s1 = "Gear" /\ label_ok s1.
Proof.
  intros s0 s1. split; [reflexivity|]. split; [reflexivity|].
  apply (label_consistent s0 s1).
  - apply rtc_once. apply (LPointer 5 example_graph [(0%nat, V3 0 0 0)] (fun p => p) (mkRect 0 0 800 600)).
    reflexivity.
  - split_and!; simpl; [reflexivity|discriminate|by intros []].
Defined.

(** A click at pixel (410, 320) of a viewer at (10, 20) of size
    800 x 600 is at the centre of the view; a hit point projecting there
    gets the label at (400, 300) from the viewer's corner. *)
Lemma label_at_click_witness :
  let rect := mkRect 10 20 800 600 in
  fst (labelPixel rect (V3 0 0 (1 # 2))) == 410 - r_left rect /\
  snd (labelPixel rect (V3 0 0 (1 # 2))) == 320 - r_top rect.
Proof.
  intros rect. apply (label_at_click rect 410 320); vm_compute; reflexivity.
Defined.

(** The divergence of [frames_never_reshow] on a concrete run: a click
    shows the label; a frame with the point behind the camera hides it;
    the next frame has the point back at the centre of the view, and the
    label stays hidden. *)
Example label_hidden_after_orbit :
  let rect := mkRect 0 0 800 600 in
  let s0 := mkLabelEl None "" "" false "true" None in
  let s1 := default s0 (onPointerDownEl 5 example_graph [(0%nat, V3 0 0 0)] (fun p => p) rect s0) in
  let behind := fun p : vec3 => V3 (vx p) (vy p) 2 in
  le_visible s1 = true /\
  clipped (V3 0 0 0) = false /\
  le_visible (animateFrames [(behind, rect); ((fun p => p), rect)] s1) = false.
Proof. vm_compute. split_and!; reflexivity. Qed.
