(* ===== verification/Startup.v ===== *)
(** * Startup: the DOM lookups of the module and the guard that throws

    At load time the module looks up eleven elements by id
    ([document.getElementById], [null] when the page has no such
    element) and throws [Error("Gripper viewer elements not found in
    the DOM.")] unless every one of them was found.  The page is the set
    of ids it contains ([present]); an element is kept as whether it was
    found (JS truthiness of the lookup).  The result of the module's top
    level is the thrown message, or [tt] when it goes on to the start-up
    sequence that [Loader.initWorld] models. *)

From S2P Require Import Prelude.
Open Scope string_scope.

(** ** The lookups and the guard *)

(** The constants of lines 8-18. *)
Record Elements := mkElements {
  viewer : bool; slider : bool; sizeValue : bool; sizeReadout : bool;
  padDimsReadout : bool; opennessSlider : bool; opennessValue : bool;
  label : bool; labelName : bool; tactileImage : bool; componentList : bool }.

(** [document.getElementById(id)] for each constant, in source order. *)
Definition lookupElements (present : string -> bool) : Elements :=
  mkElements (present "gripper-viewer") (present "gripper-size") (present "gripper-size-value")
    (present "gripper-overall-size") (present "gripper-pad-dims") (present "gripper-openness")
    (present "gripper-openness-value") (present "gripper-part-label") (present "gripper-part-name")
    (present "gripper-tactile-image") (present "gripper-component-list").

(** The ids the module looks up. *)
Definition ELEMENT_IDS : list string :=
  ["gripper-viewer"; "gripper-size"; "gripper-size-value"; "gripper-overall-size";
   "gripper-pad-dims"; "gripper-openness"; "gripper-openness-value"; "gripper-part-label";
   "gripper-part-name"; "gripper-tactile-image"; "gripper-component-list"].

(** [!viewer || !slider || ... || !label || !labelName], in the guard's order. *)
Definition guardFails (e : Elements) : bool :=
  negb (viewer e) || negb (slider e) || negb (sizeValue e) || negb (sizeReadout e) ||
  negb (padDimsReadout e) || negb (opennessSlider e) || negb (opennessValue e) ||
  negb (tactileImage e) || negb (componentList e) || negb (label e) || negb (labelName e).

Definition GUARD_MESSAGE : string := "Gripper viewer elements not found in the DOM.".

(** The module's top level up to the start-up sequence: [inl msg] is
    the thrown error. *)
Definition startUp (present : string -> bool) : string + unit :=
  if guardFails (lookupElements present) then inl GUARD_MESSAGE else inr tt.

(** ** Claims *)

(** C38: The module throws the guard's error exactly when the page lacks
    one of the eleven elements it looks up, and starts otherwise: the
    guard tests every element the module uses. *)
Theorem startUp_spec present :
  startUp present = if forallb present ELEMENT_IDS then inr tt else inl GUARD_MESSAGE.
Proof.
  unfold startUp, guardFails, lookupElements, ELEMENT_IDS. simpl.
  repeat (match goal with |- context [present ?x] => destruct (present x) end; simpl);
    reflexivity.
Qed.
